(** * stop-server.py: the preStop shutdown script of the WebLogic operator

    A shallow embedding of [operator/src/main/resources/scripts/stop-server.py]
    and the properties of its shutdown decision logic.

    The script is a WLST (Jython) program.  Its pure parts (string handling,
    the configuration scan) are plain functions.  Its effectful parts run in a
    small monad [M] that threads the script's global variables and the replies
    of the outside world, collects the calls the script makes as a chronological
    list of events, and distinguishes normal completion, a propagating Python
    exception, process exit, and the external kill at the end of the
    Kubernetes grace period. *)

From Stdlib Require Import String Ascii List ZArith Arith Lia Bool.
From Stdlib Require Import Numbers.DecimalString.
Import ListNotations.
Open Scope string_scope.
Open Scope list_scope.
Open Scope nat_scope.

(** Python's [+] on strings. *)
Infix "+++" := String.append (at level 60, right associativity).


(* ===================================================================== *)
(** ** Python strings *)
(* ===================================================================== *)

Module PyStr.

(** [str.isspace] on a single character: blank, \t, \n, \v, \f, \r. *)
Definition is_space (c : ascii) : bool :=
  let n := nat_of_ascii c in
  (n =? 32) || ((9 <=? n) && (n <=? 13)).

(** [s.split()] with no separator: the maximal runs of non-blank
    characters, in order. *)
Fixpoint split (s : string) : list string :=
  match s with
  | EmptyString => []
  | String c s' =>
      if is_space c then split s'
      else match s' with
           | EmptyString => [String c EmptyString]
           | String d _ =>
               if is_space d then String c EmptyString :: split s'
               else match split s' with
                    | w :: ws => String c w :: ws
                    | [] => [String c EmptyString]
                    end
           end
  end.

(** [sep.join(words)]. *)
Fixpoint join (sep : string) (words : list string) : string :=
  match words with
  | [] => EmptyString
  | [w] => w
  | w :: ws => w +++ sep +++ join sep ws
  end.

(** [len(s)] is [String.length]. *)

(** [s[n:]]. *)
Fixpoint drop (n : nat) (s : string) : string :=
  match n, s with
  | O, _ => s
  | S n', String _ s' => drop n' s'
  | S _, EmptyString => EmptyString
  end.

(** [s.lower()] on ASCII. *)
Definition lower_char (c : ascii) : ascii :=
  let n := nat_of_ascii c in
  if (65 <=? n) && (n <=? 90) then ascii_of_nat (n + 32) else c.

Fixpoint lower (s : string) : string :=
  match s with
  | EmptyString => EmptyString
  | String c s' => String (lower_char c) (lower s')
  end.

(** [s.strip()]: blanks removed at both ends. *)
Fixpoint lstrip (s : string) : string :=
  match s with
  | String c s' => if is_space c then lstrip s' else s
  | EmptyString => EmptyString
  end.

Fixpoint rstrip (s : string) : string :=
  match s with
  | EmptyString => EmptyString
  | String c s' =>
      match rstrip s' with
      | EmptyString => if is_space c then EmptyString else String c EmptyString
      | r => String c r
      end
  end.

Definition strip (s : string) : string := rstrip (lstrip s).

(** [str(n)] for a non-negative integer. *)
Definition str_of_nat (n : nat) : string :=
  NilZero.string_of_uint (Nat.to_uint n).

Definition is_digit (c : ascii) : bool :=
  let n := nat_of_ascii c in (48 <=? n) && (n <=? 57).

Fixpoint all_digits (s : string) : bool :=
  match s with
  | EmptyString => true
  | String c s' => is_digit c && all_digits s'
  end.

Fixpoint digits_value (acc : Z) (s : string) : Z :=
  match s with
  | EmptyString => acc
  | String c s' =>
      digits_value (10 * acc + Z.of_nat (nat_of_ascii c - 48))%Z s'
  end.

Definition unsigned_int (s : string) : option Z :=
  match s with
  | EmptyString => None
  | _ => if all_digits s then Some (digits_value 0%Z s) else None
  end.

(** [int(s)] on a string: surrounding blanks, an optional sign, decimal
    digits.  [None] stands for the [ValueError] Python raises. *)
Definition int (s : string) : option Z :=
  match strip s with
  | String "-" r => option_map Z.opp (unsigned_int r)
  | String "+" r => unsigned_int r
  | r => unsigned_int r
  end.

End PyStr.

(* ===================================================================== *)
(** ** The regular expression of [checkCoherenceClusterExist] *)
(* ===================================================================== *)

Module Re.

Definition ELEMENT_NAME : string := "coherence-cluster-system-resource".
Definition OPEN_TAG : string := "<coherence-cluster-system-resource>".
Definition CLOSE_TAG : string := "</coherence-cluster-system-resource>".

(** The pattern is [OPEN_TAG], then [[\s\S]*?] (any characters, as few as
    possible), then [CLOSE_TAG] (the pattern's [\/] is a plain slash).

    [lazy_any_then lit s] runs the lazy star followed by the literal [lit]
    at the head of [s]: the literal is tried first, and only when it
    fails is one more character consumed.  The result is the number of
    characters matched. *)
Fixpoint lazy_any_then (lit s : string) : option nat :=
  if String.prefix lit s then Some (String.length lit)
  else match s with
       | EmptyString => None
       | String _ s' => option_map S (lazy_any_then lit s')
       end.

(** The whole pattern anchored at the head of [s]. *)
Definition match_here (s : string) : option nat :=
  if String.prefix OPEN_TAG s
  then option_map (Nat.add (String.length OPEN_TAG))
         (lazy_any_then CLOSE_TAG (PyStr.drop (String.length OPEN_TAG) s))
  else None.

(** [re.search(pattern, s)]: the match at the leftmost position where
    one exists; [x.span()] of the match object, or [None]. *)
Fixpoint search (s : string) : option (nat * nat) :=
  match match_here s with
  | Some len => Some (0, len)
  | None =>
      match s with
      | EmptyString => None
      | String _ s' =>
          option_map (fun sp => (S (fst sp), S (snd sp))) (search s')
      end
  end.

End Re.

(* ===================================================================== *)
(** ** The outside world and the script's state *)
(* ===================================================================== *)

(** What a call into WLST, the JMX server or the file system comes back
    with: a value, or a raised exception with its message. *)
Inductive reply (A : Type) : Type :=
| Ok (a : A)
| Raises (msg : string).
Arguments Ok {A} a.
Arguments Raises {A} msg.

(** A [javax.management.ObjectInstance] as returned by [mbs.queryMBeans]. *)
Record ObjectInstance : Type := mkObjectInstance { getObjectName : string }.

(** The arguments of WLST's [shutdown]. *)
Record ShutdownArgs : Type := mkShutdownArgs {
  sd_name : string;
  sd_entityType : string;
  sd_ignoreSessions : string;
  sd_timeOut : Z;
  sd_force : string;
  sd_block : string;
  sd_waitForAllSessions : string
}.

(** The world the script runs in.  The environment and the file system are
    maps; every remote primitive has the list of replies its successive
    calls receive.  A primitive called when its list is empty receives no
    reply: the grace period has expired and Kubernetes kills the process
    while the call is pending. *)
Record World : Type := mkWorld {
  environ : string -> option string;
  files : string -> option string;
  writable : string -> bool;
  decodestring : string -> option string;
  connect_replies : list (reply unit);
  domainRuntime_replies : list (reply unit);
  queryMBeans_replies : list (reply (list ObjectInstance));
  getAttribute_replies : list (reply (option string));
  shutdown_replies : list (reply unit);
  nmConnect_replies : list (reply unit);
  nmKill_replies : list (reply unit)
}.

(** The variables the script assigns inside its loops and [try] blocks. *)
Record State : Type := mkState {
  world : World;
  stayInConnectLoop : bool;
  cohSafe : bool;
  done : bool;
  warnSleep : bool
}.

(** What the script does, in order: its output, its sleeps, its calls
    (with their arguments) and what the calls come back with ([Completed],
    [Beans], [HAStatus], or [Raised] for an exception, which also marks
    every other raising point).  [Returned f] marks the normal return of
    the script's own function [f]. *)
Inductive event : Type :=
| Print (line : string)
| PrintExc
| DumpStack
| Sleep (seconds : nat)
| ReadFile (path : string)
| Decode
| WriteFile (path : string)
| Connect (url domainName domainDir : string)
| DomainRuntime
| QueryMBeans (query : string)
| Beans (found : list ObjectInstance)
| GetAttribute (objectName attribute : string)
| HAStatus (status : option string)
| Shutdown (args : ShutdownArgs)
| NmConnect (domainName domainDir : string)
| NmKill (server : string)
| Completed
| Raised (msg : string)
| Returned (function : string).

(** How a piece of the script ends: it completes with a value, a Python
    exception propagates out of it, the process exits with a status, or
    the process is killed from outside, the grace period over. *)
Inductive outcome (A : Type) : Type :=
| Ret (a : A)
| Raise (msg : string)
| Exit (code : Z)
| Killed.
Arguments Ret {A} a.
Arguments Raise {A} msg.
Arguments Exit {A} code.
Arguments Killed {A}.

(** A run: how it ended, the state it left, and its log. *)
Record run (A : Type) : Type := mkRun {
  out : outcome A;
  after : State;
  log : list event
}.
Arguments mkRun {A} out after log.
Arguments out {A} r.
Arguments after {A} r.
Arguments log {A} r.

(** The monad of the script. *)
Definition M (A : Type) : Type := State -> run A.

Definition ret {A} (a : A) : M A := fun s => mkRun (Ret a) s [].

(** [prepend l r]: the run [r], after the events [l]. *)
Definition prepend {A} (l : list event) (r : run A) : run A :=
  match r with
  | mkRun o s l' => mkRun o s (l ++ l')
  end.

Definition bind {A B} (m : M A) (f : A -> M B) : M B :=
  fun s =>
    match m s with
    | mkRun (Ret a) s' l => prepend l (f a s')
    | mkRun (Raise msg) s' l => mkRun (Raise msg) s' l
    | mkRun (Exit code) s' l => mkRun (Exit code) s' l
    | mkRun Killed s' l => mkRun Killed s' l
    end.

Notation "x <- m ;; k" := (bind m (fun x => k))
  (at level 61, m at next level, right associativity).
Notation "m ;; k" := (bind m (fun _ => k))
  (at level 61, right associativity).

Definition emit (e : event) : M unit := fun s => mkRun (Ret tt) s [e].

(** [raise]: the raising point is recorded. *)
Definition throw {A} (msg : string) : M A :=
  fun s => mkRun (Raise msg) s [Raised msg].

(** Modelled from the spec: Python's [sys.exit] and WLST's [exit] are not
    part of the script.  Both end the process with the status they are
    given, [exit()] with status 0.  [sys.exit] is called at module level
    only, outside every [try]. *)
Definition exit_ {A} (code : Z) : M A := fun s => mkRun (Exit code) s [].

(** [try: body  except: handler].  The assignments [body] made before
    raising stay in force.  Only a Python exception is caught; process exit
    and the external kill are not. *)
Definition try_except {A} (body : M A) (handler : string -> M A) : M A :=
  fun s =>
    match body s with
    | mkRun (Raise msg) s' l => prepend l (handler msg s')
    | r => r
    end.

Definition get {A} (field : State -> A) : M A := fun s => mkRun (Ret (field s)) s [].
Definition modify (f : State -> State) : M unit := fun s => mkRun (Ret tt) (f s) [].

Definition set_world (w : World) (s : State) : State :=
  mkState w (stayInConnectLoop s) (cohSafe s) (done s) (warnSleep s).
Definition set_stayInConnectLoop (b : bool) (s : State) : State :=
  mkState (world s) b (cohSafe s) (done s) (warnSleep s).
Definition set_cohSafe (b : bool) (s : State) : State :=
  mkState (world s) (stayInConnectLoop s) b (done s) (warnSleep s).
Definition set_done (b : bool) (s : State) : State :=
  mkState (world s) (stayInConnectLoop s) (cohSafe s) b (warnSleep s).
Definition set_warnSleep (b : bool) (s : State) : State :=
  mkState (world s) (stayInConnectLoop s) (cohSafe s) (done s) b.

Definition set_files (f : string -> option string) (w : World) : World :=
  mkWorld (environ w) f (writable w) (decodestring w) (connect_replies w)
    (domainRuntime_replies w) (queryMBeans_replies w) (getAttribute_replies w)
    (shutdown_replies w) (nmConnect_replies w) (nmKill_replies w).
Definition set_connect_replies (l : list (reply unit)) (w : World) : World :=
  mkWorld (environ w) (files w) (writable w) (decodestring w) l
    (domainRuntime_replies w) (queryMBeans_replies w) (getAttribute_replies w)
    (shutdown_replies w) (nmConnect_replies w) (nmKill_replies w).
Definition set_domainRuntime_replies (l : list (reply unit)) (w : World) : World :=
  mkWorld (environ w) (files w) (writable w) (decodestring w) (connect_replies w)
    l (queryMBeans_replies w) (getAttribute_replies w)
    (shutdown_replies w) (nmConnect_replies w) (nmKill_replies w).
Definition set_queryMBeans_replies (l : list (reply (list ObjectInstance)))
    (w : World) : World :=
  mkWorld (environ w) (files w) (writable w) (decodestring w) (connect_replies w)
    (domainRuntime_replies w) l (getAttribute_replies w)
    (shutdown_replies w) (nmConnect_replies w) (nmKill_replies w).
Definition set_getAttribute_replies (l : list (reply (option string)))
    (w : World) : World :=
  mkWorld (environ w) (files w) (writable w) (decodestring w) (connect_replies w)
    (domainRuntime_replies w) (queryMBeans_replies w) l
    (shutdown_replies w) (nmConnect_replies w) (nmKill_replies w).
Definition set_shutdown_replies (l : list (reply unit)) (w : World) : World :=
  mkWorld (environ w) (files w) (writable w) (decodestring w) (connect_replies w)
    (domainRuntime_replies w) (queryMBeans_replies w) (getAttribute_replies w)
    l (nmConnect_replies w) (nmKill_replies w).
Definition set_nmConnect_replies (l : list (reply unit)) (w : World) : World :=
  mkWorld (environ w) (files w) (writable w) (decodestring w) (connect_replies w)
    (domainRuntime_replies w) (queryMBeans_replies w) (getAttribute_replies w)
    (shutdown_replies w) l (nmKill_replies w).
Definition set_nmKill_replies (l : list (reply unit)) (w : World) : World :=
  mkWorld (environ w) (files w) (writable w) (decodestring w) (connect_replies w)
    (domainRuntime_replies w) (queryMBeans_replies w) (getAttribute_replies w)
    (shutdown_replies w) (nmConnect_replies w) l.

(** A call to a remote primitive: the call is recorded, then its next reply
    is taken and recorded: [answer a] for a value [a], [Raised msg] for an
    exception.  No reply left: the process is killed during the call. *)
Definition call {A} (e : event) (answer : A -> event)
    (replies : World -> list (reply A))
    (rest : list (reply A) -> World -> World) : M A :=
  fun s =>
    match replies (world s) with
    | [] => mkRun Killed s [e]
    | Ok a :: l => mkRun (Ret a) (set_world (rest l (world s)) s) [e; answer a]
    | Raises msg :: l =>
        mkRun (Raise msg) (set_world (rest l (world s)) s) [e; Raised msg]
    end.

(** Control at the end of a loop body: go on to the next test of the loop
    condition (the end of the body, or [continue]), or [break]. *)
Inductive ctl : Type := Next | Break.

(** The grace period has expired. *)
Definition killed {A} : M A := fun s => mkRun Killed s [].

(** [while cond: body].  Every loop of the script is unbounded; [fuel]
    bounds the number of iterations the grace period leaves, and a loop
    that needs more is killed. *)
Fixpoint while (fuel : nat) (cond : M bool) (body : M ctl) : M unit :=
  c <- cond ;;
  if c then
    match fuel with
    | O => killed
    | S fuel' =>
        k <- body ;;
        match k with
        | Next => while fuel' cond body
        | Break => ret tt
        end
    end
  else ret tt.

(** One iteration of a loop whose condition holds: the run of the body,
    then the rest of the loop. *)
Definition iterate (rest : M unit) (b : run ctl) : run unit :=
  match b with
  | mkRun (Ret Next) s' l => prepend l (rest s')
  | mkRun (Ret Break) s' l => mkRun (Ret tt) s' l
  | mkRun (Raise msg) s' l => mkRun (Raise msg) s' l
  | mkRun (Exit code) s' l => mkRun (Exit code) s' l
  | mkRun Killed s' l => mkRun Killed s' l
  end.

(** [for x in xs: body x]. *)
Fixpoint for_each {A} (xs : list A) (body : A -> M unit) : M unit :=
  match xs with
  | [] => ret tt
  | x :: xs' => body x ;; for_each xs' body
  end.

(* ===================================================================== *)
(** ** The script *)
(* ===================================================================== *)

(** [print(line)]. *)
Definition print (line : string) : M unit := emit (Print line).

(** [systime.sleep(n)]. *)
Definition sleep (seconds : nat) : M unit := emit (Sleep seconds).

(** [open(path, 'r')], [read()], [close()]: an [IOError] when the file
    cannot be opened or read. *)
Definition read_file (path : string) : M string :=
  emit (ReadFile path) ;;
  w <- get world ;;
  match files w path with
  | Some data => ret data
  | None => throw "IOError"
  end.

(** [open(path, 'wb')], [write(data)], [close()]. *)
Definition write_file (path data : string) : M unit :=
  emit (WriteFile path) ;;
  w <- get world ;;
  if writable w path
  then modify (set_world
         (set_files (fun p => if String.eqb p path then Some data else files w p) w))
  else throw "IOError".

(** [base64.decodestring(contents)]. *)
Definition base64_decodestring (contents : string) : M string :=
  emit Decode ;;
  w <- get world ;;
  match decodestring w contents with
  | Some decoded => ret decoded
  | None => throw "binascii.Error"
  end.

(** WLST and JMX primitives. *)
Definition connect (url domainName domainDir : string) : M unit :=
  call (Connect url domainName domainDir) (fun _ => Completed)
    connect_replies set_connect_replies.

Definition domainRuntime : M unit :=
  call DomainRuntime (fun _ => Completed)
    domainRuntime_replies set_domainRuntime_replies.

Definition queryMBeans (query : string) : M (list ObjectInstance) :=
  call (QueryMBeans query) Beans queryMBeans_replies set_queryMBeans_replies.

Definition getAttribute (objectName attribute : string) : M (option string) :=
  call (GetAttribute objectName attribute) HAStatus
    getAttribute_replies set_getAttribute_replies.

Definition shutdown (args : ShutdownArgs) : M unit :=
  call (Shutdown args) (fun _ => Completed) shutdown_replies set_shutdown_replies.

Definition nmConnect (domainName domainDir : string) : M unit :=
  call (NmConnect domainName domainDir) (fun _ => Completed)
    nmConnect_replies set_nmConnect_replies.

Definition nmKill (server : string) : M unit :=
  call (NmKill server) (fun _ => Completed) nmKill_replies set_nmKill_replies.

(** [int(timeout)]: a [ValueError] on a string that is not a number. *)
Definition int (s : string) : M Z :=
  match PyStr.int s with
  | Some z => ret z
  | None => throw "ValueError"
  end.

(** The error line of [getEnvVar]; the [print] statement separates its
    items by one blank. *)
Definition env_error (var : string) : string :=
  "ERROR: Env var " +++ " " +++ var +++ " " +++ " not set.".

(** <<
def getEnvVar(var):
  val=os.environ.get(var)
  if val==None:
    print "ERROR: Env var ",var, " not set."
    sys.exit(1)
  return val
>> *)
Definition getEnvVar (var : string) : M string :=
  w <- get world ;;
  match environ w var with
  | None =>
      print (env_error var) ;;
      exit_ 1%Z
  | Some val => ret val
  end.

(** <<
def shutdownUsingNodeManager(domainName, domainDir):
  try:
    print('Shutdown: Attempting shutdown using NodeManager')
    nmConnect(..., domainName=domainName, domainDir=domainDir, nmType='plain')
    print('Shutdown: Successfully connected to NodeManager')
    nmKill(server_name)
    print('Shutdown: Successfully killed server using NodeManager')
  except Exception, e:
    traceback.print_exc(file=sys.stdout)
    print('Shutdown: Failed to kill server using NodeManager')
    raise
>> *)
Definition shutdownUsingNodeManager (server_name domainName domainDir : string)
  : M unit :=
  try_except
    (print "Shutdown: Attempting shutdown using NodeManager" ;;
     nmConnect domainName domainDir ;;
     print "Shutdown: Successfully connected to NodeManager" ;;
     nmKill server_name ;;
     print "Shutdown: Successfully killed server using NodeManager")
    (fun e =>
       emit PrintExc ;;
       print "Shutdown: Failed to kill server using NodeManager" ;;
       throw e).

Section Detector.

(** [re.search] with the script's pattern, as the library call it is:
    it returns a span or [None], or raises. *)
Variable re_search : string -> reply (option (nat * nat)).

(** <<
def checkCoherenceClusterExist(configData):
try:
  spacelessData = ''.join(configData.split())
  ELEMENT_NAME =  "coherence-cluster-system-resource"
  x =  re.search('<coherence-cluster-system-resource>[\s\S]*?<\/coherence-cluster-system-resource>',spacelessData)
  if (x is None):
    return False
  else:
    first, last = x.span()
    return (last-first-5) > (2 * len(ELEMENT_NAME))
except:
  traceback.print_exc(file=sys.stdout)
  print('Shutdown: Exception processing config data, assume Coherence exists')
  return True
>> *)
Definition checkCoherenceClusterExist_with (configData : string) : M bool :=
  try_except
    (let spacelessData := PyStr.join "" (PyStr.split configData) in
     match re_search spacelessData with
     | Raises msg => throw msg
     | Ok None => ret false
     | Ok (Some (first, last)) =>
         ret (Z.of_nat last - Z.of_nat first - 5
              >? 2 * Z.of_nat (String.length Re.ELEMENT_NAME))%Z
     end)
    (fun _ =>
       emit PrintExc ;;
       print "Shutdown: Exception processing config data, assume Coherence exists" ;;
       ret true).

(** <<
def doesCoherenceExist():
try:
  f = open(domain_path+'/config/config.xml', 'r')
  configData = f.read()
  f.close()
  return checkCoherenceClusterExist(configData)
except:
  print('Shutdown: Exception reading config.xml, assume Coherence exists')
  return True
>> *)
Definition doesCoherenceExist_with (domain_path : string) : M bool :=
  try_except
    (configData <- read_file (domain_path +++ "/config/config.xml") ;;
     checkCoherenceClusterExist_with configData)
    (fun _ =>
       print "Shutdown: Exception reading config.xml, assume Coherence exists" ;;
       ret true).

End Detector.

(** The script's own regular expression never raises. *)
Definition re_search (s : string) : reply (option (nat * nat)) := Ok (Re.search s).

Definition checkCoherenceClusterExist : string -> M bool :=
  checkCoherenceClusterExist_with re_search.

Definition doesCoherenceExist : string -> M bool :=
  doesCoherenceExist_with re_search.

(** The value [checkCoherenceClusterExist] returns, as a function of the
    configuration text. *)
Definition coherence_cluster_in (configData : string) : bool :=
  match Re.search (PyStr.join "" (PyStr.split configData)) with
  | None => false
  | Some (first, last) =>
      (Z.of_nat last - Z.of_nat first - 5
       >? 2 * Z.of_nat (String.length Re.ELEMENT_NAME))%Z
  end.

(** <<
def waitUntilServiceSafeToShutdown(objectName):
  print ("Shutdown: checking Coherence service " + str(objectName))
  while (True):
    try:
      status = mbs.getAttribute(objectName,"HAStatus")
      if (status is None):
        print ("Shutdown: None returned for Coherence HAStatus")
        break
      print ('Shutdown: Coherence HAStatus is ' + status)
      if status != "ENDANGERED":
        break
      print ('Shutdown: Waiting until it is safe to shutdown Coherence server ...')
      systime.sleep(5)
    except:
      print ('Shutdown: An exception occurred getting Coherence MBeans, staying in loop checking for safe')
      traceback.print_exc(file=sys.stdout)
      dumpStack()
      systime.sleep(10)
      pass
>> *)
Definition serviceSafe_body (objectName : string) : M ctl :=
  try_except
    (status <- getAttribute objectName "HAStatus" ;;
     match status with
     | None =>
         print "Shutdown: None returned for Coherence HAStatus" ;;
         ret Break
     | Some status =>
         print ("Shutdown: Coherence HAStatus is " +++ status) ;;
         if negb (String.eqb status "ENDANGERED") then ret Break
         else
           print "Shutdown: Waiting until it is safe to shutdown Coherence server ..." ;;
           sleep 5 ;;
           ret Next
     end)
    (fun _ =>
       print "Shutdown: An exception occurred getting Coherence MBeans, staying in loop checking for safe" ;;
       emit PrintExc ;;
       emit DumpStack ;;
       sleep 10 ;;
       ret Next).

Definition waitUntilServiceSafeToShutdown (fuel : nat) (objectName : string)
  : M unit :=
  print ("Shutdown: checking Coherence service " +++ objectName) ;;
  while fuel (ret true) (serviceSafe_body objectName).

(** <<
def waitUntilCoherenceSafe():
  print ('Shutdown: getting all service Coherence MBeans')
  query='Coherence:type=PartitionAssignment,service=*,*'
  domainRuntime()
  done = False
  warnSleep = True
  while (not done):
    try:
      beans = list(mbs.queryMBeans(ObjectName(query), None))
      if beans is None or len(beans) == 0:
        if warnSleep:
          print('Shutdown: Waiting until Coherence MBeans available... ')
          warnSleep = False
        systime.sleep(1)
        continue
      print('Shutdown: Coherence service bean count ' + str(len(beans)))
      for serviceBean in beans:
        objectName = serviceBean.getObjectName()
        waitUntilServiceSafeToShutdown(objectName)
      done = True
      print ('Shutdown: It is safe to shutdown Coherence')
    except:
      print ("Shutdown: Exception checking a service Coherence HAStatus, retrying...")
      traceback.print_exc(file=sys.stdout)
      dumpStack()
      systime.sleep(10)
      pass
>> *)
Definition query : string := "Coherence:type=PartitionAssignment,service=*,*".

Definition coherenceSafe_body (fuel : nat) : M ctl :=
  try_except
    (beans <- queryMBeans query ;;
     if List.length beans =? 0 then
       (ws <- get warnSleep ;;
        if ws then
          print "Shutdown: Waiting until Coherence MBeans available... " ;;
          modify (set_warnSleep false)
        else ret tt) ;;
       sleep 1 ;;
       ret Next
     else
       print ("Shutdown: Coherence service bean count "
              +++ PyStr.str_of_nat (List.length beans)) ;;
       for_each beans (fun serviceBean =>
         let objectName := getObjectName serviceBean in
         waitUntilServiceSafeToShutdown fuel objectName) ;;
       modify (set_done true) ;;
       print "Shutdown: It is safe to shutdown Coherence" ;;
       ret Next)
    (fun _ =>
       print "Shutdown: Exception checking a service Coherence HAStatus, retrying..." ;;
       emit PrintExc ;;
       emit DumpStack ;;
       sleep 10 ;;
       ret Next).

Definition waitUntilCoherenceSafe (fuel : nat) : M unit :=
  print "Shutdown: getting all service Coherence MBeans" ;;
  domainRuntime ;;
  modify (set_done false) ;;
  modify (set_warnSleep true) ;;
  while fuel (d <- get done ;; ret (negb d)) (coherenceSafe_body fuel) ;;
  emit (Returned "waitUntilCoherenceSafe").

(** The values the main script reads from the environment. *)
Record Config : Type := mkConfig {
  domain_uid : string;
  admin_name : string;
  server_name : string;
  domain_name : string;
  domain_path : string;
  service_name : string;
  local_admin_port : string;
  local_admin_protocol : string;
  timeout : string;
  ignore_sessions : string;
  wait_for_all_sessions : string;
  shutdown_type : string;
  admin_port : string;
  admin_host : string
}.

(** The names [getEnvVar] is called with, in the order of the calls. *)
Definition required_vars : list string :=
  [ "DOMAIN_UID"; "ADMIN_NAME"; "SERVER_NAME"; "DOMAIN_NAME"; "DOMAIN_HOME";
    "SERVICE_NAME"; "SHUTDOWN_PORT_ARG"; "SHUTDOWN_PROTOCOL_ARG";
    "SHUTDOWN_TIMEOUT_ARG"; "SHUTDOWN_IGNORE_SESSIONS_ARG";
    "SHUTDOWN_WAIT_FOR_ALL_SESSIONS_ARG"; "SHUTDOWN_TYPE_ARG"; "ADMIN_PORT";
    "AS_SERVICE_NAME" ].

(** Lines 187-200. *)
Definition load_config : M Config :=
  domain_uid <- getEnvVar "DOMAIN_UID" ;;
  admin_name <- getEnvVar "ADMIN_NAME" ;;
  server_name <- getEnvVar "SERVER_NAME" ;;
  domain_name <- getEnvVar "DOMAIN_NAME" ;;
  domain_path <- getEnvVar "DOMAIN_HOME" ;;
  service_name <- getEnvVar "SERVICE_NAME" ;;
  local_admin_port <- getEnvVar "SHUTDOWN_PORT_ARG" ;;
  local_admin_protocol <- getEnvVar "SHUTDOWN_PROTOCOL_ARG" ;;
  timeout <- getEnvVar "SHUTDOWN_TIMEOUT_ARG" ;;
  ignore_sessions <- getEnvVar "SHUTDOWN_IGNORE_SESSIONS_ARG" ;;
  wait_for_all_sessions <- getEnvVar "SHUTDOWN_WAIT_FOR_ALL_SESSIONS_ARG" ;;
  shutdown_type <- getEnvVar "SHUTDOWN_TYPE_ARG" ;;
  admin_port <- getEnvVar "ADMIN_PORT" ;;
  admin_host <- getEnvVar "AS_SERVICE_NAME" ;;
  ret (mkConfig domain_uid admin_name server_name domain_name domain_path
         service_name local_admin_port local_admin_protocol timeout
         ignore_sessions wait_for_all_sessions shutdown_type admin_port
         admin_host).

(** Lines 202-204: the configured force flag. *)
Definition configured_force (cfg : Config) : string :=
  if String.eqb (PyStr.lower (shutdown_type cfg)) "forced" then "true" else "false".

(** Lines 206-214: the user key, decoded from base64 into a binary file. *)
Definition decode_user_key : M unit :=
  contents <- read_file "/weblogic-operator/introspector/userKeyNodeManager.secure" ;;
  decoded <- base64_decodestring contents ;;
  write_file "/tmp/userKeyNodeManager.secure.bin" decoded.

(** Lines 222 and 231: the two connection targets. *)
Definition admin_endpoint (cfg : Config) : string :=
  local_admin_protocol cfg +++ "://" +++ admin_host cfg +++ ":" +++ admin_port cfg.

Definition local_endpoint (cfg : Config) : string :=
  local_admin_protocol cfg +++ "://" +++ service_name cfg +++ ":"
  +++ local_admin_port cfg.

(** Lines 219-231: the connection target and the force flag in use.
<<
if (cohExists):
  print ('Shutdown: Coherence cluster exists')
  connect_url = local_admin_protocol + '://' + admin_host + ':' + admin_port
  if admin_name == server_name:
    force = 'true'
else:
  print ('Shutdown: Coherence cluster does not exist')
  connect_url = local_admin_protocol + '://' + service_name + ':' + local_admin_port
>> *)
Definition select_target (cfg : Config) (cohExists : bool) (force : string)
  : M (string * string) :=
  if cohExists then
    print "Shutdown: Coherence cluster exists" ;;
    let connect_url := admin_endpoint cfg in
    if String.eqb (admin_name cfg) (server_name cfg)
    then ret (connect_url, "true")
    else ret (connect_url, force)
  else
    print "Shutdown: Coherence cluster does not exist" ;;
    let connect_url := local_endpoint cfg in
    ret (connect_url, force).

(** Lines 265-269, the last resort:
<<
      try:
        shutdownUsingNodeManager(domain_name, domain_path)
        exit()
      except:
        exit(2)
>> *)
Definition fallback (cfg : Config) : M ctl :=
  try_except
    (shutdownUsingNodeManager (server_name cfg) (domain_name cfg) (domain_path cfg) ;;
     exit_ 0%Z)
    (fun _ => exit_ 2%Z).

(** Lines 257-269, the [except] block of the connect loop:
<<
  except Exception, e:
    print e
    print('Shutdown: Exception in connect or shutdown')
    if (cohExists and not cohSafe):
      print('Shutdown: Coherence not safe to shutdown. Sleeping before connect retry ...')
      stayInConnectLoop = True
      systime.sleep(10)
    else:
      (the last resort)
>> *)
Definition on_failure (cfg : Config) (cohExists : bool) (e : string) : M ctl :=
  print e ;;
  print "Shutdown: Exception in connect or shutdown" ;;
  safe <- get cohSafe ;;
  if cohExists && negb safe then
    print "Shutdown: Coherence not safe to shutdown. Sleeping before connect retry ..." ;;
    modify (set_stayInConnectLoop true) ;;
    sleep 10 ;;
    ret Next
  else fallback cfg.

(** Lines 253-255, the graceful stop:
<<
    print('Shutdown: Calling server shutdown with force = ' + force)
    shutdown(server_name, 'Server', ignoreSessions=ignore_sessions, timeOut=int(timeout), force=force, block='true', properties=None, waitForAllSessions=wait_for_all_sessions)
    print('Shutdown: Successfully shutdown the server')
>> *)
Definition shutdown_args (cfg : Config) (force : string) (timeOut : Z) : ShutdownArgs :=
  mkShutdownArgs (server_name cfg) "Server" (ignore_sessions cfg) timeOut force
    "true" (wait_for_all_sessions cfg).

Definition graceful_stop (cfg : Config) (force : string) : M ctl :=
  print ("Shutdown: Calling server shutdown with force = " +++ force) ;;
  timeOut <- int (timeout cfg) ;;
  shutdown (shutdown_args cfg force timeOut) ;;
  print "Shutdown: Successfully shutdown the server" ;;
  ret Next.

(** Lines 238-269, one iteration of the connect loop:
<<
  try:
    stayInConnectLoop = False
    print ('Shutdown: Connecting to server at ' + connect_url)
    connect(..., url=connect_url, domainName=domain_name, domainDir=domain_path, nmType='plain')
    print('Shutdown: Successfully connected to server')
    if (cohExists):
      waitUntilCoherenceSafe()
      cohSafe = True
    (the graceful stop)
  except Exception, e:
    (the except block)
>> *)
Definition connect_body (fuel : nat) (cfg : Config) (cohExists : bool)
    (connect_url force : string) : M ctl :=
  try_except
    (modify (set_stayInConnectLoop false) ;;
     print ("Shutdown: Connecting to server at " +++ connect_url) ;;
     connect connect_url (domain_name cfg) (domain_path cfg) ;;
     print "Shutdown: Successfully connected to server" ;;
     (if cohExists then
        waitUntilCoherenceSafe fuel ;;
        modify (set_cohSafe true)
      else ret tt) ;;
     graceful_stop cfg force)
    (on_failure cfg cohExists).

(** Lines 235-269:
<<
stayInConnectLoop = True
cohSafe = False
while (stayInConnectLoop):
  (one iteration)
>> *)
Definition connect_loop (fuel : nat) (cfg : Config) (cohExists : bool)
    (connect_url force : string) : M unit :=
  modify (set_stayInConnectLoop true) ;;
  modify (set_cohSafe false) ;;
  while fuel (get stayInConnectLoop) (connect_body fuel cfg cohExists connect_url force).

(** The main script, lines 186-272. *)
Definition main (fuel : nat) : M unit :=
  print "Shutdown: main script" ;;
  cfg <- load_config ;;
  let force := configured_force cfg in
  decode_user_key ;;
  cohExists <- doesCoherenceExist (domain_path cfg) ;;
  target <- select_target cfg cohExists force ;;
  connect_loop fuel cfg cohExists (fst target) (snd target) ;;
  exit_ 0%Z.

(* ===================================================================== *)
(** ** Reading the environment, as a function *)
(* ===================================================================== *)

Definition unset (env : string -> option string) (var : string) : bool :=
  match env var with
  | None => true
  | Some _ => false
  end.

(** The first variable, in the order the script reads them, that is not
    set. *)
Definition first_unset (env : string -> option string) : option string :=
  List.find (unset env) required_vars.

(** The configuration an environment with every variable set yields. *)
Definition config_of (env : string -> option string) : Config :=
  let val var := match env var with Some v => v | None => "" end in
  mkConfig (val "DOMAIN_UID") (val "ADMIN_NAME") (val "SERVER_NAME")
    (val "DOMAIN_NAME") (val "DOMAIN_HOME") (val "SERVICE_NAME")
    (val "SHUTDOWN_PORT_ARG") (val "SHUTDOWN_PROTOCOL_ARG")
    (val "SHUTDOWN_TIMEOUT_ARG") (val "SHUTDOWN_IGNORE_SESSIONS_ARG")
    (val "SHUTDOWN_WAIT_FOR_ALL_SESSIONS_ARG") (val "SHUTDOWN_TYPE_ARG")
    (val "ADMIN_PORT") (val "AS_SERVICE_NAME").

(* ===================================================================== *)
(** ** The safety wait, reply by reply *)
(* ===================================================================== *)

(** The state once the listed [getAttribute] (resp. [queryMBeans],
    [domainRuntime], [connect]) replies are the ones left. *)
Definition with_attributes (l : list (reply (option string))) (s : State) : State :=
  set_world (set_getAttribute_replies l (world s)) s.
Definition with_queries (l : list (reply (list ObjectInstance))) (s : State) : State :=
  set_world (set_queryMBeans_replies l (world s)) s.
Definition with_domainRuntimes (l : list (reply unit)) (s : State) : State :=
  set_world (set_domainRuntime_replies l (world s)) s.
Definition with_connects (l : list (reply unit)) (s : State) : State :=
  set_world (set_connect_replies l (world s)) s.

(** The loop of [waitUntilServiceSafeToShutdown]. *)
Definition poll (fuel : nat) (objectName : string) : M unit :=
  while fuel (ret true) (serviceSafe_body objectName).

(** The loop of [waitUntilCoherenceSafe]; [inner] is the fuel of the loops
    inside its body. *)
Definition enumerate (fuel inner : nat) : M unit :=
  while fuel (d <- get done ;; ret (negb d)) (coherenceSafe_body inner).

(** A health reply after which the service is polled again: the status
    ENDANGERED, or an exception. *)
Definition keeps_waiting (r : reply (option string)) : bool :=
  match r with
  | Raises _ => true
  | Ok None => false
  | Ok (Some status) => String.eqb status "ENDANGERED"
  end.

(** A status that ends the poll of a service: [None], or any status other
    than ENDANGERED. *)
Definition safe_status (status : option string) : bool :=
  negb (keeps_waiting (Ok status)).

(** What is printed and done on one health reply. *)
Definition poll_log (objectName : string) (r : reply (option string)) : list event :=
  GetAttribute objectName "HAStatus" ::
  match r with
  | Raises msg =>
      [ Raised msg;
        Print "Shutdown: An exception occurred getting Coherence MBeans, staying in loop checking for safe";
        PrintExc; DumpStack; Sleep 10 ]
  | Ok None =>
      [ HAStatus None; Print "Shutdown: None returned for Coherence HAStatus" ]
  | Ok (Some status) =>
      HAStatus (Some status) ::
      Print ("Shutdown: Coherence HAStatus is " +++ status) ::
      if String.eqb status "ENDANGERED"
      then [ Print "Shutdown: Waiting until it is safe to shutdown Coherence server ...";
             Sleep 5 ]
      else []
  end.

(** The observations of one service in a pass: the replies that kept the
    script waiting, then the status that released it. *)
Definition observation : Type := (list (reply (option string)) * option string)%type.

Definition replies_of (o : observation) : list (reply (option string)) :=
  fst o ++ [Ok (snd o)].

Definition settled (o : observation) : bool :=
  forallb keeps_waiting (fst o) && safe_status (snd o).

(** An enumeration that does not start a pass: an exception, or no bean. *)
Definition unavailable (r : reply (list ObjectInstance)) : bool :=
  match r with
  | Raises _ => true
  | Ok [] => true
  | Ok (_ :: _) => false
  end.

Definition is_sleep (n : nat) (e : event) : bool :=
  match e with
  | Sleep m => m =? n
  | _ => false
  end.

Definition is_query (e : event) : bool :=
  match e with
  | QueryMBeans _ => true
  | _ => false
  end.

(** The log of the poll of one service, given what it observed. *)
Definition service_log (objectName : string) (replies : list (reply (option string)))
  : list event :=
  Print ("Shutdown: checking Coherence service " +++ objectName) ::
  flat_map (poll_log objectName) replies.

(** The [for] loop of [waitUntilCoherenceSafe]. *)
Definition pass (inner : nat) (beans : list ObjectInstance) : M unit :=
  for_each beans (fun serviceBean =>
    let objectName := getObjectName serviceBean in
    waitUntilServiceSafeToShutdown inner objectName).

(** The log of a completed [for] loop: each bean with its observations. *)
Fixpoint pass_log (beans : list ObjectInstance) (obs : list observation)
  : list event :=
  match beans, obs with
  | b :: beans', o :: obs' =>
      service_log (getObjectName b) (replies_of o) ++ pass_log beans' obs'
  | _, _ => []
  end.

(** The state after an enumeration that did not start a pass. *)
Definition after_unavailable (r : reply (list ObjectInstance))
    (rest : list (reply (list ObjectInstance))) (s : State) : State :=
  match r with
  | Ok [] => set_warnSleep false (with_queries rest s)
  | _ => with_queries rest s
  end.

(** The log of an enumeration that did not start a pass. *)
Definition unavailable_log (r : reply (list ObjectInstance)) (warn : bool)
  : list event :=
  QueryMBeans query ::
  match r with
  | Raises msg =>
      [ Raised msg;
        Print "Shutdown: Exception checking a service Coherence HAStatus, retrying...";
        PrintExc; DumpStack; Sleep 10 ]
  | Ok beans =>
      Beans beans ::
      (if warn then [Print "Shutdown: Waiting until Coherence MBeans available... "]
       else []) ++ [Sleep 1]
  end.

(** The events of the safety wait short of its return: output, sleeps and
    JMX calls with their replies. *)
Definition polling_event (e : event) : bool :=
  match e with
  | Print _ | PrintExc | DumpStack | Sleep _ | DomainRuntime | Completed
  | QueryMBeans _ | Beans _ | GetAttribute _ _ | HAStatus _ | Raised _ => true
  | _ => false
  end.

(** The variables of the connect loop are the same in both states. *)
Definition same_flags (s s' : State) : Prop :=
  stayInConnectLoop s' = stayInConnectLoop s /\ cohSafe s' = cohSafe s.

(** The log of an enumeration that starts a pass, up to the first poll. *)
Definition pass_head (beans : list ObjectInstance) : list event :=
  [ QueryMBeans query; Beans beans;
    Print ("Shutdown: Coherence service bean count "
           +++ PyStr.str_of_nat (List.length beans)) ].

(** The log of the enumerations that did not start a pass; the notice that
    the beans are awaited is printed once. *)
Fixpoint unavailable_logs (fails : list (reply (list ObjectInstance)))
    (warn : bool) : list event :=
  match fails with
  | [] => []
  | r :: fails' =>
      unavailable_log r warn ++
      unavailable_logs fails' (match r with Ok _ => false | Raises _ => warn end)
  end.

(** The state in which the loop of [waitUntilCoherenceSafe] starts. *)
Definition wait_start (rest : list (reply unit)) (s : State) : State :=
  set_warnSleep true (set_done false (with_domainRuntimes rest s)).

Definition wait_head : list event :=
  [ Print "Shutdown: getting all service Coherence MBeans"; DomainRuntime ].

(** The replies the safety wait receives contain a settled pass:
    [domainRuntime] answers, the enumerations [fails] start no pass, the
    next one finds the beans [beans], and the health replies give every
    bean, in order, its observations [obs], each ending in a safe status.
    [qrest] and [arest] are the replies left after the pass. *)
Record settled_pass (s : State) (drest : list (reply unit))
    (fails : list (reply (list ObjectInstance))) (beans : list ObjectInstance)
    (qrest : list (reply (list ObjectInstance))) (obs : list observation)
    (arest : list (reply (option string))) : Prop := mkSettledPass {
  domainRuntime_answers : domainRuntime_replies (world s) = Ok tt :: drest;
  enumerations : queryMBeans_replies (world s) = fails ++ Ok beans :: qrest;
  no_pass_before : forallb unavailable fails = true;
  some_bean : beans <> [];
  observations : getAttribute_replies (world s) = flat_map replies_of obs ++ arest;
  one_per_bean : List.length obs = List.length beans;
  all_settled : forallb settled obs = true
}.

(** The replies the safety wait receives end inside a pass: the first
    beans have settled with [obs], the next one has only received the
    replies [waits], all of which keep the script waiting. *)
Record pending_pass (s : State) (drest : list (reply unit))
    (fails : list (reply (list ObjectInstance))) (beans : list ObjectInstance)
    (qrest : list (reply (list ObjectInstance))) (obs : list observation)
    (waits : list (reply (option string))) : Prop := mkPendingPass {
  pending_domainRuntime : domainRuntime_replies (world s) = Ok tt :: drest;
  pending_enumerations : queryMBeans_replies (world s) = fails ++ Ok beans :: qrest;
  pending_no_pass_before : forallb unavailable fails = true;
  pending_observations :
    getAttribute_replies (world s) = flat_map replies_of obs ++ waits;
  pending_bean : List.length obs < List.length beans;
  pending_settled : forallb settled obs = true;
  pending_waits : forallb keeps_waiting waits = true
}.

(** The grace period leaves room for the pass. *)
Definition in_time (fuel : nat) (fails : list (reply (list ObjectInstance)))
    (obs : list observation) : Prop :=
  List.length fails < fuel /\ forall o, In o obs -> List.length (fst o) < fuel.

(** The log of a safety wait that returns. *)
Definition wait_log (fails : list (reply (list ObjectInstance)))
    (beans : list ObjectInstance) (obs : list observation) : list event :=
  wait_head ++ [Completed] ++ unavailable_logs fails true ++ pass_head beans ++
  pass_log beans obs ++
  [ Print "Shutdown: It is safe to shutdown Coherence";
    Returned "waitUntilCoherenceSafe" ].

(* ===================================================================== *)
(** ** The paths through the connect loop *)
(* ===================================================================== *)

(** How one iteration of the connect loop ends: the failure was taken for
    Coherence contention and the loop goes round again; the server was
    shut down; the script exited; the process was killed from outside. *)
Inductive ending : Type :=
| Retry
| Stopped
| Exited (code : Z)
| Died.

Definition ends (e : ending) (o : outcome ctl) : Prop :=
  match e with
  | Retry | Stopped => o = Ret Next
  | Exited code => o = Exit code
  | Died => o = Killed
  end.

Section Paths.

Variables (cfg : Config) (cohExists : bool) (connect_url force : string).

Definition nm_connecting : list event :=
  [ Print "Shutdown: Attempting shutdown using NodeManager";
    NmConnect (domain_name cfg) (domain_path cfg) ].

Definition nm_killing : list event :=
  nm_connecting ++
  [ Completed; Print "Shutdown: Successfully connected to NodeManager";
    NmKill (server_name cfg) ].

Definition nm_failed (msg : string) : list event :=
  [ Raised msg; PrintExc;
    Print "Shutdown: Failed to kill server using NodeManager"; Raised msg ].

Definition nm_killed : list event :=
  [ Completed; Print "Shutdown: Successfully killed server using NodeManager" ].

(** The last resort. *)
Inductive fallback_path : ending -> list event -> Prop :=
| nm_connect_pending : fallback_path Died nm_connecting
| nm_connect_raised msg : fallback_path (Exited 2) (nm_connecting ++ nm_failed msg)
| nm_kill_pending : fallback_path Died nm_killing
| nm_kill_raised msg : fallback_path (Exited 2) (nm_killing ++ nm_failed msg)
| nm_kill_done : fallback_path (Exited 0) (nm_killing ++ nm_killed).

Definition failure_head (e : string) : list event :=
  [ Print e; Print "Shutdown: Exception in connect or shutdown" ].

Definition retry_tail : list event :=
  [ Print "Shutdown: Coherence not safe to shutdown. Sleeping before connect retry ...";
    Sleep 10 ].

Definition calling : list event :=
  [ Print ("Shutdown: Calling server shutdown with force = " +++ force) ].

(** The graceful stop, once the cluster is known safe or known absent:
    a failure goes to the last resort. *)
Inductive stop_path : ending -> list event -> Prop :=
| stop_bad_timeout e l :
    PyStr.int (timeout cfg) = None ->
    fallback_path e l ->
    stop_path e (calling ++ [Raised "ValueError"] ++ failure_head "ValueError" ++ l)
| stop_pending timeOut :
    PyStr.int (timeout cfg) = Some timeOut ->
    stop_path Died (calling ++ [Shutdown (shutdown_args cfg force timeOut)])
| stop_raised timeOut msg e l :
    PyStr.int (timeout cfg) = Some timeOut ->
    fallback_path e l ->
    stop_path e (calling ++ [Shutdown (shutdown_args cfg force timeOut); Raised msg]
                 ++ failure_head msg ++ l)
| stop_done timeOut :
    PyStr.int (timeout cfg) = Some timeOut ->
    stop_path Stopped
      (calling ++ [ Shutdown (shutdown_args cfg force timeOut); Completed;
                    Print "Shutdown: Successfully shutdown the server" ]).

Definition connecting : list event :=
  [ Print ("Shutdown: Connecting to server at " +++ connect_url);
    Connect connect_url (domain_name cfg) (domain_path cfg) ].

Definition connected : list event :=
  connecting ++ [ Completed; Print "Shutdown: Successfully connected to server" ].

Definition confirmed : list event := [ Returned "waitUntilCoherenceSafe" ].

(** One iteration of the connect loop, entered with [cohSafe] false. *)
Inductive attempt_path : ending -> list event -> Prop :=
| connect_pending : attempt_path Died connecting
| connect_raised_retry msg :
    cohExists = true ->
    attempt_path Retry (connecting ++ [Raised msg] ++ failure_head msg ++ retry_tail)
| connect_raised_fallback msg e l :
    cohExists = false ->
    fallback_path e l ->
    attempt_path e (connecting ++ [Raised msg] ++ failure_head msg ++ l)
| wait_pending l :
    cohExists = true ->
    forallb polling_event l = true ->
    attempt_path Died (connected ++ l)
| wait_raised_retry msg l :
    cohExists = true ->
    forallb polling_event l = true ->
    attempt_path Retry (connected ++ l ++ [Raised msg] ++ failure_head msg ++ retry_tail)
| wait_returned l e l' :
    cohExists = true ->
    forallb polling_event l = true ->
    stop_path e l' ->
    attempt_path e (connected ++ l ++ confirmed ++ l')
| no_wait e l' :
    cohExists = false ->
    stop_path e l' ->
    attempt_path e (connected ++ l').

(** The connect loop. *)
Inductive loop_path : outcome unit -> list event -> Prop :=
| out_of_time : loop_path Killed []
| retried l o l' :
    attempt_path Retry l -> loop_path o l' -> loop_path o (l ++ l')
| stopped l : attempt_path Stopped l -> loop_path (Ret tt) l
| exited code l : attempt_path (Exited code) l -> loop_path (Exit code) l
| died l : attempt_path Died l -> loop_path Killed l.

End Paths.

(* ===================================================================== *)
(** ** Properties of logs *)
(* ===================================================================== *)

Definition is_confirmation (e : event) : bool :=
  match e with
  | Returned f => String.eqb f "waitUntilCoherenceSafe"
  | _ => false
  end.

Definition is_connect (e : event) : bool :=
  match e with Connect _ _ _ => true | _ => false end.

Definition is_shutdown (e : event) : bool :=
  match e with Shutdown _ => true | _ => false end.

Definition is_nm_connect (e : event) : bool :=
  match e with NmConnect _ _ => true | _ => false end.

Definition is_nm_kill (e : event) : bool :=
  match e with NmKill _ => true | _ => false end.

Definition is_nm_call (e : event) : bool := is_nm_connect e || is_nm_kill e.

Definition is_raised (e : event) : bool :=
  match e with Raised _ => true | _ => false end.

Definition is_completed (e : event) : bool :=
  match e with Completed => true | _ => false end.

(** Every [shutdown] call of the log comes after a return of
    [waitUntilCoherenceSafe] that is later than the last [connect];
    [confirmed] tells whether such a return has been seen at the start of
    the log. *)
Fixpoint shutdown_guarded (confirmed : bool) (t : list event) : bool :=
  match t with
  | [] => true
  | e :: t' =>
      if is_connect e then shutdown_guarded false t'
      else if is_confirmation e then shutdown_guarded true t'
      else if is_shutdown e then confirmed && shutdown_guarded confirmed t'
      else shutdown_guarded confirmed t'
  end.

(** A failure of a connection attempt while the cluster is not known to be
    safe: [connect] raised, or [connect] succeeded and [domainRuntime]
    raised. *)
Inductive contention : Type :=
| ConnectFailed (msg : string)
| DomainRuntimeFailed (msg : string).

Definition connect_reply_of (f : contention) : reply unit :=
  match f with
  | ConnectFailed msg => Raises msg
  | DomainRuntimeFailed _ => Ok tt
  end.

Definition domainRuntime_replies_of (f : contention) : list (reply unit) :=
  match f with
  | ConnectFailed _ => []
  | DomainRuntimeFailed msg => [Raises msg]
  end.

(** The log of such an attempt. *)
Definition contention_log (cfg : Config) (connect_url : string) (f : contention)
  : list event :=
  match f with
  | ConnectFailed msg =>
      connecting cfg connect_url ++ [Raised msg] ++ failure_head msg ++ retry_tail
  | DomainRuntimeFailed msg =>
      connected cfg connect_url ++ wait_head ++ [Raised msg] ++
      failure_head msg ++ retry_tail
  end.

(** The state once the loop goes round again. *)
Definition retrying (crest drest : list (reply unit)) (s : State) : State :=
  set_stayInConnectLoop true (with_connects crest (with_domainRuntimes drest s)).

(** The events after the first return of [waitUntilCoherenceSafe]. *)
Fixpoint after_confirmation (t : list event) : list event :=
  match t with
  | [] => []
  | e :: t' => if is_confirmation e then t' else after_confirmation t'
  end.

(** The part of a log of the connect loop in which a failure is final:
    all of it when the domain has no Coherence cluster, what follows the
    confirmation of safety when it has one. *)
Definition graceful_part (cohExists : bool) (t : list event) : list event :=
  if cohExists then after_confirmation t else t.

(** The first exception of a log, and the events after it. *)
Fixpoint first_raise (t : list event) : option (string * list event) :=
  match t with
  | [] => None
  | Raised msg :: t' => Some (msg, t')
  | _ :: t' => first_raise t'
  end.

(** After the first exception of the graceful part, the script prints the
    exception and goes to the NodeManager at once, and does so once: the
    rest of the log has no [connect], no [shutdown] and no further
    [nmConnect], and the run ends with an exit status or is killed.
    Without an exception the NodeManager is not called. *)
Definition escalation (cfg : Config) (cohExists : bool) (t : list event)
    (o : outcome unit) : Prop :=
  match first_raise (graceful_part cohExists t) with
  | Some (msg, post) =>
      (exists rest,
         post = failure_head msg ++ nm_connecting cfg ++ rest /\
         existsb is_connect rest = false /\
         existsb is_shutdown rest = false /\
         existsb is_nm_connect rest = false) /\
      List.length (filter is_nm_connect t) = 1 /\
      (o = Exit 0%Z \/ o = Exit 2%Z \/ o = Killed)
  | None => existsb is_nm_call t = false
  end.

Definition escalates (cfg : Config) (cohExists : bool) (r : run unit) : Prop :=
  escalation cfg cohExists (log r) (out r).

(** The outcome of the loop on a path that is not retried. *)
Definition ending_outcome (e : ending) : outcome unit :=
  match e with
  | Retry | Stopped => Ret tt
  | Exited code => Exit code
  | Died => Killed
  end.

(* ===================================================================== *)
(** ** The main script, piece by piece *)
(* ===================================================================== *)

(** The events of the script before its connect loop: output and files. *)
Definition setup_event (e : event) : bool :=
  match e with
  | Print _ | PrintExc | ReadFile _ | Decode | WriteFile _ | Raised _ => true
  | _ => false
  end.

(** The connection target, and the force flag in use, as
    [select_target] leaves them. *)
Definition target_url (cfg : Config) (cohExists : bool) : string :=
  if cohExists then admin_endpoint cfg else local_endpoint cfg.

Definition force_in_use (cfg : Config) (cohExists : bool) : string :=
  if cohExists && String.eqb (admin_name cfg) (server_name cfg)
  then "true" else configured_force cfg.

Definition announcement (cohExists : bool) : string :=
  if cohExists then "Shutdown: Coherence cluster exists"
  else "Shutdown: Coherence cluster does not exist".

(** The end of the script after the connect loop: line 272, [exit()]. *)
Definition finish (pre : list event) (r : run unit) : run unit :=
  match r with
  | mkRun (Ret _) s l => mkRun (Exit 0%Z) s (pre ++ l)
  | mkRun (Raise msg) s l => mkRun (Raise msg) s (pre ++ l)
  | mkRun (Exit code) s l => mkRun (Exit code) s (pre ++ l)
  | mkRun Killed s l => mkRun Killed s (pre ++ l)
  end.

(** Some event satisfying [c] is directly followed by one satisfying
    [d]. *)
Fixpoint followed_by (c d : event -> bool) (t : list event) : bool :=
  match t with
  | [] => false
  | e :: t' =>
      (c e && match t' with
              | [] => false
              | e' :: _ => d e'
              end)
      || followed_by c d t'
  end.

(** [nmKill] was called and completed. *)
Definition node_manager_killed (t : list event) : bool :=
  followed_by is_nm_kill is_completed t.

(** [nmConnect] or [nmKill] was called and raised. *)
Definition node_manager_failed (t : list event) : bool :=
  followed_by is_nm_call is_raised t.

(** [shutdown] was called and completed. *)
Definition server_shut_down (t : list event) : bool :=
  followed_by is_shutdown is_completed t.

(** The three facts about a log that decide the exit status. *)
Definition verdicts (t : list event) : bool * bool * bool :=
  (node_manager_killed t, node_manager_failed t, server_shut_down t).

Definition verdicts_of (o : outcome unit) : bool * bool * bool :=
  match o with
  | Ret _ => (false, false, true)
  | Exit code => if (code =? 0)%Z then (true, false, false) else (false, true, false)
  | _ => (false, false, false)
  end.

(** An event agrees with a connection target and a force flag: a
    [connect] goes to the target, a [shutdown] carries the flag. *)
Definition aims_at (url force : string) (e : event) : Prop :=
  match e with
  | Connect u _ _ => u = url
  | Shutdown args => sd_force args = force
  | _ => True
  end.

(** The first JMX call of a log. *)
Fixpoint next_jmx_call (t : list event) : option event :=
  match t with
  | [] => None
  | QueryMBeans q :: _ => Some (QueryMBeans q)
  | GetAttribute n a :: _ => Some (GetAttribute n a)
  | _ :: t' => next_jmx_call t'
  end.

(** After every health query that raised, the next JMX call, if there is
    one, is an enumeration. *)
Fixpoint reenumerates_after_health_failure (t : list event) : bool :=
  match t with
  | [] => true
  | GetAttribute _ _ :: t' =>
      match t' with
      | Raised _ :: t'' =>
          match next_jmx_call t'' with
          | Some (GetAttribute _ _) => false
          | _ => true
          end
      | _ => true
      end && reenumerates_after_health_failure t'
  | _ :: t' => reenumerates_after_health_failure t'
  end.

(* ===================================================================== *)
(** ** Sample runs *)
(* ===================================================================== *)

Module Sample.

(** A managed server [managed-server1] of the domain [base_domain]. *)
Definition managed (var : string) : option string :=
  if String.eqb var "DOMAIN_UID" then Some "domain1"
  else if String.eqb var "ADMIN_NAME" then Some "admin-server"
  else if String.eqb var "SERVER_NAME" then Some "managed-server1"
  else if String.eqb var "DOMAIN_NAME" then Some "base_domain"
  else if String.eqb var "DOMAIN_HOME" then Some "/shared/domains/base_domain"
  else if String.eqb var "SERVICE_NAME" then Some "domain1-managed-server1"
  else if String.eqb var "SHUTDOWN_PORT_ARG" then Some "8001"
  else if String.eqb var "SHUTDOWN_PROTOCOL_ARG" then Some "t3"
  else if String.eqb var "SHUTDOWN_TIMEOUT_ARG" then Some "30"
  else if String.eqb var "SHUTDOWN_IGNORE_SESSIONS_ARG" then Some "false"
  else if String.eqb var "SHUTDOWN_WAIT_FOR_ALL_SESSIONS_ARG" then Some "false"
  else if String.eqb var "SHUTDOWN_TYPE_ARG" then Some "Graceful"
  else if String.eqb var "ADMIN_PORT" then Some "7001"
  else if String.eqb var "AS_SERVICE_NAME" then Some "domain1-admin-server"
  else None.

(** The admin server itself. *)
Definition admin (var : string) : option string :=
  if String.eqb var "SERVER_NAME" then Some "admin-server" else managed var.

(** The same managed server, its shutdown timeout missing. *)
Definition no_timeout (var : string) : option string :=
  if String.eqb var "SHUTDOWN_TIMEOUT_ARG" then None else managed var.

Definition with_cluster : string :=
  "<domain>
<name>base_domain</name>
<coherence-cluster-system-resource>
  <name>cluster-1</name>
  <target>cluster-1</target>
</coherence-cluster-system-resource>
</domain>".

Definition without_cluster : string :=
  "<domain>
<name>base_domain</name>
</domain>".

(** An empty resource declared before the one in use. *)
Definition empty_then_cluster : string :=
  "<domain>
<coherence-cluster-system-resource>
</coherence-cluster-system-resource>
<coherence-cluster-system-resource>
  <name>cluster-1</name>
</coherence-cluster-system-resource>
</domain>".

Definition file_system (config : option string) (path : string) : option string :=
  if String.eqb path "/shared/domains/base_domain/config/config.xml" then config
  else if String.eqb path "/weblogic-operator/introspector/userKeyNodeManager.secure"
       then Some "c2VjcmV0"
       else None.

(** A world: the environment, the content of config.xml, and the
    replies of [connect], [domainRuntime], [queryMBeans],
    [getAttribute], [shutdown], [nmConnect] and [nmKill]. *)
Definition a_world (env : string -> option string) (config : option string)
    (connects domainRuntimes : list (reply unit))
    (queries : list (reply (list ObjectInstance)))
    (attributes : list (reply (option string)))
    (shutdowns nmConnects nmKills : list (reply unit)) : World :=
  mkWorld env (file_system config) (fun _ => true) (fun _ => Some "secret")
    connects domainRuntimes queries attributes shutdowns nmConnects nmKills.

(** The state in which the script starts. *)
Definition start (w : World) : State := mkState w false false false false.

Definition cache : ObjectInstance :=
  mkObjectInstance "Coherence:type=PartitionAssignment,service=cache,responsibility=DistributionCoordinator".
Definition sessions : ObjectInstance :=
  mkObjectInstance "Coherence:type=PartitionAssignment,service=sessions,responsibility=DistributionCoordinator".

(** No cluster; the graceful stop succeeds at the first connection. *)
Definition graceful : State :=
  start (a_world managed (Some without_cluster) [Ok tt] [] [] [] [Ok tt] [] []).

(** No cluster; [connect] is refused and the NodeManager kills the
    server. *)
Definition killed_by_node_manager : State :=
  start (a_world managed (Some without_cluster)
           [Raises "connection refused"] [] [] [] [] [Ok tt] [Ok tt]).

(** No cluster; [connect] is refused and the NodeManager is not there. *)
Definition node_manager_down : State :=
  start (a_world managed (Some without_cluster)
           [Raises "connection refused"] [] [] [] [] [Raises "no NodeManager"] []).

(** A cluster: two enumerations start no pass, then the two services
    settle, the first after an ENDANGERED status and an exception. *)
Definition rolling_restart : State :=
  start (a_world managed (Some with_cluster) [Ok tt] [Ok tt]
           [Raises "bean not found"; Ok []; Ok [cache; sessions]]
           [Ok (Some "ENDANGERED"); Raises "timed out"; Ok (Some "NODE-SAFE");
            Ok None]
           [Ok tt] [] []).

(** A cluster, and the server being stopped is the admin server. *)
Definition admin_server : State :=
  start (a_world admin (Some with_cluster) [Ok tt] [Ok tt]
           [Ok [cache]] [Ok (Some "MACHINE-SAFE")] [Ok tt] [] []).

(** A cluster; a connection is refused, then [domainRuntime] fails, and
    the grace period ends. *)
Definition contended : State :=
  start (a_world managed (Some with_cluster)
           [Raises "connection refused"; Ok tt] [Raises "no domain runtime"]
           [] [] [] [] []).

(** A cluster; a health query raises, then reports a safe status. *)
Definition health_query_fails : State :=
  start (a_world managed (Some with_cluster) [] [Ok tt]
           [Ok [cache]] [Raises "timed out"; Ok (Some "NODE-SAFE")] [] [] []).

(** A cluster; the only service stays ENDANGERED. *)
Definition endangered : State :=
  start (a_world managed (Some with_cluster) [] [Ok tt]
           [Ok [cache]]
           [Ok (Some "ENDANGERED"); Ok (Some "ENDANGERED"); Ok (Some "ENDANGERED")]
           [] [] []).

(** The shutdown timeout is not set. *)
Definition timeout_unset : State :=
  start (a_world no_timeout (Some with_cluster) [Ok tt] [] [] [] [Ok tt] [] []).

(** No variable of the environment is set. *)
Definition nothing_set : State :=
start (a_world (fun _ => None) (Some with_cluster) [Ok tt] [] [] [] [Ok tt] [] []).

(** config.xml cannot be read. *)
Definition config_missing : State :=
  start (a_world managed None [Ok tt] [] [] [] [] [] []).

End Sample.

(** The configuration text as the detector scans it: without blanks. *)
Definition spaceless (configData : string) : string :=
  PyStr.join "" (PyStr.split configData).

(** The text holds the element with the inner content [content], between
    [before] and [after_]. *)
Definition holds_element (text before content after_ : string) : Prop :=
  text = before +++ Re.OPEN_TAG +++ content +++ Re.CLOSE_TAG +++ after_.

(** The element at [before] is the first of the text: no opening tag
    starts earlier, and its closing tag is the first one after its
    opening tag. *)
Definition first_element (text before content after_ : string) : Prop :=
  holds_element text before content after_ /\
  (forall a b, text = a +++ Re.OPEN_TAG +++ b ->
               String.length before <= String.length a) /\
  (forall a b, content +++ Re.CLOSE_TAG +++ after_ = a +++ Re.CLOSE_TAG +++ b ->
               String.length content <= String.length a).

(** The text without its blanks, character by character. *)
Fixpoint remove_blanks (s : string) : string :=
  match s with
  | EmptyString => EmptyString
  | String c s' =>
      if PyStr.is_space c then remove_blanks s' else String c (remove_blanks s')
  end.
(* ===================================================================== *)
(** ** Pace, counts and addressees of the calls in a log *)
(* ===================================================================== *)

(** A sleep of at least [n] seconds. *)
Definition rests (n : nat) (e : event) : bool :=
  match e with
  | Sleep m => n <=? m
  | _ => false
  end.

(** Between two events satisfying [c] the log has a sleep of at least [n]
    seconds; [rested] tells whether one has been seen since the last such
    event before the log. *)
Fixpoint paced (c : event -> bool) (n : nat) (rested : bool) (t : list event)
  : bool :=
  match t with
  | [] => true
  | e :: t' =>
      if c e then rested && paced c n false t'
      else paced c n (rested || rests n e) t'
  end.

(** Whether the log ends rested. *)
Fixpoint rested_after (c : event -> bool) (n : nat) (rested : bool)
    (t : list event) : bool :=
  match t with
  | [] => rested
  | e :: t' =>
      if c e then rested_after c n false t'
      else rested_after c n (rested || rests n e) t'
  end.

Definition is_health_query (e : event) : bool :=
  match e with GetAttribute _ _ => true | _ => false end.

Definition is_any_sleep (e : event) : bool :=
  match e with Sleep _ => true | _ => false end.

(** A call to the domain runtime or to its MBean server. *)
Definition is_jmx (e : event) : bool :=
  match e with
  | DomainRuntime | QueryMBeans _ | GetAttribute _ _ => true
  | _ => false
  end.

(** A call that leaves the process: WLST, JMX or the NodeManager. *)
Definition is_remote (e : event) : bool :=
  is_connect e || is_jmx e || is_shutdown e || is_nm_call e.

(** The notice that the Coherence MBeans are awaited. *)
Definition is_warning (e : event) : bool :=
  match e with
  | Print line =>
      String.eqb line "Shutdown: Waiting until Coherence MBeans available... "
  | _ => false
  end.

Definition count (c : event -> bool) (t : list event) : nat :=
  List.length (filter c t).

(** How an enumeration loop can stop after the enumerations that started
    no pass: out of time, killed in [queryMBeans], killed inside a pass, or
    at the end of a pass. *)
Inductive wait_tail (inner : nat) : list event -> Prop :=
| tail_out_of_time : wait_tail inner []
| tail_query_pending : wait_tail inner [QueryMBeans query]
| tail_pass_pending beans s :
    beans <> [] ->
    out (pass inner beans s) = Killed ->
    wait_tail inner (pass_head beans ++ log (pass inner beans s))
| tail_pass_done beans s :
    beans <> [] ->
    out (pass inner beans s) = Ret tt ->
    wait_tail inner
      (pass_head beans ++ log (pass inner beans s) ++
       [Print "Shutdown: It is safe to shutdown Coherence"]).

(** The call is made with the arguments the script takes from its
    configuration: the domain of [connect] and [nmConnect], the server of
    [nmKill], and every argument of [shutdown] but the force flag. *)
Definition addressed (cfg : Config) (e : event) : Prop :=
  match e with
  | Connect _ domainName domainDir =>
      domainName = domain_name cfg /\ domainDir = domain_path cfg
  | NmConnect domainName domainDir =>
      domainName = domain_name cfg /\ domainDir = domain_path cfg
  | NmKill server => server = server_name cfg
  | Shutdown args =>
      sd_name args = server_name cfg /\
      sd_entityType args = "Server" /\
      sd_ignoreSessions args = ignore_sessions cfg /\
      PyStr.int (timeout cfg) = Some (sd_timeOut args) /\
      sd_block args = "true" /\
      sd_waitForAllSessions args = wait_for_all_sessions cfg
  | _ => True
  end.

(** What the script prints, and what its calls come back with. *)
Definition reporting_event (e : event) : bool :=
  match e with
  | Print _ | PrintExc | Completed | Raised _ => true
  | _ => false
  end.

(** The paths of the user key, lines 207 and 212. *)
Definition user_key_path : string :=
  "/weblogic-operator/introspector/userKeyNodeManager.secure".
Definition binary_key_path : string := "/tmp/userKeyNodeManager.secure.bin".

(** The binary user key that lines 206-214 produce, when they can: the
    decoded content of the key file. *)
Definition binary_key (w : World) : option string :=
  match files w user_key_path with
  | None => None
  | Some contents =>
      match decodestring w contents with
      | None => None
      | Some decoded => if writable w binary_key_path then Some decoded else None
      end
  end.

(** The command [m] keeps the invariant [I] of the state, however it
    ends. *)
Definition keeps {A} (I : State -> Prop) (m : M A) : Prop :=
  forall s, I s -> I (after (m s)).

(** The part of the world that no remote call changes: the environment,
    the files, and the behaviour of the libraries. *)
Definition local_world (w : World) :=
  (environ w, files w, writable w, decodestring w).

(** The last character of a string. *)
Fixpoint last_char (s : string) : option ascii :=
  match s with
  | EmptyString => None
  | String c EmptyString => Some c
  | String _ s' => last_char s'
  end.

(* ===================================================================== *)
(** ** More sample runs *)
(* ===================================================================== *)

Module Scenario.

(** The managed server of [Sample], its shutdown timeout not a number. *)
Definition bad_timeout (var : string) : option string :=
  if String.eqb var "SHUTDOWN_TIMEOUT_ARG" then Some "soon" else Sample.managed var.

(** No cluster; the timeout is not a number, and the NodeManager kills
    the server. *)
Definition timeout_not_a_number : State :=
  Sample.start (Sample.a_world bad_timeout (Some Sample.without_cluster)
                  [Ok tt] [] [] [] [Ok tt] [Ok tt] [Ok tt]).

(** The user key of the introspector is not there. *)
Definition no_user_key : State :=
  Sample.start
    (mkWorld Sample.managed (fun _ => None) (fun _ => true) (fun _ => Some "secret")
       [Ok tt] [] [] [] [Ok tt] [] []).

(** The NodeManager answers [nmConnect] and refuses [nmKill]. *)
Definition kill_refused : State :=
  Sample.start (Sample.a_world Sample.managed None [] [] [] [] []
                  [Ok tt] [Raises "kill refused"]).

(** A configuration with a cluster, on one line, and the same
    configuration indented. *)
Definition cluster_on_one_line : string :=
  "<domain><coherence-cluster-system-resource><name>cluster-1</name></coherence-cluster-system-resource></domain>".

Definition cluster_indented : string :=
  "<domain>
  <coherence-cluster-system-resource>
    <name>cluster-1</name>
  </coherence-cluster-system-resource>
</domain>
".

End Scenario.


(* ===================================================================== *)
(** ** The environment *)
(* ===================================================================== *)

(** Unfolding of the monad's operations. *)
Ltac unfold_m :=
  unfold print, sleep, bind, try_except, get, modify, ret, emit,
    throw, exit_, killed, call, prepend in *.

Ltac run_m := unfold_m; cbn beta iota zeta delta [app out after log].

Lemma load_config_run (s : State) :
  load_config s =
  match first_unset (environ (world s)) with
  | Some var => mkRun (Exit 1%Z) s [Print (env_error var)]
  | None => mkRun (Ret (config_of (environ (world s)))) s []
  end.
Proof.
  unfold first_unset, config_of, load_config, getEnvVar, unset, required_vars.
  destruct s as [w stay safe dn ws]; unfold_m; cbn.
  repeat match goal with
         | |- context [environ w ?v] =>
             destruct (environ w v); cbn; [ | reflexivity ]
         end.
  reflexivity.
Qed.

Lemma first_unset_exists (env : string -> option string) (var : string) :
  In var required_vars -> env var = None ->
  exists first,
    first_unset env = Some first /\ In first required_vars /\ env first = None.
Proof.
  intros Hin Hnone. unfold first_unset.
  destruct (find (unset env) required_vars) as [first|] eqn:Hfind.
  - apply find_some in Hfind. destruct Hfind as [Hf Hu].
    exists first. repeat split; trivial.
    unfold unset in Hu. destruct (env first); [discriminate | reflexivity].
  - apply (find_none _ _ Hfind) in Hin.
    unfold unset in Hin. rewrite Hnone in Hin. discriminate.
Qed.

Lemma first_unset_only (env : string -> option string) (var first : string) :
  (forall u, In u required_vars -> u <> var -> env u <> None) ->
  first_unset env = Some first -> first = var.
Proof.
  intros Honly Hfind. apply find_some in Hfind. destruct Hfind as [Hf Hu].
  destruct (string_dec first var) as [|Hne]; trivial.
  exfalso. apply (Honly first Hf Hne).
  unfold unset in Hu. destruct (env first); [discriminate | reflexivity].
Qed.

Lemma main_unset (fuel : nat) (s : State) (first : string) :
  first_unset (environ (world s)) = Some first ->
  main fuel s =
  mkRun (Exit 1%Z) s [Print "Shutdown: main script"; Print (env_error first)].
Proof.
  intros Hfirst. unfold main.
  unfold bind at 1. unfold print at 1, emit. cbn.
  unfold bind at 1. rewrite load_config_run, Hfirst. reflexivity.
Qed.

(** C10, as the script has it.  When a variable the script requires is not
    set, the script prints the error line of [getEnvVar] for the first
    unset variable in the order of the reads (the variable itself when
    every other one is set) and exits with status 1.  Nothing else has
    happened by then: the two [print]s are the whole log, so no file was
    read, no key decoded and no connection attempted, and the state of the
    world is untouched. *)
Theorem unset_variable_exits_1 (fuel : nat) (s : State) (var : string) :
  In var required_vars ->
  environ (world s) var = None ->
  exists first,
    In first required_vars /\
    environ (world s) first = None /\
    first_unset (environ (world s)) = Some first /\
    ((forall u, In u required_vars -> u <> var -> environ (world s) u <> None) ->
     first = var) /\
    main fuel s =
    mkRun (Exit 1%Z) s [Print "Shutdown: main script"; Print (env_error first)].
Proof.
  intros Hin Hnone.
  destruct (first_unset_exists (environ (world s)) var Hin Hnone)
    as (first & Hfirst & Hreq & Hunset).
  exists first. repeat split; trivial.
  - intros Honly. eapply first_unset_only; eassumption.
  - apply main_unset; assumption.
Qed.

(* ===================================================================== *)
(** ** The poll of one service *)
(* ===================================================================== *)

Lemma prepend_nil {A} (r : run A) : prepend [] r = r.
Proof. destruct r; reflexivity. Qed.

Lemma prepend_prepend {A} (l1 l2 : list event) (r : run A) :
  prepend l1 (prepend l2 r) = prepend (l1 ++ l2) r.
Proof. destruct r; unfold prepend; rewrite app_assoc; reflexivity. Qed.

Lemma out_prepend {A} (l : list event) (r : run A) : out (prepend l r) = out r.
Proof. destruct r; reflexivity. Qed.

Lemma after_prepend {A} (l : list event) (r : run A) : after (prepend l r) = after r.
Proof. destruct r; reflexivity. Qed.

Lemma log_prepend {A} (l : list event) (r : run A) :
  log (prepend l r) = l ++ log r.
Proof. destruct r; reflexivity. Qed.

Lemma while_true_S (fuel : nat) (body : M ctl) (s : State) :
  while (S fuel) (ret true) body s = iterate (while fuel (ret true) body) (body s).
Proof.
  cbn [while]. unfold bind at 1. cbn. unfold bind.
  destruct (body s) as [[[]| | |] s' l]; cbn; rewrite ?app_nil_r;
    try reflexivity.
  destruct (while fuel (ret true) body s'); reflexivity.
Qed.

Lemma serviceSafe_body_killed (objectName : string) (s : State) :
  getAttribute_replies (world s) = [] ->
  serviceSafe_body objectName s =
  mkRun Killed s [GetAttribute objectName "HAStatus"].
Proof.
  intros H. unfold serviceSafe_body, getAttribute. unfold_m. rewrite H.
  reflexivity.
Qed.

Lemma serviceSafe_body_run (objectName : string) (s : State)
    (r : reply (option string)) (rest : list (reply (option string))) :
  getAttribute_replies (world s) = r :: rest ->
  serviceSafe_body objectName s =
  mkRun (Ret (if keeps_waiting r then Next else Break))
    (with_attributes rest s) (poll_log objectName r).
Proof.
  intros H. unfold serviceSafe_body, getAttribute. unfold_m. rewrite H.
  unfold poll_log, keeps_waiting.
  destruct r as [[status|]|msg]; try reflexivity.
  destruct (String.eqb status "ENDANGERED"); reflexivity.
Qed.

Lemma poll_0 (objectName : string) (s : State) :
  poll 0 objectName s = mkRun Killed s [].
Proof. reflexivity. Qed.

Lemma poll_killed (fuel : nat) (objectName : string) (s : State) :
  getAttribute_replies (world s) = [] ->
  poll (S fuel) objectName s = mkRun Killed s [GetAttribute objectName "HAStatus"].
Proof.
  intros H. unfold poll. rewrite while_true_S, serviceSafe_body_killed by trivial.
  reflexivity.
Qed.

Lemma poll_again (fuel : nat) (objectName : string) (s : State)
    (r : reply (option string)) (rest : list (reply (option string))) :
  getAttribute_replies (world s) = r :: rest ->
  keeps_waiting r = true ->
  poll (S fuel) objectName s =
  prepend (poll_log objectName r) (poll fuel objectName (with_attributes rest s)).
Proof.
  intros H Hr. unfold poll.
  rewrite while_true_S, (serviceSafe_body_run _ _ _ _ H), Hr. reflexivity.
Qed.

Lemma poll_released (fuel : nat) (objectName : string) (s : State)
    (status : option string) (rest : list (reply (option string))) :
  getAttribute_replies (world s) = Ok status :: rest ->
  safe_status status = true ->
  poll (S fuel) objectName s =
  mkRun (Ret tt) (with_attributes rest s) (poll_log objectName (Ok status)).
Proof.
  intros H Hr. unfold poll. unfold safe_status in Hr.
  apply negb_true_iff in Hr.
  rewrite while_true_S, (serviceSafe_body_run _ _ _ _ H), Hr. reflexivity.
Qed.

Lemma with_attributes_twice (a b : list (reply (option string))) (s : State) :
  with_attributes a (with_attributes b s) = with_attributes a s.
Proof. reflexivity. Qed.

Lemma with_attributes_same (s : State) :
  with_attributes (getAttribute_replies (world s)) s = s.
Proof. destruct s as [[] ? ? ? ?]; reflexivity. Qed.

(** The poll of a service whose replies end in a safe status returns once
    that status is read. *)
Lemma poll_settles (objectName : string) (final : option string)
    (rest : list (reply (option string))) :
  safe_status final = true ->
  forall (waits : list (reply (option string))) (fuel : nat) (s : State),
    getAttribute_replies (world s) = waits ++ Ok final :: rest ->
    forallb keeps_waiting waits = true ->
    List.length waits < fuel ->
    poll fuel objectName s =
    mkRun (Ret tt) (with_attributes rest s)
      (flat_map (poll_log objectName) (waits ++ [Ok final])).
Proof.
  intros Hfinal. induction waits as [|r waits IH]; intros fuel s H Hw Hfuel;
    destruct fuel as [|fuel]; try (cbn in Hfuel; lia).
  - cbn [app flat_map]. rewrite app_nil_r.
    apply poll_released; assumption.
  - cbn in Hw. apply andb_true_iff in Hw. destruct Hw as [Hr Hw].
    cbn [app] in H. rewrite (poll_again _ _ _ _ _ H Hr).
    rewrite (IH fuel (with_attributes (waits ++ Ok final :: rest) s) eq_refl Hw);
      [ reflexivity | cbn in Hfuel; lia ].
Qed.

(** As long as the replies keep the script waiting, the poll goes on. *)
Lemma poll_waits (objectName : string) :
  forall (waits : list (reply (option string))) (fuel : nat) (s : State),
    getAttribute_replies (world s) = waits ->
    forallb keeps_waiting waits = true ->
    out (poll fuel objectName s) = Killed /\
    (List.length waits < fuel ->
     poll fuel objectName s =
     mkRun Killed (with_attributes [] s)
       (flat_map (poll_log objectName) waits ++ [GetAttribute objectName "HAStatus"])).
Proof.
  induction waits as [|r waits IH]; intros fuel s H Hw;
    (destruct fuel as [|fuel]; [ split; [reflexivity | cbn; lia] | ]).
  - rewrite (poll_killed _ _ _ H). split; [reflexivity|]. intros _.
    assert (Hs : with_attributes [] s = s)
      by (rewrite <- H; apply with_attributes_same).
    rewrite Hs. reflexivity.
  - cbn in Hw. apply andb_true_iff in Hw. destruct Hw as [Hr Hw].
    rewrite (poll_again _ _ _ _ _ H Hr), out_prepend.
    destruct (IH fuel (with_attributes waits s) eq_refl Hw) as [Hout Hrun].
    split; trivial. intros Hfuel.
    rewrite Hrun by (cbn in Hfuel; lia).
    unfold prepend. cbn [flat_map]. rewrite <- app_assoc. reflexivity.
Qed.

(** A poll that returns has read replies that kept it waiting, then a safe
    status, and nothing more. *)
Lemma poll_returns (objectName : string) :
  forall (fuel : nat) (s : State),
    out (poll fuel objectName s) = Ret tt ->
    exists waits final rest,
      getAttribute_replies (world s) = waits ++ Ok final :: rest /\
      forallb keeps_waiting waits = true /\
      safe_status final = true /\
      List.length waits < fuel.
Proof.
  induction fuel as [|fuel IH]; intros s Hout; [discriminate|].
  destruct (getAttribute_replies (world s)) as [|r rest] eqn:H.
  - rewrite (poll_killed _ _ _ H) in Hout. discriminate.
  - destruct (keeps_waiting r) eqn:Hr.
    + rewrite (poll_again _ _ _ _ _ H Hr), out_prepend in Hout.
      destruct (IH _ Hout) as (waits & final & rest' & Hrest & Hw & Hf & Hlen).
      exists (r :: waits), final, rest'. cbn in Hrest. subst rest.
      repeat split; trivial.
      * cbn. rewrite Hr, Hw. reflexivity.
      * cbn. lia.
    + destruct r as [status|msg]; [|discriminate].
      exists [], status, rest. repeat split; trivial.
      * unfold safe_status. rewrite Hr. reflexivity.
      * cbn. lia.
Qed.

(** Whatever happens, a poll ends by returning or by being killed. *)
Lemma poll_outcome (objectName : string) :
  forall (fuel : nat) (s : State),
    out (poll fuel objectName s) = Ret tt \/ out (poll fuel objectName s) = Killed.
Proof.
  induction fuel as [|fuel IH]; intros s; [right; reflexivity|].
  destruct (getAttribute_replies (world s)) as [|r rest] eqn:H.
  - rewrite (poll_killed _ _ _ H). right; reflexivity.
  - destruct (keeps_waiting r) eqn:Hr.
    + rewrite (poll_again _ _ _ _ _ H Hr), out_prepend. apply IH.
    + destruct r as [status|msg]; [|discriminate].
      rewrite (poll_released _ _ _ _ _ H); [left; reflexivity|].
      unfold safe_status. rewrite Hr. reflexivity.
Qed.

(* ===================================================================== *)
(** ** One pass over the enumerated services *)
(* ===================================================================== *)

Lemma waitUntilServiceSafeToShutdown_run (fuel : nat) (objectName : string)
    (s : State) :
  waitUntilServiceSafeToShutdown fuel objectName s =
  prepend [Print ("Shutdown: checking Coherence service " +++ objectName)]
    (poll fuel objectName s).
Proof.
  unfold waitUntilServiceSafeToShutdown. fold (poll fuel objectName).
  unfold bind at 1. reflexivity.
Qed.

Lemma pass_nil (inner : nat) (s : State) :
  pass inner [] s = mkRun (Ret tt) s [].
Proof. reflexivity. Qed.

Lemma pass_cons (inner : nat) (b : ObjectInstance) (beans : list ObjectInstance)
    (s : State) :
  pass inner (b :: beans) s =
  match poll inner (getObjectName b) s with
  | mkRun (Ret _) s' l =>
      prepend (service_log (getObjectName b) [] ++ l) (pass inner beans s')
  | mkRun (Raise msg) s' l =>
      mkRun (Raise msg) s' (service_log (getObjectName b) [] ++ l)
  | mkRun (Exit code) s' l =>
      mkRun (Exit code) s' (service_log (getObjectName b) [] ++ l)
  | mkRun Killed s' l =>
      mkRun Killed s' (service_log (getObjectName b) [] ++ l)
  end.
Proof.
  unfold pass at 1. cbn [for_each]. unfold bind at 1.
  rewrite waitUntilServiceSafeToShutdown_run. fold (pass inner beans).
  destruct (poll inner (getObjectName b) s) as [[[]| | |] s' l]; reflexivity.
Qed.

(** A pass in which every service settles returns at the last safe
    status. *)
Lemma pass_settles (inner : nat) (rest : list (reply (option string))) :
  forall (beans : list ObjectInstance) (obs : list observation) (s : State),
    List.length obs = List.length beans ->
    forallb settled obs = true ->
    (forall o, In o obs -> List.length (fst o) < inner) ->
    getAttribute_replies (world s) = flat_map replies_of obs ++ rest ->
    pass inner beans s =
    mkRun (Ret tt) (with_attributes rest s) (pass_log beans obs).
Proof.
  induction beans as [|b beans IH]; intros [|o obs] s Hlen Hset Hfuel H;
    try discriminate.
  - cbn in H. rewrite pass_nil, <- H, with_attributes_same. reflexivity.
  - cbn in Hset. apply andb_true_iff in Hset. destruct Hset as [Ho Hset].
    unfold settled in Ho. apply andb_true_iff in Ho. destruct Ho as [Hw Hf].
    destruct o as [waits final]. cbn [fst snd] in *.
    cbn [flat_map] in H. unfold replies_of in H at 1. cbn [fst snd] in H.
    rewrite <- !app_assoc in H. cbn [app] in H.
    rewrite pass_cons.
    rewrite (poll_settles _ _ _ Hf _ _ _ H Hw) by (apply (Hfuel (waits, final)); left; reflexivity).
    rewrite (IH obs (with_attributes (flat_map replies_of obs ++ rest) s));
      trivial.
    + cbn in Hlen. lia.
    + intros o Hin. apply Hfuel. right. assumption.
Qed.

(** The replies one service consumes are determined by the replies
    themselves. *)
Lemma observation_unique (ws ws' : list (reply (option string)))
    (final final' : option string) (rest rest' : list (reply (option string))) :
  ws ++ Ok final :: rest = ws' ++ Ok final' :: rest' ->
  forallb keeps_waiting ws = true ->
  forallb keeps_waiting ws' = true ->
  safe_status final = true ->
  safe_status final' = true ->
  ws = ws' /\ final = final' /\ rest = rest'.
Proof.
  unfold safe_status.
  revert ws'. induction ws as [|r ws IH]; intros [|r' ws'] H Hw Hw' Hf Hf';
    cbn [app] in H.
  - injection H as H1 H2. subst. auto.
  - injection H as H1 H2. subst r'. cbn [forallb] in Hw'.
    apply andb_true_iff in Hw'. rewrite (proj1 Hw') in Hf. discriminate.
  - injection H as H1 H2. subst r. cbn [forallb] in Hw.
    apply andb_true_iff in Hw. rewrite (proj1 Hw) in Hf'. discriminate.
  - injection H as H1 H2. subst r'. cbn [forallb] in Hw, Hw'.
    apply andb_true_iff in Hw, Hw'.
    destruct (IH ws' H2 (proj2 Hw) (proj2 Hw') Hf Hf') as (E1 & E2 & E3).
    subst. auto.
Qed.

(** A pass in which a service's replies keep the script waiting does not
    end. *)
Lemma pass_waits (inner : nat) (waits : list (reply (option string))) :
  forallb keeps_waiting waits = true ->
  forall (beans : list ObjectInstance) (obs : list observation) (s : State),
    List.length obs < List.length beans ->
    forallb settled obs = true ->
    getAttribute_replies (world s) = flat_map replies_of obs ++ waits ->
    out (pass inner beans s) = Killed.
Proof.
  intros Hwaits.
  induction beans as [|b beans IH]; intros obs s Hlen Hset H;
    [cbn in Hlen; lia|].
  rewrite pass_cons. destruct obs as [|[ws final] obs].
  - cbn in H.
    destruct (poll_waits (getObjectName b) waits inner s H Hwaits) as [Hout _].
    destruct (poll inner (getObjectName b) s) as [[[]| | |] s' l];
      cbn in Hout; try discriminate. reflexivity.
  - cbn in Hset. apply andb_true_iff in Hset. destruct Hset as [Ho Hset].
    unfold settled in Ho. apply andb_true_iff in Ho. destruct Ho as [Hw Hf].
    cbn [fst snd] in *.
    cbn [flat_map] in H. unfold replies_of in H at 1. cbn [fst snd] in H.
    rewrite <- !app_assoc in H. cbn [app] in H.
    destruct (Nat.lt_ge_cases (List.length ws) inner) as [Hfuel|Hfuel].
    + rewrite (poll_settles _ _ _ Hf _ _ _ H Hw Hfuel).
      rewrite out_prepend. apply (IH obs); trivial. cbn in Hlen. lia.
    + destruct (poll_outcome (getObjectName b) inner s) as [Hout|Hout].
      * destruct (poll_returns _ _ _ Hout)
          as (ws' & final' & rest' & H' & Hw' & Hf' & Hlen').
        exfalso. rewrite H in H'.
        destruct (observation_unique _ _ _ _ _ _ H' Hw Hw' Hf Hf') as [Hws _].
        subst ws'. lia.
      * destruct (poll inner (getObjectName b) s) as [[[]| | |] s' l];
          cbn in Hout; try discriminate. reflexivity.
Qed.

(** A pass that returns has settled every service. *)
Lemma pass_returns (inner : nat) :
  forall (beans : list ObjectInstance) (s : State),
    out (pass inner beans s) = Ret tt ->
    exists obs rest,
      List.length obs = List.length beans /\
      forallb settled obs = true /\
      (forall o, In o obs -> List.length (fst o) < inner) /\
      getAttribute_replies (world s) = flat_map replies_of obs ++ rest.
Proof.
  induction beans as [|b beans IH]; intros s Hout.
  - exists [], (getAttribute_replies (world s)). repeat split; trivial.
    intros o [].
  - rewrite pass_cons in Hout.
    destruct (poll_outcome (getObjectName b) inner s) as [Hp|Hp].
    + destruct (poll_returns _ _ _ Hp)
        as (waits & final & rest & H & Hw & Hf & Hlen).
      rewrite (poll_settles _ _ _ Hf _ _ _ H Hw Hlen), out_prepend in Hout.
      destruct (IH _ Hout) as (obs & rest' & Hlen' & Hset & Hfuel & H').
      exists ((waits, final) :: obs), rest'. repeat split.
      * cbn. lia.
      * cbn [forallb]. unfold settled at 1. cbn [fst snd].
        rewrite Hw, Hf, Hset. reflexivity.
      * intros o [<-|Hin]; [assumption | apply Hfuel; assumption].
      * cbn [flat_map]. unfold replies_of at 1. cbn [fst snd].
        rewrite <- !app_assoc. cbn [app]. rewrite H. cbn in H'. rewrite H'.
        reflexivity.
    + destruct (poll inner (getObjectName b) s) as [[[]| | |] s' l];
        cbn in Hp; discriminate.
Qed.

Lemma poll_log_polling (objectName : string) (r : reply (option string)) :
  forallb polling_event (poll_log objectName r) = true.
Proof.
  destruct r as [[status|]|msg]; try reflexivity.
  cbn. destruct (String.eqb status "ENDANGERED"); reflexivity.
Qed.

Lemma same_flags_refl (s : State) : same_flags s s.
Proof. split; reflexivity. Qed.

Lemma same_flags_trans (s1 s2 s3 : State) :
  same_flags s1 s2 -> same_flags s2 s3 -> same_flags s1 s3.
Proof. unfold same_flags. intuition congruence. Qed.

(** The poll of a service touches neither the loop variables of the main
    script nor anything but JMX. *)
Lemma poll_quiet (objectName : string) :
  forall (fuel : nat) (s : State),
    same_flags s (after (poll fuel objectName s)) /\
    forallb polling_event (log (poll fuel objectName s)) = true.
Proof.
  induction fuel as [|fuel IH]; intros s.
  - split; [apply same_flags_refl | reflexivity].
  - destruct (getAttribute_replies (world s)) as [|r rest] eqn:H.
    + rewrite (poll_killed _ _ _ H). split; [apply same_flags_refl | reflexivity].
    + destruct (keeps_waiting r) eqn:Hr.
      * rewrite (poll_again _ _ _ _ _ H Hr), after_prepend, log_prepend.
        destruct (IH (with_attributes rest s)) as [Hf Hl]. split.
        -- exact Hf.
        -- rewrite forallb_app, poll_log_polling, Hl. reflexivity.
      * destruct r as [status|msg]; [|discriminate].
        rewrite (poll_released _ _ _ _ _ H)
          by (unfold safe_status; rewrite Hr; reflexivity).
        split; [split; reflexivity | apply poll_log_polling].
Qed.

Lemma pass_quiet (inner : nat) :
  forall (beans : list ObjectInstance) (s : State),
    same_flags s (after (pass inner beans s)) /\
    forallb polling_event (log (pass inner beans s)) = true /\
    (out (pass inner beans s) = Ret tt \/ out (pass inner beans s) = Killed).
Proof.
  induction beans as [|b beans IH]; intros s.
  - rewrite pass_nil.
    split; [ apply same_flags_refl | split; [ reflexivity | left; reflexivity ] ].
  - rewrite pass_cons.
    destruct (poll_quiet (getObjectName b) inner s) as [Hf Hl].
    destruct (poll_outcome (getObjectName b) inner s) as [Ho|Ho];
      destruct (poll inner (getObjectName b) s) as [[[]| | |] s' l];
      cbn in Ho; try discriminate; cbn [after log] in Hf, Hl.
    + destruct (IH s') as (Hf' & Hl' & Ho').
      rewrite after_prepend, log_prepend, out_prepend.
      split; [ apply (same_flags_trans _ _ _ Hf Hf') | split; [ | exact Ho' ] ].
      rewrite forallb_app. cbn [service_log flat_map app forallb polling_event].
      rewrite Hl, Hl'. reflexivity.
    + split; [ exact Hf | split; [ exact Hl | right; reflexivity ] ].
Qed.

(* ===================================================================== *)
(** ** The enumeration loop *)
(* ===================================================================== *)

Lemma enumerate_done (fuel inner : nat) (s : State) :
  done s = true -> enumerate fuel inner s = mkRun (Ret tt) s [].
Proof.
  intros H. unfold enumerate. destruct fuel; cbn [while]; run_m;
    rewrite H; reflexivity.
Qed.

Lemma enumerate_0 (inner : nat) (s : State) :
  done s = false -> enumerate 0 inner s = mkRun Killed s [].
Proof. intros H. unfold enumerate. cbn [while]. run_m. rewrite H. reflexivity. Qed.

Lemma enumerate_S (fuel inner : nat) (s : State) :
  done s = false ->
  enumerate (S fuel) inner s =
  iterate (enumerate fuel inner) (coherenceSafe_body inner s).
Proof.
  intros H. unfold enumerate. cbn [while]. unfold bind at 1. unfold bind at 1.
  unfold get, ret. cbn. rewrite H. cbn. unfold bind.
  destruct (coherenceSafe_body inner s) as [[[]| | |] s' l]; cbn;
    rewrite ?app_nil_r; try reflexivity.
  destruct (while fuel _ _ s'); reflexivity.
Qed.

Lemma coherenceSafe_body_killed (inner : nat) (s : State) :
  queryMBeans_replies (world s) = [] ->
  coherenceSafe_body inner s = mkRun Killed s [QueryMBeans query].
Proof.
  intros H. unfold coherenceSafe_body, queryMBeans. unfold_m. rewrite H.
  reflexivity.
Qed.

Lemma coherenceSafe_body_unavailable (inner : nat) (s : State)
    (r : reply (list ObjectInstance)) (rest : list (reply (list ObjectInstance))) :
  queryMBeans_replies (world s) = r :: rest ->
  unavailable r = true ->
  coherenceSafe_body inner s =
  mkRun (Ret Next) (after_unavailable r rest s) (unavailable_log r (warnSleep s)).
Proof.
  intros H Hr. unfold coherenceSafe_body, queryMBeans. unfold_m. rewrite H.
  destruct r as [[|b beans]|msg]; try discriminate; [|reflexivity].
  cbn. destruct s as [w stay safe dn [|]]; reflexivity.
Qed.

Lemma coherenceSafe_body_pass (inner : nat) (s : State)
    (beans : list ObjectInstance) (rest : list (reply (list ObjectInstance))) :
  queryMBeans_replies (world s) = Ok beans :: rest ->
  unavailable (Ok beans) = false ->
  coherenceSafe_body inner s =
  match pass inner beans (with_queries rest s) with
  | mkRun (Ret _) s' l =>
      mkRun (Ret Next) (set_done true s')
        (pass_head beans ++ l ++ [Print "Shutdown: It is safe to shutdown Coherence"])
  | mkRun (Raise msg) s' l =>
      mkRun (Ret Next) s'
        (pass_head beans ++ l ++
         [ Print "Shutdown: Exception checking a service Coherence HAStatus, retrying...";
           PrintExc; DumpStack; Sleep 10 ])
  | mkRun (Exit code) s' l => mkRun (Exit code) s' (pass_head beans ++ l)
  | mkRun Killed s' l => mkRun Killed s' (pass_head beans ++ l)
  end.
Proof.
  intros H Hr. unfold coherenceSafe_body, queryMBeans.
  unfold try_except, bind at 1, call. rewrite H.
  destruct beans as [|b beans]; [discriminate|].
  cbn [List.length Nat.eqb]. fold (pass inner (b :: beans)).
  unfold bind at 1. unfold print at 1, emit. cbn beta iota.
  unfold bind at 1. unfold with_queries.
  destruct (pass inner (b :: beans) _) as [[[]| | |] s' l]; reflexivity.
Qed.

Lemma after_unavailable_facts (r : reply (list ObjectInstance))
    (rest : list (reply (list ObjectInstance))) (s : State) :
  unavailable r = true ->
  queryMBeans_replies (world (after_unavailable r rest s)) = rest /\
  getAttribute_replies (world (after_unavailable r rest s)) =
    getAttribute_replies (world s) /\
  done (after_unavailable r rest s) = done s /\
  warnSleep (after_unavailable r rest s) =
    match r with Ok _ => false | Raises _ => warnSleep s end /\
  same_flags s (after_unavailable r rest s).
Proof.
  intros Hr. destruct r as [[|b beans]|msg]; try discriminate;
    repeat split; reflexivity.
Qed.

(** The loop returns at the end of the first pass it starts, when every
    service of that pass settles. *)
Lemma enumerate_settles (inner : nat) (beans : list ObjectInstance)
    (qrest : list (reply (list ObjectInstance))) (obs : list observation)
    (arest : list (reply (option string))) :
  unavailable (Ok beans) = false ->
  List.length obs = List.length beans ->
  forallb settled obs = true ->
  (forall o, In o obs -> List.length (fst o) < inner) ->
  forall (fails : list (reply (list ObjectInstance))) (fuel : nat) (s : State),
    done s = false ->
    queryMBeans_replies (world s) = fails ++ Ok beans :: qrest ->
    forallb unavailable fails = true ->
    getAttribute_replies (world s) = flat_map replies_of obs ++ arest ->
    List.length fails < fuel ->
    let r := enumerate fuel inner s in
    out r = Ret tt /\
    queryMBeans_replies (world (after r)) = qrest /\
    getAttribute_replies (world (after r)) = arest /\
    done (after r) = true /\
    log r = unavailable_logs fails (warnSleep s) ++ pass_head beans ++
            pass_log beans obs ++
            [Print "Shutdown: It is safe to shutdown Coherence"].
Proof.
  intros Hbeans Hlen Hset Hinner.
  induction fails as [|f fails IH]; intros fuel s Hdone Hq Hfails Ha Hfuel r;
    subst r; (destruct fuel as [|fuel]; [cbn in Hfuel; lia|]);
    rewrite (enumerate_S _ _ _ Hdone).
  - cbn [app] in Hq. rewrite (coherenceSafe_body_pass _ _ _ _ Hq Hbeans).
    rewrite (pass_settles inner arest beans obs (with_queries qrest s));
      trivial.
    cbn [iterate]. rewrite enumerate_done by reflexivity.
    cbn [prepend out after log]. rewrite app_nil_r.
    repeat split; reflexivity.
  - cbn [app] in Hq. cbn [forallb] in Hfails.
    apply andb_true_iff in Hfails. destruct Hfails as [Hf Hfails].
    rewrite (coherenceSafe_body_unavailable _ _ _ _ Hq Hf). cbn [iterate].
    destruct (after_unavailable_facts f (fails ++ Ok beans :: qrest) s Hf)
      as (Hq' & Ha' & Hd' & Hw' & _).
    rewrite out_prepend, after_prepend, log_prepend.
    destruct (IH fuel (after_unavailable f (fails ++ Ok beans :: qrest) s))
      as (Ho & Hqr & Har & Hdn & Hlog); trivial; try congruence.
    + cbn in Hfuel. lia.
    + repeat split; trivial.
      rewrite Hlog, Hw'. cbn [unavailable_logs]. rewrite <- app_assoc.
      reflexivity.
Qed.

(** While a service of the pass keeps the script waiting, or while no
    enumeration starts a pass, the loop does not end. *)
Lemma enumerate_waits (inner : nat) (beans : list ObjectInstance)
    (obs : list observation) (waits : list (reply (option string))) :
  unavailable (Ok beans) = false ->
  List.length obs < List.length beans ->
  forallb settled obs = true ->
  forallb keeps_waiting waits = true ->
  forall (fails : list (reply (list ObjectInstance)))
         (qrest : list (reply (list ObjectInstance))) (fuel : nat) (s : State),
    done s = false ->
    queryMBeans_replies (world s) = fails ++ Ok beans :: qrest ->
    forallb unavailable fails = true ->
    getAttribute_replies (world s) = flat_map replies_of obs ++ waits ->
    out (enumerate fuel inner s) = Killed.
Proof.
  intros Hbeans Hlen Hset Hwaits.
  induction fails as [|f fails IH]; intros qrest fuel s Hdone Hq Hfails Ha;
    (destruct fuel as [|fuel]; [rewrite enumerate_0; trivial|]);
    rewrite (enumerate_S _ _ _ Hdone).
  - cbn [app] in Hq. rewrite (coherenceSafe_body_pass _ _ _ _ Hq Hbeans).
    pose proof (pass_waits inner waits Hwaits beans obs (with_queries qrest s)
                  Hlen Hset Ha) as Hp.
    destruct (pass inner beans (with_queries qrest s)) as [[[]| | |] s' l];
      cbn in Hp; try discriminate. reflexivity.
  - cbn [app] in Hq. cbn [forallb] in Hfails.
    apply andb_true_iff in Hfails. destruct Hfails as [Hf Hfails].
    rewrite (coherenceSafe_body_unavailable _ _ _ _ Hq Hf). cbn [iterate].
    destruct (after_unavailable_facts f (fails ++ Ok beans :: qrest) s Hf)
      as (Hq' & Ha' & Hd' & _).
    rewrite out_prepend. apply (IH qrest); trivial; congruence.
Qed.

Lemma enumerate_unavailable (inner : nat) :
  forall (fails : list (reply (list ObjectInstance))) (fuel : nat) (s : State),
    done s = false ->
    queryMBeans_replies (world s) = fails ->
    forallb unavailable fails = true ->
    out (enumerate fuel inner s) = Killed.
Proof.
  induction fails as [|f fails IH]; intros fuel s Hdone Hq Hfails;
    (destruct fuel as [|fuel]; [rewrite enumerate_0; trivial|]);
    rewrite (enumerate_S _ _ _ Hdone).
  - rewrite (coherenceSafe_body_killed _ _ Hq). reflexivity.
  - cbn [forallb] in Hfails.
    apply andb_true_iff in Hfails. destruct Hfails as [Hf Hfails].
    rewrite (coherenceSafe_body_unavailable _ _ _ _ Hq Hf). cbn [iterate].
    destruct (after_unavailable_facts f fails s Hf) as (Hq' & Ha' & Hd' & _).
    rewrite out_prepend. apply IH; trivial; congruence.
Qed.

(** A loop that returns has started exactly one pass, the first one the
    enumerations allowed, and every service of that pass has settled. *)
Lemma enumerate_returns (inner : nat) :
  forall (fuel : nat) (s : State),
    done s = false ->
    out (enumerate fuel inner s) = Ret tt ->
    exists fails beans qrest obs arest,
      queryMBeans_replies (world s) = fails ++ Ok beans :: qrest /\
      forallb unavailable fails = true /\
      unavailable (Ok beans) = false /\
      getAttribute_replies (world s) = flat_map replies_of obs ++ arest /\
      List.length obs = List.length beans /\
      forallb settled obs = true /\
      (forall o, In o obs -> List.length (fst o) < inner) /\
      List.length fails < fuel.
Proof.
  induction fuel as [|fuel IH]; intros s Hdone Hout.
  - rewrite enumerate_0 in Hout by trivial. discriminate.
  - rewrite (enumerate_S _ _ _ Hdone) in Hout.
    destruct (queryMBeans_replies (world s)) as [|r rest] eqn:Hq.
    + rewrite (coherenceSafe_body_killed _ _ Hq) in Hout. discriminate.
    + destruct (unavailable r) eqn:Hr.
      * rewrite (coherenceSafe_body_unavailable _ _ _ _ Hq Hr) in Hout.
        cbn [iterate] in Hout. rewrite out_prepend in Hout.
        destruct (after_unavailable_facts r rest s Hr) as (Hq' & Ha' & Hd' & _).
        destruct (IH (after_unavailable r rest s))
          as (fails & beans & qrest & obs & arest & H1 & H2 & H3 & H4 & H5 & H6 & H7 & H8);
          trivial; try congruence.
        exists (r :: fails), beans, qrest, obs, arest.
        repeat split; trivial; try congruence.
        -- cbn [app]. congruence.
        -- cbn [forallb]. rewrite Hr, H2. reflexivity.
        -- cbn. lia.
      * destruct r as [beans|msg]; [|discriminate].
        rewrite (coherenceSafe_body_pass _ _ _ _ Hq Hr) in Hout.
        destruct (pass_quiet inner beans (with_queries rest s)) as (_ & _ & Ho).
        destruct (pass inner beans (with_queries rest s)) as [o s' l] eqn:Hp.
        cbn [out] in Ho. destruct Ho as [-> | ->]; [|discriminate].
        assert (Hpo : out (pass inner beans (with_queries rest s)) = Ret tt)
          by (rewrite Hp; reflexivity).
        destruct (pass_returns _ _ _ Hpo) as (obs & arest & H5 & H6 & H7 & H4).
        exists [], beans, rest, obs, arest.
        repeat split; trivial. cbn. lia.
Qed.

Lemma unavailable_log_polling (r : reply (list ObjectInstance)) (warn : bool) :
  forallb polling_event (unavailable_log r warn) = true.
Proof. destruct r, warn; reflexivity. Qed.

Lemma enumerate_quiet (inner : nat) :
  forall (fuel : nat) (s : State),
    same_flags s (after (enumerate fuel inner s)) /\
    forallb polling_event (log (enumerate fuel inner s)) = true /\
    (out (enumerate fuel inner s) = Ret tt \/
     out (enumerate fuel inner s) = Killed).
Proof.
  induction fuel as [|fuel IH]; intros s;
    (destruct (done s) eqn:Hdone;
     [ rewrite enumerate_done by trivial;
       split; [apply same_flags_refl | split; [reflexivity | left; reflexivity]]
     | ]).
  - rewrite enumerate_0 by trivial.
    split; [apply same_flags_refl | split; [reflexivity | right; reflexivity]].
  - rewrite (enumerate_S _ _ _ Hdone).
    destruct (queryMBeans_replies (world s)) as [|r rest] eqn:Hq.
    + rewrite (coherenceSafe_body_killed _ _ Hq).
      split; [apply same_flags_refl | split; [reflexivity | right; reflexivity]].
    + destruct (unavailable r) eqn:Hr.
      * rewrite (coherenceSafe_body_unavailable _ _ _ _ Hq Hr). cbn [iterate].
        destruct (after_unavailable_facts r rest s Hr) as (_ & _ & _ & _ & Hf).
        destruct (IH (after_unavailable r rest s)) as (Hf' & Hl' & Ho').
        rewrite out_prepend, after_prepend, log_prepend.
        split; [ apply (same_flags_trans _ _ _ Hf Hf') | split; [ | exact Ho' ] ].
        rewrite forallb_app, unavailable_log_polling, Hl'. reflexivity.
      * destruct r as [beans|msg]; [|discriminate].
        rewrite (coherenceSafe_body_pass _ _ _ _ Hq Hr).
        destruct (pass_quiet inner beans (with_queries rest s)) as (Hf & Hl & Ho).
        destruct (pass inner beans (with_queries rest s)) as [o s' l].
        cbn [out after log] in Hf, Hl, Ho.
        destruct Ho as [-> | ->]; cbn [iterate].
        -- rewrite enumerate_done by reflexivity.
           cbn [prepend out after log].
           split; [ exact Hf | split; [ | left; reflexivity ] ].
           rewrite !forallb_app, Hl. reflexivity.
        -- split; [ exact Hf | split; [ | right; reflexivity ] ].
           cbn [log]. rewrite forallb_app, Hl. reflexivity.
Qed.

(* ===================================================================== *)
(** ** [waitUntilCoherenceSafe] *)
(* ===================================================================== *)

Lemma waitUntilCoherenceSafe_killed (fuel : nat) (s : State) :
  domainRuntime_replies (world s) = [] ->
  waitUntilCoherenceSafe fuel s = mkRun Killed s wait_head.
Proof.
  intros H. unfold waitUntilCoherenceSafe, domainRuntime.
  unfold bind at 1. unfold print at 1, emit. cbn beta iota.
  unfold bind at 1, call. rewrite H. reflexivity.
Qed.

Lemma waitUntilCoherenceSafe_raises (fuel : nat) (s : State) (msg : string)
    (rest : list (reply unit)) :
  domainRuntime_replies (world s) = Raises msg :: rest ->
  waitUntilCoherenceSafe fuel s =
  mkRun (Raise msg) (with_domainRuntimes rest s) (wait_head ++ [Raised msg]).
Proof.
  intros H. unfold waitUntilCoherenceSafe, domainRuntime.
  unfold bind at 1. unfold print at 1, emit. cbn beta iota.
  unfold bind at 1, call. rewrite H. reflexivity.
Qed.

Lemma waitUntilCoherenceSafe_enumerates (fuel : nat) (s : State) (u : unit)
    (rest : list (reply unit)) :
  domainRuntime_replies (world s) = Ok u :: rest ->
  waitUntilCoherenceSafe fuel s =
  match enumerate fuel fuel (wait_start rest s) with
  | mkRun (Ret _) s' l =>
      mkRun (Ret tt) s'
        (wait_head ++ [Completed] ++ l ++ [Returned "waitUntilCoherenceSafe"])
  | mkRun (Raise msg) s' l => mkRun (Raise msg) s' (wait_head ++ [Completed] ++ l)
  | mkRun (Exit code) s' l => mkRun (Exit code) s' (wait_head ++ [Completed] ++ l)
  | mkRun Killed s' l => mkRun Killed s' (wait_head ++ [Completed] ++ l)
  end.
Proof.
  intros H. unfold waitUntilCoherenceSafe, domainRuntime.
  fold (enumerate fuel fuel).
  unfold bind at 1. unfold print at 1, emit. cbn beta iota.
  unfold bind at 1, call. rewrite H. cbn beta iota.
  unfold bind at 1. unfold modify at 1. cbn beta iota.
  unfold bind at 1. unfold modify at 1. cbn beta iota.
  unfold bind at 1. unfold wait_start, with_domainRuntimes.
  destruct (enumerate fuel fuel _) as [[[]| | |] s' l]; reflexivity.
Qed.

(** The safety wait changes neither [stayInConnectLoop] nor [cohSafe]; it
    ends by returning, by the exception of [domainRuntime], or by being
    killed; its log is made of polling events, closed by the return mark
    exactly when it returns. *)
Lemma waitUntilCoherenceSafe_quiet (fuel : nat) (s : State) :
  let r := waitUntilCoherenceSafe fuel s in
  same_flags s (after r) /\
  match out r with
  | Ret _ =>
      exists l, log r = l ++ [Returned "waitUntilCoherenceSafe"] /\
                forallb polling_event l = true
  | Raise msg =>
      exists l, log r = l ++ [Raised msg] /\ forallb polling_event l = true
  | Exit _ => False
  | Killed => forallb polling_event (log r) = true
  end.
Proof.
  intros r. subst r.
  destruct (domainRuntime_replies (world s)) as [|[[]|msg] rest] eqn:H.
  - rewrite (waitUntilCoherenceSafe_killed _ _ H).
    split; [apply same_flags_refl | reflexivity].
  - rewrite (waitUntilCoherenceSafe_enumerates _ _ _ _ H).
    destruct (enumerate_quiet fuel fuel (wait_start rest s)) as (Hf & Hl & Ho).
    destruct (enumerate fuel fuel (wait_start rest s)) as [o s' l].
    cbn [out after log] in Hf, Hl, Ho. destruct Ho as [-> | ->]; cbn [out after log].
    + split; [exact Hf|].
      exists (wait_head ++ [Completed] ++ l). split.
      * rewrite <- !app_assoc. reflexivity.
      * rewrite !forallb_app, Hl. reflexivity.
    + split; [exact Hf|]. rewrite !forallb_app, Hl. reflexivity.
  - rewrite (waitUntilCoherenceSafe_raises _ _ _ _ H).
    split; [split; reflexivity|]. cbn [out log].
    exists wait_head. split; reflexivity.
Qed.

Lemma unavailable_nonempty (beans : list ObjectInstance) :
  unavailable (Ok beans) = false <-> beans <> [].
Proof. destruct beans; cbn; split; congruence. Qed.

Lemma wait_start_facts (rest : list (reply unit)) (s : State) :
  done (wait_start rest s) = false /\
  warnSleep (wait_start rest s) = true /\
  queryMBeans_replies (world (wait_start rest s)) = queryMBeans_replies (world s) /\
  getAttribute_replies (world (wait_start rest s)) = getAttribute_replies (world s).
Proof. repeat split; reflexivity. Qed.

Lemma wait_returns_on_settled_pass (fuel : nat) (s : State)
    drest fails beans qrest obs arest :
  settled_pass s drest fails beans qrest obs arest ->
  in_time fuel fails obs ->
  let r := waitUntilCoherenceSafe fuel s in
  out r = Ret tt /\
  queryMBeans_replies (world (after r)) = qrest /\
  getAttribute_replies (world (after r)) = arest /\
  log r = wait_log fails beans obs.
Proof.
  intros [Hd Hq Hfails Hbeans Ha Hlen Hset] [Hfuel Hinner] r. subst r.
  apply unavailable_nonempty in Hbeans.
  rewrite (waitUntilCoherenceSafe_enumerates _ _ _ _ Hd).
  destruct (wait_start_facts drest s) as (Hdone & Hwarn & Hq' & Ha').
  destruct (enumerate_settles fuel beans qrest obs arest Hbeans Hlen Hset Hinner
              fails fuel (wait_start drest s))
    as (Ho & Hqr & Har & _ & Hlog); trivial; try congruence.
  destruct (enumerate fuel fuel (wait_start drest s)) as [o s' l].
  cbn [out after log] in *. subst o. cbn [out after log].
  repeat split; trivial.
  rewrite Hlog, Hwarn. unfold wait_log. rewrite <- !app_assoc. reflexivity.
Qed.

Lemma wait_returns_only_on_settled_pass (fuel : nat) (s : State) :
  out (waitUntilCoherenceSafe fuel s) = Ret tt ->
  exists drest fails beans qrest obs arest,
    settled_pass s drest fails beans qrest obs arest /\ in_time fuel fails obs.
Proof.
  intros Hout.
  destruct (domainRuntime_replies (world s)) as [|[[]|msg] drest] eqn:Hd.
  - rewrite (waitUntilCoherenceSafe_killed _ _ Hd) in Hout. discriminate.
  - rewrite (waitUntilCoherenceSafe_enumerates _ _ _ _ Hd) in Hout.
    destruct (wait_start_facts drest s) as (Hdone & Hwarn & Hq' & Ha').
    destruct (enumerate fuel fuel (wait_start drest s)) as [o s' l] eqn:He.
    assert (Ho : out (enumerate fuel fuel (wait_start drest s)) = Ret tt).
    { rewrite He. destruct o as [[]| | |]; try discriminate. reflexivity. }
    destruct (enumerate_returns _ _ _ Hdone Ho)
      as (fails & beans & qrest & obs & arest & H1 & H2 & H3 & H4 & H5 & H6 & H7 & H8).
    exists drest, fails, beans, qrest, obs, arest. split.
    + constructor; trivial; try congruence.
      apply unavailable_nonempty; assumption.
    + split; assumption.
  - rewrite (waitUntilCoherenceSafe_raises _ _ _ _ Hd) in Hout. discriminate.
Qed.

Lemma wait_goes_on_in_pending_pass (fuel : nat) (s : State)
    drest fails beans qrest obs waits :
  pending_pass s drest fails beans qrest obs waits ->
  out (waitUntilCoherenceSafe fuel s) = Killed.
Proof.
  intros [Hd Hq Hfails Ha Hlen Hset Hwaits].
  rewrite (waitUntilCoherenceSafe_enumerates _ _ _ _ Hd).
  destruct (wait_start_facts drest s) as (Hdone & Hwarn & Hq' & Ha').
  assert (Hbeans : unavailable (Ok beans) = false).
  { apply unavailable_nonempty. intros ->. cbn in Hlen. lia. }
  pose proof (enumerate_waits fuel beans obs waits Hbeans Hlen Hset Hwaits
                fails qrest fuel (wait_start drest s) Hdone) as He.
  rewrite Hq', Ha' in He. specialize (He Hq Hfails Ha).
  destruct (enumerate fuel fuel (wait_start drest s)) as [o s' l].
  cbn [out] in He. subst o. reflexivity.
Qed.

Lemma wait_ends (fuel : nat) (s : State) :
  let r := waitUntilCoherenceSafe fuel s in
  out r = Ret tt \/ out r = Killed \/
  exists msg drest,
    domainRuntime_replies (world s) = Raises msg :: drest /\ out r = Raise msg.
Proof.
  intros r. subst r.
  destruct (domainRuntime_replies (world s)) as [|[[]|msg] drest] eqn:Hd.
  - rewrite (waitUntilCoherenceSafe_killed _ _ Hd). right; left; reflexivity.
  - rewrite (waitUntilCoherenceSafe_enumerates _ _ _ _ Hd).
    destruct (enumerate_quiet fuel fuel (wait_start drest s)) as (_ & _ & Ho).
    destruct (enumerate fuel fuel (wait_start drest s)) as [o s' l].
    cbn [out] in Ho. destruct Ho as [-> | ->]; [left | right; left]; reflexivity.
  - rewrite (waitUntilCoherenceSafe_raises _ _ _ _ Hd).
    right; right. exists msg, drest. split; reflexivity.
Qed.

(** C2.  [waitUntilCoherenceSafe] returns exactly at the end of the first
    pass in which every enumerated service reports a status that is not
    ENDANGERED ([None] included), and never while a service of the current
    pass has only reported ENDANGERED (or failed to report); it has no
    timeout of its own.

    - When the replies contain a settled pass and the grace period leaves
      room for it, the function returns, having consumed the replies of
      that pass and no more; its log is the failed enumerations, the one
      pass, and the return.  An enumeration that finds no bean starts no
      pass: the script sleeps 1 and enumerates again.
    - When the function returns, the replies did contain such a pass.
    - When the replies end while a service of the pass is still kept
      waiting, the function has not returned, whatever the number of such
      replies and however long the grace period.
    - The function ends in three ways only: it returns, it is killed from
      outside, or [domainRuntime] raised before the first enumeration. *)
Theorem wait_returns_exactly_after_first_settled_pass :
  (forall fuel s drest fails beans qrest obs arest,
     settled_pass s drest fails beans qrest obs arest ->
     in_time fuel fails obs ->
     let r := waitUntilCoherenceSafe fuel s in
     out r = Ret tt /\
     queryMBeans_replies (world (after r)) = qrest /\
     getAttribute_replies (world (after r)) = arest /\
     log r = wait_log fails beans obs) /\
  (forall fuel s,
     out (waitUntilCoherenceSafe fuel s) = Ret tt ->
     exists drest fails beans qrest obs arest,
       settled_pass s drest fails beans qrest obs arest /\
       in_time fuel fails obs) /\
  (forall fuel s drest fails beans qrest obs waits,
     pending_pass s drest fails beans qrest obs waits ->
     out (waitUntilCoherenceSafe fuel s) = Killed) /\
  (forall fuel s,
     let r := waitUntilCoherenceSafe fuel s in
     out r = Ret tt \/ out r = Killed \/
     exists msg drest,
       domainRuntime_replies (world s) = Raises msg :: drest /\
       out r = Raise msg).
Proof.
  split; [ exact wait_returns_on_settled_pass | ].
  split; [ exact wait_returns_only_on_settled_pass | ].
  split; [ exact wait_goes_on_in_pending_pass | exact wait_ends ].
Qed.

(* ===================================================================== *)
(** ** The connect loop follows its paths *)
(* ===================================================================== *)

Lemma try_bind {A B} (m : M A) (f : A -> M B) (h : string -> M B) (s : State) :
  try_except (bind m f) h s =
  match m s with
  | mkRun (Ret a) s' l => prepend l (try_except (f a) h s')
  | mkRun (Raise msg) s' l => prepend l (h msg s')
  | mkRun (Exit code) s' l => mkRun (Exit code) s' l
  | mkRun Killed s' l => mkRun Killed s' l
  end.
Proof.
  unfold try_except, bind.
  destruct (m s) as [[a|msg|code|] s' l]; try reflexivity.
  destruct (f a s') as [[b|msg|code|] s'' l']; try reflexivity.
  cbn. destruct (h msg s''); cbn. rewrite app_assoc. reflexivity.
Qed.

Section PathsSound.

Variables (cfg : Config) (connect_url force : string).

Lemma fallback_sound (s : State) :
  exists e, fallback_path cfg e (log (fallback cfg s)) /\
            ends e (out (fallback cfg s)) /\ e <> Retry /\ e <> Stopped.
Proof.
  unfold fallback, shutdownUsingNodeManager, nmConnect, nmKill.
  unfold_m.
  destruct (nmConnect_replies (world s)) as [|[[]|msg] nrest];
    cbn beta iota zeta delta [app out after log world set_world].
  - exists Died. repeat split; try discriminate. apply nm_connect_pending.
  - destruct (nmKill_replies _) as [|[[]|msg] krest];
      cbn beta iota zeta delta [app out after log world set_world].
    + exists Died. repeat split; try discriminate. apply nm_kill_pending.
    + exists (Exited 0). repeat split; try discriminate.
      apply nm_kill_done.
    + exists (Exited 2). repeat split; try discriminate.
      apply (nm_kill_raised cfg msg).
  - exists (Exited 2). repeat split; try discriminate.
    apply (nm_connect_raised cfg msg).
Qed.

Lemma on_failure_retry (e : string) (s : State) :
  cohSafe s = false ->
  on_failure cfg true e s =
  mkRun (Ret Next) (set_stayInConnectLoop true s) (failure_head e ++ retry_tail).
Proof.
  intros H. unfold on_failure. unfold_m. rewrite H. reflexivity.
Qed.

Lemma on_failure_fallback (cohExists : bool) (e : string) (s : State) :
  cohExists && negb (cohSafe s) = false ->
  on_failure cfg cohExists e s = prepend (failure_head e) (fallback cfg s).
Proof.
  intros H. unfold on_failure.
  unfold print, bind, emit, get, prepend. rewrite H.
  destruct (fallback cfg s); reflexivity.
Qed.

(** The graceful stop under the handler of the loop. *)
Lemma stop_sound (cohExists : bool) (s : State) :
  cohExists && negb (cohSafe s) = false ->
  let r := try_except (graceful_stop cfg force) (on_failure cfg cohExists) s in
  exists e, stop_path cfg force e (log r) /\ ends e (out r) /\ e <> Retry /\
            (e = Stopped -> stayInConnectLoop (after r) = stayInConnectLoop s).
Proof.
  intros Harmed r. unfold graceful_stop in r.
  assert (Hr : r = r) by reflexivity. unfold r at 2 in Hr. clearbody r.
  rewrite try_bind in Hr. unfold print at 1, emit in Hr. cbn beta iota in Hr.
  rewrite try_bind in Hr. unfold int in Hr.
  destruct (PyStr.int (timeout cfg)) as [timeOut|] eqn:Hint.
  - unfold ret at 1 in Hr. cbn beta iota in Hr. rewrite prepend_nil in Hr.
    rewrite try_bind in Hr. unfold shutdown, call in Hr.
    destruct (shutdown_replies (world s)) as [|[[]|msg] rest];
      cbn beta iota in Hr.
    + exists Died. subst r.
      repeat split; try discriminate. apply (stop_pending _ _ _ Hint).
    + unfold try_except, bind, print, emit, ret in Hr. cbn in Hr.
      exists Stopped. subst r.
      repeat split; try discriminate. apply (stop_done _ _ _ Hint).
    + rewrite on_failure_fallback in Hr by exact Harmed.
      destruct (fallback_sound (set_world (set_shutdown_replies rest (world s)) s))
        as (e & Hp & He & Hne & Hs).
      exists e. subst r. rewrite !log_prepend, !out_prepend.
      repeat split; trivial; try contradiction.
      apply (stop_raised cfg force timeOut msg e _ Hint Hp).
  - unfold throw in Hr. cbn beta iota in Hr.
    rewrite on_failure_fallback in Hr by exact Harmed.
    destruct (fallback_sound s) as (e & Hp & He & Hne & Hs).
    exists e. subst r. rewrite !log_prepend, !out_prepend.
    repeat split; trivial; try contradiction.
    apply (stop_bad_timeout cfg force e _ Hint Hp).
Qed.

Lemma wait_then_confirm (fuel : nat) (s : State) :
  (waitUntilCoherenceSafe fuel ;; modify (set_cohSafe true)) s =
  match waitUntilCoherenceSafe fuel s with
  | mkRun (Ret _) s' l => mkRun (Ret tt) (set_cohSafe true s') l
  | mkRun (Raise msg) s' l => mkRun (Raise msg) s' l
  | mkRun (Exit code) s' l => mkRun (Exit code) s' l
  | mkRun Killed s' l => mkRun Killed s' l
  end.
Proof.
  unfold bind.
  destruct (waitUntilCoherenceSafe fuel s) as [[[]| | |] s' l]; try reflexivity.
  cbn. rewrite app_nil_r. reflexivity.
Qed.

Lemma attempt_path_eq (cohExists : bool) (e : ending) (l l' : list event) :
  attempt_path cfg cohExists connect_url force e l -> l = l' ->
  attempt_path cfg cohExists connect_url force e l'.
Proof. intros H <-. exact H. Qed.

Ltac same_log := cbn [app connecting connected confirmed]; rewrite <- ?app_assoc; reflexivity.

(** One iteration of the connect loop follows one of its paths. *)
Lemma attempt_sound (cohExists : bool) (fuel : nat) (s : State) :
  cohSafe s = false ->
  let r := connect_body fuel cfg cohExists connect_url force s in
  exists e,
    attempt_path cfg cohExists connect_url force e (log r) /\
    ends e (out r) /\
    (e = Retry -> stayInConnectLoop (after r) = true /\ cohSafe (after r) = false) /\
    (e = Stopped -> stayInConnectLoop (after r) = false).
Proof.
  intros Hsafe r. unfold connect_body in r.
  assert (Hr : r = r) by reflexivity. unfold r at 2 in Hr. clearbody r.
  rewrite try_bind in Hr. unfold modify at 1 in Hr. cbn beta iota in Hr.
  rewrite prepend_nil in Hr.
  rewrite try_bind in Hr. unfold print at 1, emit in Hr. cbn beta iota in Hr.
  rewrite try_bind in Hr. unfold connect, call in Hr.
  cbn [world set_stayInConnectLoop] in Hr.
  destruct (connect_replies (world s)) as [|[[]|msg] crest];
    cbn beta iota in Hr.
  - (* no reply to connect *)
    exists Died. subst r. cbn [prepend out after log app].
    repeat split; try discriminate. apply connect_pending.
  - (* connected *)
    rewrite try_bind in Hr. unfold print at 1, emit in Hr. cbn beta iota in Hr.
    rewrite try_bind in Hr.
    set (s2 := set_world (set_connect_replies crest (world s))
                 (set_stayInConnectLoop false s)) in *.
    destruct cohExists.
    + rewrite wait_then_confirm in Hr.
      destruct (waitUntilCoherenceSafe_quiet fuel s2) as [[Hstay Hcs] Hlog].
      destruct (waitUntilCoherenceSafe fuel s2) as [[[]|msg|code|] s3 l];
        cbn [out after log] in Hstay, Hcs, Hlog; cbn beta iota in Hr.
      * destruct Hlog as (l0 & -> & Hl0).
        destruct (stop_sound true (set_cohSafe true s3)) as (e & Hp & He & Hne & Hs);
          [reflexivity|].
        exists e. subst r. rewrite !log_prepend, !out_prepend, !after_prepend.
        repeat split; trivial; try contradiction.
        -- eapply attempt_path_eq;
             [ apply (wait_returned cfg true connect_url force l0 e _ eq_refl Hl0 Hp)
             | same_log ].
        -- intros HS. rewrite (Hs HS). cbn. exact Hstay.
      * destruct Hlog as (l0 & -> & Hl0).
        rewrite on_failure_retry in Hr by (rewrite Hcs; exact Hsafe).
        exists Retry. subst r. cbn [prepend out after log].
        repeat split; try discriminate.
        -- eapply attempt_path_eq;
             [ apply (wait_raised_retry cfg true connect_url force msg l0 eq_refl Hl0)
             | same_log ].
        -- cbn [cohSafe set_stayInConnectLoop]. rewrite Hcs. exact Hsafe.
      * contradiction.
      * exists Died. subst r. cbn [prepend out after log].
        repeat split; try discriminate.
        eapply attempt_path_eq;
          [ apply (wait_pending cfg true connect_url force l eq_refl Hlog)
          | same_log ].
    + unfold ret at 1 in Hr. cbn beta iota in Hr. rewrite prepend_nil in Hr.
      destruct (stop_sound false s2) as (e & Hp & He & Hne & Hs);
        [reflexivity|].
      exists e. subst r. rewrite !log_prepend, !out_prepend, !after_prepend.
      repeat split; trivial; try contradiction.
      eapply attempt_path_eq;
        [ apply (no_wait cfg false connect_url force e _ eq_refl Hp) | same_log ].
  - (* connect raised *)
    set (s2 := set_world (set_connect_replies crest (world s))
                 (set_stayInConnectLoop false s)) in *.
    destruct cohExists.
    + rewrite on_failure_retry in Hr by exact Hsafe.
      exists Retry. subst r. cbn [prepend out after log].
      repeat split; try discriminate; trivial.
      eapply attempt_path_eq;
        [ apply (connect_raised_retry cfg true connect_url force msg eq_refl)
        | same_log ].
    + destruct (fallback_sound s2) as (e & Hp & He & Hne & Hs).
      rewrite on_failure_fallback in Hr by reflexivity.
      exists e. subst r. rewrite !log_prepend, !out_prepend, !after_prepend.
      repeat split; trivial; try contradiction.
      eapply attempt_path_eq;
        [ apply (connect_raised_fallback cfg false connect_url force msg e _ eq_refl Hp)
        | same_log ].
Qed.

Lemma while_stay_false (fuel : nat) (body : M ctl) (s : State) :
  stayInConnectLoop s = false ->
  while fuel (get stayInConnectLoop) body s = mkRun (Ret tt) s [].
Proof.
  intros H. destruct fuel; cbn [while]; unfold bind, get; rewrite H; reflexivity.
Qed.

Lemma while_stay_0 (body : M ctl) (s : State) :
  stayInConnectLoop s = true ->
  while 0 (get stayInConnectLoop) body s = mkRun Killed s [].
Proof. intros H. cbn [while]. unfold bind, get. rewrite H. reflexivity. Qed.

Lemma while_stay_S (fuel : nat) (body : M ctl) (s : State) :
  stayInConnectLoop s = true ->
  while (S fuel) (get stayInConnectLoop) body s =
  iterate (while fuel (get stayInConnectLoop) body) (body s).
Proof.
  intros H. cbn [while]. unfold bind at 1. unfold get at 1. rewrite H.
  cbn beta iota. unfold bind.
  destruct (body s) as [[[]| | |] s' l]; cbn; rewrite ?app_nil_r;
    try reflexivity.
  destruct (while fuel _ _ s'); reflexivity.
Qed.

(** The connect loop follows one of its paths. *)
Lemma while_connect_sound (cohExists : bool) (inner : nat) :
  forall (fuel : nat) (s : State),
    cohSafe s = false ->
    stayInConnectLoop s = true ->
    let r := while fuel (get stayInConnectLoop)
               (connect_body inner cfg cohExists connect_url force) s in
    loop_path cfg cohExists connect_url force (out r) (log r).
Proof.
  induction fuel as [|fuel IH]; intros s Hsafe Hstay r; subst r.
  - rewrite while_stay_0 by trivial. apply out_of_time.
  - rewrite while_stay_S by trivial.
    destruct (attempt_sound cohExists inner s Hsafe) as (e & Hp & He & Hre & Hst).
    destruct (connect_body inner cfg cohExists connect_url force s)
      as [o s' l]. cbn [out after log] in *.
    destruct e; cbn [ends] in He; subst o; cbn [iterate].
    + destruct (Hre eq_refl) as [Hstay' Hsafe'].
      rewrite out_prepend, log_prepend.
      apply retried; [exact Hp | apply IH; assumption].
    + rewrite while_stay_false by (apply Hst; reflexivity).
      cbn [prepend out log]. rewrite app_nil_r. apply stopped. exact Hp.
    + apply exited. exact Hp.
    + apply died. exact Hp.
Qed.

Lemma connect_loop_run (cohExists : bool) (fuel : nat) (s : State) :
  connect_loop fuel cfg cohExists connect_url force s =
  while fuel (get stayInConnectLoop)
    (connect_body fuel cfg cohExists connect_url force)
    (set_cohSafe false (set_stayInConnectLoop true s)).
Proof.
  unfold connect_loop, bind, modify. cbn beta iota.
  destruct (while fuel _ _ _); reflexivity.
Qed.

Lemma connect_loop_sound (cohExists : bool) (fuel : nat) (s : State) :
  let r := connect_loop fuel cfg cohExists connect_url force s in
  loop_path cfg cohExists connect_url force (out r) (log r).
Proof.
  intros r. subst r. rewrite connect_loop_run.
  apply while_connect_sound; reflexivity.
Qed.

End PathsSound.

(* ===================================================================== *)
(** ** No graceful stop before the cluster is safe *)
(* ===================================================================== *)

Lemma shutdown_guarded_polling (b : bool) (l l' : list event) :
  forallb polling_event l = true ->
  shutdown_guarded b (l ++ l') = shutdown_guarded b l'.
Proof.
  induction l as [|e l IH]; intros H; [reflexivity|].
  cbn [forallb] in H. apply andb_true_iff in H. destruct H as [He Hl].
  cbn [app shutdown_guarded]. destruct e; try discriminate; cbn; auto.
Qed.

Ltac path_lists :=
  unfold connected, connecting, confirmed, failure_head, retry_tail, calling,
    nm_killing, nm_connecting, nm_failed, nm_killed in *;
  rewrite <- ?app_assoc; cbn [app].

Lemma fallback_path_guarded (cfg : Config) (e : ending) (l : list event) (b : bool) :
  fallback_path cfg e l -> shutdown_guarded b l = true.
Proof. intros H. destruct H; reflexivity. Qed.

Lemma stop_path_guarded (cfg : Config) (force : string) (e : ending)
    (l : list event) :
  stop_path cfg force e l -> shutdown_guarded true l = true.
Proof.
  intros H. destruct H as [e l Hint Hf|t Hint|t msg e l Hint Hf|t Hint];
    try reflexivity; path_lists; cbn;
    apply (fallback_path_guarded _ _ _ _ Hf).
Qed.

Lemma fallback_path_final (cfg : Config) (e : ending) (l : list event) :
  fallback_path cfg e l -> e = Exited 0 \/ e = Exited 2 \/ e = Died.
Proof. intros H. destruct H; auto. Qed.

Lemma stop_path_final (cfg : Config) (force : string) (e : ending)
    (l : list event) :
  stop_path cfg force e l ->
  e = Stopped \/ e = Exited 0 \/ e = Exited 2 \/ e = Died.
Proof.
  intros H. destruct H as [e l Hint Hf|t Hint|t msg e l Hint Hf|t Hint]; auto;
    destruct (fallback_path_final _ _ _ Hf) as [|[|]]; auto.
Qed.

Ltac not_retry H :=
  let Hf := fresh in
  first [ pose proof (stop_path_final _ _ _ _ H) as Hf
        | pose proof (fallback_path_final _ _ _ H) as Hf ];
  repeat (destruct Hf as [Hf|Hf]; try discriminate Hf); discriminate Hf.

Lemma attempt_retry_guarded (cfg : Config) (url force : string)
    (l l' : list event) :
  attempt_path cfg true url force Retry l ->
  (forall b, shutdown_guarded b l' = true) ->
  forall b, shutdown_guarded b (l ++ l') = true.
Proof.
  intros H Hl' b. inversion H as
    [|msg Hc|msg e l0 Hc Hf|l0 Hc Hl|msg l0 Hc Hl|l0 e l1 Hc Hl Hs|e l1 Hc Hs];
    subst; try discriminate; try (not_retry Hs); try (not_retry Hf);
    path_lists; cbn [shutdown_guarded is_connect is_confirmation is_shutdown];
    rewrite ?(shutdown_guarded_polling _ _ _ Hl);
    cbn [shutdown_guarded is_connect is_confirmation is_shutdown];
    apply Hl'.
Qed.

Lemma attempt_guarded (cfg : Config) (url force : string) (e : ending)
    (l : list event) :
  attempt_path cfg true url force e l ->
  forall b, shutdown_guarded b l = true.
Proof.
  intros H b. destruct H as
    [|msg Hc|msg e l0 Hc Hf|l0 Hc Hl|msg l0 Hc Hl|l0 e l1 Hc Hl Hs|e l1 Hc Hs];
    try discriminate;
    path_lists; cbn [shutdown_guarded is_connect is_confirmation is_shutdown];
    rewrite ?(shutdown_guarded_polling _ _ _ Hl);
    cbn [shutdown_guarded is_connect is_confirmation is_shutdown
           String.eqb Ascii.eqb Bool.eqb];
    try reflexivity.
  - rewrite <- (app_nil_r l0), shutdown_guarded_polling by assumption.
    reflexivity.
  - apply (stop_path_guarded _ _ _ _ Hs).
Qed.

Lemma loop_path_guarded (cfg : Config) (url force : string) (o : outcome unit)
    (l : list event) :
  loop_path cfg true url force o l ->
  forall b, shutdown_guarded b l = true.
Proof.
  intros H. induction H as [|l o l' Ha Hl IH|l Ha|code l Ha|l Ha]; intros b.
  - reflexivity.
  - apply (attempt_retry_guarded _ _ _ _ _ Ha IH).
  - apply (attempt_guarded _ _ _ _ _ Ha).
  - apply (attempt_guarded _ _ _ _ _ Ha).
  - apply (attempt_guarded _ _ _ _ _ Ha).
Qed.

(** C1.  With a Coherence cluster in the domain, the script never calls
    [shutdown] before [waitUntilCoherenceSafe] has returned in the same
    connection attempt: in the log of every run of the connect loop,
    whatever the replies of the outside world and however long the grace
    period, each [shutdown] call comes after a return of
    [waitUntilCoherenceSafe] that is later than the last [connect]. *)
Theorem shutdown_only_after_safety_confirmed
    (fuel : nat) (cfg : Config) (connect_url force : string) (s : State) :
  shutdown_guarded false
    (log (connect_loop fuel cfg true connect_url force s)) = true.
Proof.
  apply (loop_path_guarded cfg connect_url force
           (out (connect_loop fuel cfg true connect_url force s))).
  apply connect_loop_sound.
Qed.

(* ===================================================================== *)
(** ** Failures while the cluster is not known to be safe *)
(* ===================================================================== *)

Section Contention.

Variables (cfg : Config) (connect_url force : string) (inner : nat).

Lemma connect_body_contention (f : contention) (s : State)
    (crest drest : list (reply unit)) :
  cohSafe s = false ->
  connect_replies (world s) = connect_reply_of f :: crest ->
  domainRuntime_replies (world s) = domainRuntime_replies_of f ++ drest ->
  connect_body inner cfg true connect_url force s =
  mkRun (Ret Next) (retrying crest drest s) (contention_log cfg connect_url f).
Proof.
  intros Hsafe Hc Hd. unfold connect_body.
  rewrite try_bind. unfold modify at 1. cbn beta iota. rewrite prepend_nil.
  rewrite try_bind. unfold print at 1, emit. cbn beta iota.
  rewrite try_bind. unfold connect, call.
  cbn [world set_stayInConnectLoop]. rewrite Hc.
  destruct f as [msg|msg]; cbn [connect_reply_of domainRuntime_replies_of app] in *;
    cbn beta iota.
  - rewrite on_failure_retry by exact Hsafe.
    unfold retrying, with_connects, with_domainRuntimes.
    destruct s as [[] ? ? ? ?]; cbn in Hd; subst; reflexivity.
  - rewrite try_bind. unfold print at 1, emit. cbn beta iota.
    rewrite try_bind, wait_then_confirm.
    rewrite (waitUntilCoherenceSafe_raises inner
               (set_world (set_connect_replies crest (world s))
                  (set_stayInConnectLoop false s)) msg drest Hd).
    cbn beta iota.
    rewrite on_failure_retry by exact Hsafe. reflexivity.
Qed.

(** However many attempts fail in a row while the cluster is not known
    to be safe, the loop sleeps 10 after each and goes round again. *)
Lemma contention_retried :
  forall (fs : list contention) (fuel : nat) (s : State)
         (crest drest : list (reply unit)),
    cohSafe s = false ->
    stayInConnectLoop s = true ->
    connect_replies (world s) = map connect_reply_of fs ++ crest ->
    domainRuntime_replies (world s) = flat_map domainRuntime_replies_of fs ++ drest ->
    while (List.length fs + fuel) (get stayInConnectLoop)
      (connect_body inner cfg true connect_url force) s =
    prepend (flat_map (contention_log cfg connect_url) fs)
      (while fuel (get stayInConnectLoop)
         (connect_body inner cfg true connect_url force)
         (retrying crest drest s)).
Proof.
  induction fs as [|f fs IH]; intros fuel s crest drest Hsafe Hstay Hc Hd.
  - cbn [List.length flat_map Nat.add]. rewrite prepend_nil.
    f_equal. unfold retrying, with_connects, with_domainRuntimes.
    destruct s as [[] ? ? ? ?]; cbn in *; subst; reflexivity.
  - cbn [List.length Nat.add map flat_map app] in *.
    rewrite while_stay_S by exact Hstay.
    rewrite <- app_assoc in Hd.
    rewrite (connect_body_contention f s _ _ Hsafe Hc Hd). cbn [iterate].
    rewrite (IH fuel _ crest drest);
      [ | exact Hsafe | reflexivity | reflexivity | reflexivity ].
    rewrite prepend_prepend. reflexivity.
Qed.

End Contention.

Lemma polling_not (c : event -> bool) (l : list event) :
  (forall e, polling_event e = true -> c e = false) ->
  forallb polling_event l = true -> existsb c l = false.
Proof.
  intros Hc. induction l as [|e l IH]; intros H; [reflexivity|].
  cbn [forallb] in H. apply andb_true_iff in H. destruct H as [He Hl].
  cbn [existsb]. rewrite (Hc e He), (IH Hl). reflexivity.
Qed.

Lemma polling_no_nm_call (l : list event) :
  forallb polling_event l = true -> existsb is_nm_call l = false.
Proof. apply polling_not. intros []; cbn; congruence. Qed.

Lemma polling_no_confirmation (l : list event) :
  forallb polling_event l = true -> existsb is_confirmation l = false.
Proof. apply polling_not. intros []; cbn; congruence. Qed.

Ltac split_exists :=
  repeat first [ rewrite existsb_app | rewrite forallb_app ];
  cbn [existsb forallb app is_nm_call is_nm_connect is_nm_kill is_confirmation
         is_connect is_shutdown is_raised is_completed orb andb negb].

Lemma attempt_unconfirmed (cfg : Config) (url force : string) (e : ending)
    (l : list event) :
  attempt_path cfg true url force e l ->
  existsb is_confirmation l = false ->
  (e = Retry \/ e = Died) /\ existsb is_nm_call l = false.
Proof.
  intros H Hno. destruct H as
    [|msg Hc|msg e l0 Hc Hf|l0 Hc Hl|msg l0 Hc Hl|l0 e l1 Hc Hl Hs|e l1 Hc Hs];
    try discriminate.
  - split; [right; reflexivity | reflexivity].
  - split; [left; reflexivity | reflexivity].
  - split; [right; reflexivity|]. path_lists.
    cbn [existsb is_nm_call is_nm_connect is_nm_kill orb].
    apply polling_no_nm_call; assumption.
  - split; [left; reflexivity|].
    unfold connected, connecting. split_exists.
    rewrite (polling_no_nm_call _ Hl). reflexivity.
  - exfalso. unfold connected, connecting, confirmed in Hno.
    rewrite !existsb_app in Hno. cbn in Hno.
    rewrite orb_true_r in Hno. discriminate.
Qed.

Lemma loop_unconfirmed (cfg : Config) (url force : string) (o : outcome unit)
    (l : list event) :
  loop_path cfg true url force o l ->
  existsb is_confirmation l = false ->
  o = Killed /\ existsb is_nm_call l = false.
Proof.
  intros H. induction H as [|l o l' Ha Hl IH|l Ha|code l Ha|l Ha]; intros Hno.
  - split; reflexivity.
  - rewrite existsb_app in Hno. apply orb_false_iff in Hno.
    destruct Hno as [Hno Hno'].
    destruct (attempt_unconfirmed _ _ _ _ _ Ha Hno) as [_ Hnm].
    destruct (IH Hno') as [-> Hnm'].
    split; [reflexivity|]. rewrite existsb_app, Hnm, Hnm'. reflexivity.
  - destruct (attempt_unconfirmed _ _ _ _ _ Ha Hno) as [[|] _]; discriminate.
  - destruct (attempt_unconfirmed _ _ _ _ _ Ha Hno) as [[|] _]; discriminate.
  - destruct (attempt_unconfirmed _ _ _ _ _ Ha Hno) as [_ Hnm].
    split; [reflexivity | exact Hnm].
Qed.

Lemma contention_log_sleeps (cfg : Config) (url : string) (fs : list contention) :
  List.length (filter (is_sleep 10) (flat_map (contention_log cfg url) fs)) =
  List.length fs /\
  existsb is_nm_call (flat_map (contention_log cfg url) fs) = false.
Proof.
  induction fs as [|f fs [IH1 IH2]]; [split; reflexivity|].
  cbn [flat_map]. rewrite filter_app, length_app, existsb_app, IH1, IH2.
  destruct f; split; reflexivity.
Qed.

Lemma contention_until_killed (cfg : Config) (url force : string)
    (fs : list contention) (fuel : nat) (s : State) (drest : list (reply unit)) :
  connect_replies (world s) = map connect_reply_of fs ->
  domainRuntime_replies (world s) = flat_map domainRuntime_replies_of fs ++ drest ->
  List.length fs < fuel ->
  let r := connect_loop fuel cfg true url force s in
  out r = Killed /\
  log r = flat_map (contention_log cfg url) fs ++ connecting cfg url /\
  List.length (filter (is_sleep 10) (log r)) = List.length fs /\
  existsb is_nm_call (log r) = false.
Proof.
  intros Hc Hd Hfuel r.
  assert (Hr : r = mkRun Killed
                 (set_stayInConnectLoop false (retrying [] drest (set_cohSafe false s)))
                 (flat_map (contention_log cfg url) fs ++ connecting cfg url)).
  { subst r. rewrite connect_loop_run.
    replace fuel with (List.length fs + S (fuel - S (List.length fs))) at 1 by lia.
    rewrite (contention_retried cfg url force fuel fs _ _ [] drest);
      try reflexivity; try exact Hd; try (rewrite app_nil_r; exact Hc). }
  rewrite Hr. cbn [out log].
  destruct (contention_log_sleeps cfg url fs) as [Hs Hn].
  repeat split.
  - rewrite filter_app, length_app, Hs. cbn. lia.
  - rewrite existsb_app, Hn. reflexivity.
Qed.

(** C4.  While a Coherence cluster exists and its safety has not been
    confirmed, an exception in a connection attempt never leads to the
    NodeManager: the script sleeps 10 and goes round the connect loop
    again, without bound.

    - For every number of attempts that fail in a row ([connect] raised,
      or [domainRuntime] raised at the start of the safety wait), the
      loop sleeps 10 after each of them, calls neither [nmConnect] nor
      [nmKill], and is in its next [connect] when the process is killed.
    - In every run in which [waitUntilCoherenceSafe] has not returned,
      whatever was raised and wherever, the NodeManager is not called, and
      the loop has not ended of its own: it is the outside that ends
      it. *)
Theorem no_fallback_before_safety_confirmed :
  (forall cfg connect_url force fs fuel s drest,
     connect_replies (world s) = map connect_reply_of fs ->
     domainRuntime_replies (world s) =
       flat_map domainRuntime_replies_of fs ++ drest ->
     List.length fs < fuel ->
     let r := connect_loop fuel cfg true connect_url force s in
     out r = Killed /\
     log r = flat_map (contention_log cfg connect_url) fs ++
             connecting cfg connect_url /\
     List.length (filter (is_sleep 10) (log r)) = List.length fs /\
     existsb is_nm_call (log r) = false) /\
  (forall cfg connect_url force fuel s,
     let r := connect_loop fuel cfg true connect_url force s in
     existsb is_confirmation (log r) = false ->
     out r = Killed /\ existsb is_nm_call (log r) = false).
Proof.
  split.
  - exact contention_until_killed.
  - intros cfg url force fuel s r Hno.
    apply (loop_unconfirmed cfg url force); [ apply connect_loop_sound | exact Hno ].
Qed.

(* ===================================================================== *)
(** ** Failures once the cluster is safe, or without a cluster *)
(* ===================================================================== *)

Lemma after_confirmation_none (l : list event) :
  existsb is_confirmation l = false -> after_confirmation l = [].
Proof.
  induction l as [|e l IH]; intros H; [reflexivity|].
  cbn [existsb] in H. apply orb_false_iff in H. destruct H as [He Hl].
  cbn [after_confirmation]. rewrite He. auto.
Qed.

Lemma after_confirmation_app (l l' : list event) :
  existsb is_confirmation l = false ->
  after_confirmation (l ++ l') = after_confirmation l'.
Proof.
  induction l as [|e l IH]; intros H; [reflexivity|].
  cbn [existsb] in H. apply orb_false_iff in H. destruct H as [He Hl].
  cbn [app after_confirmation]. rewrite He. auto.
Qed.

Lemma first_raise_app (l l' : list event) :
  existsb is_raised l = false -> first_raise (l ++ l') = first_raise l'.
Proof.
  induction l as [|e l IH]; intros H; [reflexivity|].
  cbn [existsb] in H. apply orb_false_iff in H. destruct H as [He Hl].
  cbn [app first_raise]. destruct e; try discriminate; auto.
Qed.

Lemma polling_no_nm_connect (l : list event) :
  forallb polling_event l = true -> existsb is_nm_connect l = false.
Proof. apply polling_not. intros []; cbn; congruence. Qed.

Lemma no_nm_connect_count (l : list event) :
  existsb is_nm_connect l = false -> List.length (filter is_nm_connect l) = 0.
Proof.
  induction l as [|e l IH]; intros H; [reflexivity|].
  cbn [existsb] in H. apply orb_false_iff in H. destruct H as [He Hl].
  cbn [filter]. rewrite He. auto.
Qed.

Lemma no_nm_call_no_nm_connect (l : list event) :
  existsb is_nm_call l = false -> existsb is_nm_connect l = false.
Proof.
  induction l as [|e l IH]; intros H; [reflexivity|].
  cbn [existsb] in H. apply orb_false_iff in H. destruct H as [He Hl].
  unfold is_nm_call in He. apply orb_false_iff in He.
  cbn [existsb]. rewrite (proj1 He), (IH Hl). reflexivity.
Qed.

(** What the last resort leaves in the log after [nmConnect]. *)
Lemma fallback_path_once (cfg : Config) (e : ending) (l : list event) :
  fallback_path cfg e l ->
  exists rest,
    l = nm_connecting cfg ++ rest /\
    existsb is_connect rest = false /\
    existsb is_shutdown rest = false /\
    existsb is_nm_connect rest = false /\
    existsb is_raised (nm_connecting cfg) = false.
Proof.
  intros H. destruct H.
  - exists []. rewrite app_nil_r. repeat split.
  - exists (nm_failed msg). repeat split.
  - exists [ Completed; Print "Shutdown: Successfully connected to NodeManager";
             NmKill (server_name cfg) ]. repeat split.
  - exists ([ Completed; Print "Shutdown: Successfully connected to NodeManager";
              NmKill (server_name cfg) ] ++ nm_failed msg). repeat split.
  - exists ([ Completed; Print "Shutdown: Successfully connected to NodeManager";
              NmKill (server_name cfg) ] ++ nm_killed). repeat split.
Qed.

(** The graceful stop: its first exception goes to the NodeManager. *)
Lemma stop_path_escalates (cfg : Config) (force : string) (e : ending)
    (l : list event) :
  stop_path cfg force e l ->
  match first_raise l with
  | Some (msg, post) =>
      (exists rest,
         post = failure_head msg ++ nm_connecting cfg ++ rest /\
         existsb is_connect rest = false /\
         existsb is_shutdown rest = false /\
         existsb is_nm_connect rest = false) /\
      List.length (filter is_nm_connect l) = 1 /\
      (e = Exited 0 \/ e = Exited 2 \/ e = Died)
  | None => existsb is_nm_call l = false
  end.
Proof.
  intros H. destruct H as [e l Hint Hf|t Hint|t msg e l Hint Hf|t Hint];
    try reflexivity;
    destruct (fallback_path_once _ _ _ Hf) as (rest & -> & H1 & H2 & H3 & _);
    pose proof (fallback_path_final _ _ _ Hf) as He;
    cbn [calling app first_raise];
    (split; [ exists rest; repeat split; assumption | split; [ | exact He ] ]);
    cbn; rewrite (no_nm_connect_count _ H3); reflexivity.
Qed.

Lemma final_outcome (e : ending) :
  e = Exited 0 \/ e = Exited 2 \/ e = Died ->
  ending_outcome e = Exit 0%Z \/ ending_outcome e = Exit 2%Z \/
  ending_outcome e = Killed.
Proof. intros [ -> | [ -> | -> ] ]; cbn; auto. Qed.

Lemma attempt_retry_quiet (cfg : Config) (cohExists : bool) (url force : string)
    (l : list event) :
  attempt_path cfg cohExists url force Retry l ->
  cohExists = true /\
  existsb is_confirmation l = false /\
  existsb is_nm_call l = false.
Proof.
  intros H. inversion H as
    [|msg Hc|msg e l0 Hc Hf|l0 Hc Hl|msg l0 Hc Hl|l0 e l1 Hc Hl Hs|e l1 Hc Hs];
    subst; try (not_retry Hs); try (not_retry Hf).
  - repeat split.
  - split; [reflexivity|]. unfold connected, connecting. split.
    + split_exists. rewrite (polling_no_confirmation _ Hl). reflexivity.
    + split_exists. rewrite (polling_no_nm_call _ Hl). reflexivity.
Qed.

Lemma attempt_final_escalates (cfg : Config) (cohExists : bool)
    (url force : string) (e : ending) (l : list event) :
  attempt_path cfg cohExists url force e l ->
  e <> Retry ->
  escalation cfg cohExists l (ending_outcome e).
Proof.
  intros H Hne. unfold escalation. destruct H as
    [|msg Hc|msg e l0 Hc Hf|l0 Hc Hl|msg l0 Hc Hl|l0 e l1 Hc Hl Hs|e l1 Hc Hs];
    try contradiction; try subst cohExists; cbn [graceful_part].
  - destruct cohExists; reflexivity.
  - destruct (fallback_path_once _ _ _ Hf) as (rest & -> & H1 & H2 & H3 & _).
    cbn [connecting app first_raise].
    split; [ exists rest; repeat split; assumption | split ].
    + cbn. rewrite (no_nm_connect_count _ H3). reflexivity.
    + apply final_outcome. apply (fallback_path_final _ _ _ Hf).
  - rewrite after_confirmation_none.
    + cbn [first_raise]. unfold connected, connecting. split_exists.
      rewrite (polling_no_nm_call _ Hl). reflexivity.
    + unfold connected, connecting. split_exists.
      rewrite (polling_no_confirmation _ Hl). reflexivity.
  - rewrite app_assoc, after_confirmation_app.
    2:{ unfold connected, connecting. split_exists.
        rewrite (polling_no_confirmation _ Hl). reflexivity. }
    cbn [confirmed app after_confirmation is_confirmation String.eqb Ascii.eqb Bool.eqb].
    pose proof (stop_path_escalates _ _ _ _ Hs) as Hstop.
    destruct (first_raise l1) as [[msg post]|].
    + destruct Hstop as (Hrest & Hcount & He).
      split; [exact Hrest | split; [ | apply final_outcome; exact He ] ].
      rewrite !filter_app, !length_app. cbn [filter is_nm_connect].
      rewrite Hcount.
      rewrite (no_nm_connect_count _ (polling_no_nm_connect _ Hl)). reflexivity.
    + unfold connected, connecting, confirmed. split_exists.
      rewrite (polling_no_nm_call _ Hl), Hstop. reflexivity.
  - unfold connected, connecting. cbn [app first_raise].
    pose proof (stop_path_escalates _ _ _ _ Hs) as Hstop.
    destruct (first_raise l1) as [[msg post]|].
    + destruct Hstop as (Hrest & Hcount & He).
      split; [exact Hrest | split; [ | apply final_outcome; exact He ] ].
      cbn [filter is_nm_connect]. exact Hcount.
    + cbn. exact Hstop.
Qed.

Lemma loop_path_escalates (cfg : Config) (cohExists : bool) (url force : string)
    (o : outcome unit) (l : list event) :
  loop_path cfg cohExists url force o l -> escalation cfg cohExists l o.
Proof.
  intros H. induction H as [|l o l' Ha Hl IH|l Ha|code l Ha|l Ha].
  - unfold escalation. destruct cohExists; reflexivity.
  - destruct (attempt_retry_quiet _ _ _ _ _ Ha) as (Hc & Hnc & Hnm).
    subst cohExists. unfold escalation in *. cbn [graceful_part] in *.
    rewrite (after_confirmation_app _ _ Hnc).
    destruct (first_raise (after_confirmation l')) as [[msg post]|].
    + destruct IH as (Hrest & Hcount & Ho).
      split; [exact Hrest | split; [ | exact Ho ] ].
      rewrite filter_app, length_app, Hcount.
      rewrite (no_nm_connect_count _ (no_nm_call_no_nm_connect _ Hnm)).
      reflexivity.
    + rewrite existsb_app, Hnm, IH. reflexivity.
  - apply (attempt_final_escalates _ _ _ _ _ _ Ha). discriminate.
  - apply (attempt_final_escalates _ _ _ _ _ _ Ha). discriminate.
  - apply (attempt_final_escalates _ _ _ _ _ _ Ha). discriminate.
Qed.

(** C5.  Once [waitUntilCoherenceSafe] has returned, or when the domain
    has no Coherence cluster, the first exception of the connection
    attempt ([connect], [int(timeout)] or [shutdown]) sends the script to
    the NodeManager at once: it prints the exception and the failure line,
    then calls [nmConnect]; it does so exactly once in the run; no
    [connect] and no [shutdown] follows; the run ends with status 0 or 2,
    or is killed.  Without such an exception the NodeManager is not
    called. *)
Theorem failure_after_safety_goes_to_node_manager
    (fuel : nat) (cfg : Config) (cohExists : bool) (connect_url force : string)
    (s : State) :
  escalates cfg cohExists (connect_loop fuel cfg cohExists connect_url force s).
Proof.
  unfold escalates. apply (loop_path_escalates cfg cohExists connect_url force).
  apply connect_loop_sound.
Qed.

(* ===================================================================== *)
(** ** The main script *)
(* ===================================================================== *)

Lemma decode_user_key_cases (s : State) :
  exists o s' l,
    decode_user_key s = mkRun o s' l /\
    forallb setup_event l = true /\
    (o = Ret tt \/ exists msg, o = Raise msg).
Proof.
  unfold decode_user_key, read_file, base64_decodestring, write_file.
  unfold_m.
  destruct (files (world s) _) as [contents|]; cbn beta iota.
  - destruct (decodestring (world s) contents) as [decoded|]; cbn beta iota.
    + destruct (writable (world s) _); cbn beta iota.
      * eexists _, _, _. split; [reflexivity|]. split; [reflexivity|].
        left; reflexivity.
      * eexists _, _, _. split; [reflexivity|]. split; [reflexivity|].
        right; eexists; reflexivity.
    + eexists _, _, _. split; [reflexivity|]. split; [reflexivity|].
      right; eexists; reflexivity.
  - eexists _, _, _. split; [reflexivity|]. split; [reflexivity|].
    right; eexists; reflexivity.
Qed.

Lemma checkCoherenceClusterExist_run (configData : string) (s : State) :
  checkCoherenceClusterExist configData s =
  mkRun (Ret (coherence_cluster_in configData)) s [].
Proof.
  unfold checkCoherenceClusterExist, checkCoherenceClusterExist_with,
    coherence_cluster_in, re_search.
  unfold_m.
  destruct (Re.search _) as [[first last]|]; reflexivity.
Qed.

Lemma doesCoherenceExist_run (domain_path : string) (s : State) :
  doesCoherenceExist domain_path s =
  match files (world s) (domain_path +++ "/config/config.xml") with
  | Some configData =>
      mkRun (Ret (coherence_cluster_in configData)) s
        [ReadFile (domain_path +++ "/config/config.xml")]
  | None =>
      mkRun (Ret true) s
        [ ReadFile (domain_path +++ "/config/config.xml"); Raised "IOError";
          Print "Shutdown: Exception reading config.xml, assume Coherence exists" ]
  end.
Proof.
  unfold doesCoherenceExist, doesCoherenceExist_with.
  fold checkCoherenceClusterExist.
  rewrite try_bind. unfold read_file.
  unfold bind at 1. unfold emit at 1. cbn beta iota.
  unfold bind at 1. unfold get at 1. cbn beta iota.
  destruct (files (world s) _) as [configData|].
  - unfold ret at 1. cbn [prepend app].
    unfold try_except. rewrite checkCoherenceClusterExist_run. reflexivity.
  - reflexivity.
Qed.

Lemma doesCoherenceExist_returns (domain_path : string) (s : State) :
  exists b l,
    doesCoherenceExist domain_path s = mkRun (Ret b) s l /\
    forallb setup_event l = true.
Proof.
  rewrite doesCoherenceExist_run.
  destruct (files (world s) _); eexists _, _; split; reflexivity.
Qed.

Lemma select_target_run (cfg : Config) (cohExists : bool) (s : State) :
  select_target cfg cohExists (configured_force cfg) s =
  mkRun (Ret (target_url cfg cohExists, force_in_use cfg cohExists)) s
    [Print (announcement cohExists)].
Proof.
  unfold select_target, target_url, force_in_use, announcement.
  destruct cohExists; unfold_m; cbn beta iota; [|reflexivity].
  destruct (String.eqb (admin_name cfg) (server_name cfg)); reflexivity.
Qed.

(** The main script, from the configuration on. *)
Lemma main_run (fuel : nat) (s : State) :
  first_unset (environ (world s)) = None ->
  let cfg := config_of (environ (world s)) in
  (exists msg s1 l1,
     decode_user_key s = mkRun (Raise msg) s1 l1 /\
     main fuel s = mkRun (Raise msg) s1 (Print "Shutdown: main script" :: l1)) \/
  (exists s1 l1 cohExists l2,
     decode_user_key s = mkRun (Ret tt) s1 l1 /\
     doesCoherenceExist (domain_path cfg) s1 = mkRun (Ret cohExists) s1 l2 /\
     forallb setup_event (l1 ++ l2) = true /\
     main fuel s =
     finish (Print "Shutdown: main script" :: l1 ++ l2 ++ [Print (announcement cohExists)])
       (connect_loop fuel cfg cohExists (target_url cfg cohExists)
          (force_in_use cfg cohExists) s1)).
Proof.
  intros Henv cfg.
  assert (Hmain : main fuel s = main fuel s) by reflexivity.
  unfold main at 2 in Hmain.
  unfold bind at 1 in Hmain. unfold print at 1, emit in Hmain.
  cbn beta iota in Hmain.
  unfold bind at 1 in Hmain. rewrite load_config_run, Henv in Hmain.
  cbn beta iota in Hmain. fold cfg in Hmain.
  unfold bind at 1 in Hmain.
  destruct (decode_user_key_cases s) as (o & s1 & l1 & Hd & Hl1 & Ho).
  rewrite Hd in Hmain.
  destruct Ho as [->|[msg ->]]; cbn beta iota in Hmain.
  - right.
    destruct (doesCoherenceExist_returns (domain_path cfg) s1)
      as (coh & l2 & Hc & Hl2).
    unfold bind at 1 in Hmain. rewrite Hc in Hmain. cbn beta iota in Hmain.
    unfold bind at 1 in Hmain. rewrite select_target_run in Hmain.
    cbn beta iota in Hmain. cbn [fst snd] in Hmain.
    exists s1, l1, coh, l2. repeat split; trivial.
    + rewrite forallb_app, Hl1, Hl2. reflexivity.
    + rewrite Hmain. unfold bind, exit_, finish, prepend.
      destruct (connect_loop fuel cfg coh _ _ s1) as [[[]| | |] s' l];
        cbn [app]; rewrite <- ?app_assoc; cbn [app]; rewrite ?app_nil_r;
        reflexivity.
  - left. exists msg, s1, l1. split; [exact Hd|]. rewrite Hmain. reflexivity.
Qed.

(* ===================================================================== *)
(** ** Exit status *)
(* ===================================================================== *)

Lemma followed_by_free (c d : event -> bool) (l l' : list event) :
  existsb c l = false -> followed_by c d (l ++ l') = followed_by c d l'.
Proof.
  induction l as [|e l IH]; intros H; [reflexivity|].
  cbn [existsb] in H. apply orb_false_iff in H. destruct H as [He Hl].
  cbn [app followed_by]. rewrite He, (IH Hl). reflexivity.
Qed.

Lemma verdicts_free (l l' : list event) :
  existsb is_nm_call l = false ->
  existsb is_shutdown l = false ->
  verdicts (l ++ l') = verdicts l'.
Proof.
  intros Hnm Hsd. unfold verdicts, node_manager_killed, node_manager_failed,
    server_shut_down.
  rewrite !followed_by_free; trivial.
  clear - Hnm. induction l as [|e l IH]; [reflexivity|].
  cbn [existsb] in *. apply orb_false_iff in Hnm. destruct Hnm as [He Hl].
  unfold is_nm_call in He. apply orb_false_iff in He.
  rewrite (proj2 He), (IH Hl). reflexivity.
Qed.

Lemma polling_no_shutdown (l : list event) :
  forallb polling_event l = true -> existsb is_shutdown l = false.
Proof. apply polling_not. intros []; cbn; congruence. Qed.

Lemma setup_free (l : list event) :
  forallb setup_event l = true ->
  existsb is_nm_call l = false /\ existsb is_shutdown l = false /\
  existsb is_connect l = false.
Proof.
  induction l as [|e l IH]; intros H; [repeat split|].
  cbn [forallb] in H. apply andb_true_iff in H. destruct H as [He Hl].
  destruct (IH Hl) as (H1 & H2 & H3).
  cbn [existsb]. rewrite H1, H2, H3. destruct e; try discriminate; repeat split.
Qed.

Lemma fallback_path_verdicts (cfg : Config) (e : ending) (l : list event) :
  fallback_path cfg e l -> verdicts l = verdicts_of (ending_outcome e).
Proof. intros H. destruct H; reflexivity. Qed.

Lemma stop_path_verdicts (cfg : Config) (force : string) (e : ending)
    (l : list event) :
  stop_path cfg force e l -> verdicts l = verdicts_of (ending_outcome e).
Proof.
  intros H. destruct H as [e l Hint Hf|t Hint|t msg e l Hint Hf|t Hint];
    try reflexivity;
    rewrite <- (fallback_path_verdicts _ _ _ Hf);
    destruct (fallback_path_once _ _ _ Hf) as (rest & -> & _);
    reflexivity.
Qed.

Lemma attempt_path_verdicts (cfg : Config) (cohExists : bool) (url force : string)
    (e : ending) (l : list event) :
  attempt_path cfg cohExists url force e l ->
  verdicts l = match e with
               | Retry => (false, false, false)
               | _ => verdicts_of (ending_outcome e)
               end.
Proof.
  intros H. destruct H as
    [|msg Hc|msg e l0 Hc Hf|l0 Hc Hl|msg l0 Hc Hl|l0 e l1 Hc Hl Hs|e l1 Hc Hs].
  - reflexivity.
  - reflexivity.
  - replace (match e with Retry => _ | _ => verdicts_of (ending_outcome e) end)
      with (verdicts_of (ending_outcome e))
      by (destruct (fallback_path_final _ _ _ Hf) as [ -> | [ -> | -> ] ]; reflexivity).
    rewrite <- (fallback_path_verdicts _ _ _ Hf).
    destruct (fallback_path_once _ _ _ Hf) as (rest & -> & _). reflexivity.
  - rewrite verdicts_free by reflexivity.
    rewrite <- (app_nil_r l0), verdicts_free;
      [ reflexivity | apply polling_no_nm_call | apply polling_no_shutdown ];
      assumption.
  - rewrite verdicts_free by reflexivity.
    rewrite verdicts_free;
      [ reflexivity | apply polling_no_nm_call | apply polling_no_shutdown ];
      assumption.
  - replace (match e with Retry => _ | _ => verdicts_of (ending_outcome e) end)
      with (verdicts_of (ending_outcome e))
      by (destruct (stop_path_final _ _ _ _ Hs) as [ -> | [ -> | [ -> | -> ] ] ]; reflexivity).
    rewrite verdicts_free by reflexivity.
    rewrite verdicts_free;
      [ | apply polling_no_nm_call; assumption
        | apply polling_no_shutdown; assumption ].
    rewrite verdicts_free by reflexivity.
    apply (stop_path_verdicts _ _ _ _ Hs).
  - replace (match e with Retry => _ | _ => verdicts_of (ending_outcome e) end)
      with (verdicts_of (ending_outcome e))
      by (destruct (stop_path_final _ _ _ _ Hs) as [ -> | [ -> | [ -> | -> ] ] ]; reflexivity).
    rewrite verdicts_free by reflexivity.
    apply (stop_path_verdicts _ _ _ _ Hs).
Qed.

Lemma attempt_retry_no_shutdown (cfg : Config) (cohExists : bool)
    (url force : string) (l : list event) :
  attempt_path cfg cohExists url force Retry l -> existsb is_shutdown l = false.
Proof.
  intros H. inversion H as
    [|msg Hc|msg e l0 Hc Hf|l0 Hc Hl|msg l0 Hc Hl|l0 e l1 Hc Hl Hs|e l1 Hc Hs];
    subst; try (not_retry Hs); try (not_retry Hf).
  - reflexivity.
  - unfold connected, connecting. split_exists.
    rewrite (polling_no_shutdown _ Hl). reflexivity.
Qed.

Lemma loop_path_verdicts (cfg : Config) (cohExists : bool) (url force : string)
    (o : outcome unit) (l : list event) :
  loop_path cfg cohExists url force o l -> verdicts l = verdicts_of o.
Proof.
  intros H. induction H as [|l o l' Ha Hl IH|l Ha|code l Ha|l Ha].
  - reflexivity.
  - destruct (attempt_retry_quiet _ _ _ _ _ Ha) as (_ & _ & Hnm).
    rewrite verdicts_free; trivial.
    apply (attempt_retry_no_shutdown _ _ _ _ _ Ha).
  - apply (attempt_path_verdicts _ _ _ _ _ _ Ha).
  - apply (attempt_path_verdicts _ _ _ _ _ _ Ha).
  - apply (attempt_path_verdicts _ _ _ _ _ _ Ha).
Qed.

Lemma loop_path_outcome (cfg : Config) (cohExists : bool) (url force : string)
    (o : outcome unit) (l : list event) :
  loop_path cfg cohExists url force o l ->
  o = Ret tt \/ o = Exit 0%Z \/ o = Exit 2%Z \/ o = Killed.
Proof.
  intros H. induction H as [|l o l' Ha Hl IH|l Ha|code l Ha|l Ha]; auto.
  assert (He : Exited code = Exited 0 \/ Exited code = Exited 2).
  { inversion Ha as
      [|msg Hc|msg e l0 Hc Hf|l0 Hc Hl|msg l0 Hc Hl|l0 e l1 Hc Hl Hs|e l1 Hc Hs];
      subst.
    - destruct (fallback_path_final _ _ _ Hf) as [|[|]]; auto; discriminate.
    - destruct (stop_path_final _ _ _ _ Hs) as [|[|[|]]]; auto; discriminate.
    - destruct (stop_path_final _ _ _ _ Hs) as [|[|[|]]]; auto; discriminate. }
  destruct He as [He|He]; injection He as ->; auto.
Qed.

Lemma main_verdicts (fuel : nat) (s : State) :
  let r := main fuel s in
  (out r = Exit 1%Z \/ exists msg, out r = Raise msg) /\
  verdicts (log r) = (false, false, false) \/
  exists o, (o = Ret tt \/ o = Exit 0%Z \/ o = Exit 2%Z \/ o = Killed) /\
            verdicts (log r) = verdicts_of o /\
            out r = match o with Ret _ => Exit 0%Z | _ => o end.
Proof.
  intros r. subst r.
  destruct (first_unset (environ (world s))) as [var|] eqn:Henv.
  - left. rewrite (main_unset fuel s var Henv). split; [left|]; reflexivity.
  - destruct (main_run fuel s Henv) as
      [(msg & s1 & l1 & Hd & ->)|(s1 & l1 & coh & l2 & Hd & Hc & Hl & ->)].
    + left. split; [right; exists msg; reflexivity|].
      destruct (decode_user_key_cases s) as (o & s' & l & Hd' & Hl & _).
      rewrite Hd in Hd'. injection Hd' as _ _ <-.
      cbn [log]. change (Print "Shutdown: main script" :: l1)
        with ([Print "Shutdown: main script"] ++ l1).
      rewrite verdicts_free by reflexivity.
      destruct (setup_free _ Hl) as (H1 & H2 & _).
      rewrite <- (app_nil_r l1), verdicts_free; trivial.
    + right.
      set (cfg := config_of (environ (world s))) in *.
      pose proof (connect_loop_sound cfg (target_url cfg coh)
                    (force_in_use cfg coh) coh fuel s1) as Hp.
      cbn zeta in Hp.
      destruct (connect_loop fuel cfg coh _ _ s1) as [o s' l].
      cbn [out log] in Hp.
      exists o. split; [apply (loop_path_outcome _ _ _ _ _ _ Hp)|].
      split.
      * rewrite <- (loop_path_verdicts _ _ _ _ _ _ Hp).
        destruct (setup_free _ Hl) as (H1 & H2 & _).
        assert (Hlog : log (finish (Print "Shutdown: main script" :: l1 ++ l2 ++
                                    [Print (announcement coh)]) (mkRun o s' l)) =
                       ([Print "Shutdown: main script"] ++ (l1 ++ l2) ++
                        [Print (announcement coh)]) ++ l).
        { destruct o as [[]| | |]; cbn [finish log app];
            rewrite <- ?app_assoc; reflexivity. }
        rewrite Hlog. clear Hlog. revert H1 H2. generalize (l1 ++ l2).
        intros l12 H1 H2. apply verdicts_free.
        -- rewrite !existsb_app, H1. reflexivity.
        -- rewrite !existsb_app, H2. reflexivity.
      * destruct o as [[]| | |]; reflexivity.
Qed.

(** C9.  The process exits with status 0 whenever the server was stopped,
    by [shutdown] or by the NodeManager, and with status 2 when the
    NodeManager failed:
    - a run in which [nmKill] completed exits with status 0;
    - a run in which [nmConnect] or [nmKill] raised exits with status 2;
    - a run in which [shutdown] completed exits with status 0. *)
Theorem exit_status_tells_whether_server_stopped (fuel : nat) (s : State) :
  let r := main fuel s in
  (node_manager_killed (log r) = true -> out r = Exit 0%Z) /\
  (node_manager_failed (log r) = true -> out r = Exit 2%Z) /\
  (server_shut_down (log r) = true -> out r = Exit 0%Z).
Proof.
  intros r.
  destruct (main_verdicts fuel s) as [[_ Hv]|(o & Ho & Hv & Hout)];
    fold r in Hv; unfold verdicts in Hv.
  - injection Hv as H1 H2 H3. rewrite H1, H2, H3.
    repeat split; discriminate.
  - fold r in Hout. rewrite Hout.
    destruct Ho as [ -> | [ -> | [ -> | -> ] ] ]; cbn [verdicts_of Z.eqb] in Hv; injection Hv as H1 H2 H3;
      rewrite H1, H2, H3; repeat split; try discriminate; reflexivity.
Qed.

(* ===================================================================== *)
(** ** Connection target and force flag *)
(* ===================================================================== *)

Lemma polling_aims (url force : string) (l : list event) :
  forallb polling_event l = true -> Forall (aims_at url force) l.
Proof.
  induction l as [|e l IH]; intros H; constructor.
  - cbn [forallb] in H. apply andb_true_iff in H.
    destruct e; try exact I; destruct H; discriminate.
  - apply IH. cbn [forallb] in H. apply andb_true_iff in H. apply H.
Qed.

Lemma setup_aims (url force : string) (l : list event) :
  forallb setup_event l = true -> Forall (aims_at url force) l.
Proof.
  induction l as [|e l IH]; intros H; constructor.
  - cbn [forallb] in H. apply andb_true_iff in H.
    destruct e; try exact I; destruct H; discriminate.
  - apply IH. cbn [forallb] in H. apply andb_true_iff in H. apply H.
Qed.

Ltac aims :=
  repeat first
    [ assumption
    | apply Forall_nil
    | apply Forall_cons; [ first [ exact I | reflexivity ] | ]
    | apply Forall_app; split
    | apply polling_aims; assumption ].

Lemma fallback_path_aims (cfg : Config) (url force : string) (e : ending)
    (l : list event) :
  fallback_path cfg e l -> Forall (aims_at url force) l.
Proof. intros H. destruct H; unfold nm_killing, nm_connecting, nm_failed, nm_killed; aims. Qed.

Lemma stop_path_aims (cfg : Config) (url force : string) (e : ending)
    (l : list event) :
  stop_path cfg force e l -> Forall (aims_at url force) l.
Proof.
  intros H. destruct H as [e l Hint Hf|t Hint|t msg e l Hint Hf|t Hint];
    try pose proof (fallback_path_aims cfg url force _ _ Hf);
    unfold calling, failure_head; aims.
Qed.

Lemma attempt_path_aims (cfg : Config) (cohExists : bool) (url force : string)
    (e : ending) (l : list event) :
  attempt_path cfg cohExists url force e l -> Forall (aims_at url force) l.
Proof.
  intros H. destruct H as
    [|msg Hc|msg e l0 Hc Hf|l0 Hc Hl|msg l0 Hc Hl|l0 e l1 Hc Hl Hs|e l1 Hc Hs];
    try pose proof (fallback_path_aims cfg url force _ _ Hf);
    try pose proof (stop_path_aims cfg url force _ _ Hs);
    unfold connected, connecting, confirmed, failure_head, retry_tail; aims.
Qed.

Lemma loop_path_aims (cfg : Config) (cohExists : bool) (url force : string)
    (o : outcome unit) (l : list event) :
  loop_path cfg cohExists url force o l -> Forall (aims_at url force) l.
Proof.
  intros H. induction H as [|l o l' Ha Hl IH|l Ha|code l Ha|l Ha];
    try (apply (attempt_path_aims _ _ _ _ _ _ Ha)).
  - constructor.
  - apply Forall_app. split; [apply (attempt_path_aims _ _ _ _ _ _ Ha) | exact IH].
Qed.

Lemma main_aims (fuel : nat) (s s1 : State) (l1 : list event) (cohExists : bool) :
  first_unset (environ (world s)) = None ->
  let cfg := config_of (environ (world s)) in
  decode_user_key s = mkRun (Ret tt) s1 l1 ->
  out (doesCoherenceExist (domain_path cfg) s1) = Ret cohExists ->
  Forall (aims_at (target_url cfg cohExists) (force_in_use cfg cohExists))
    (log (main fuel s)).
Proof.
  intros Henv cfg Hd Hc.
  destruct (main_run fuel s Henv) as
    [(msg & s1' & l1' & Hd' & _)|(s1' & l1' & coh & l2 & Hd' & Hc' & Hl & Hmain)];
    rewrite Hd in Hd'; [discriminate|].
  injection Hd' as Hs1 Hl1. subst s1' l1'. fold cfg in Hc', Hmain.
  rewrite Hc' in Hc. injection Hc as Hcoh. subst coh.
  pose proof (connect_loop_sound cfg (target_url cfg cohExists)
                (force_in_use cfg cohExists) cohExists fuel s1) as Hp.
  cbn zeta in Hp. apply loop_path_aims in Hp.
  rewrite Hmain.
  destruct (connect_loop fuel cfg cohExists _ _ s1) as [o s' l]. cbn [log] in Hp.
  assert (Hlog : log (finish (Print "Shutdown: main script" :: l1 ++ l2 ++
                              [Print (announcement cohExists)]) (mkRun o s' l)) =
                 ([Print "Shutdown: main script"] ++ (l1 ++ l2) ++
                  [Print (announcement cohExists)]) ++ l).
  { destruct o as [[]| | |]; cbn [finish log app];
      rewrite <- ?app_assoc; reflexivity. }
  rewrite Hlog. pose proof (setup_aims (target_url cfg cohExists)
                              (force_in_use cfg cohExists) _ Hl).
  aims.
Qed.

(** C8.  The connection target and the force flag of the run follow the
    verdict of [doesCoherenceExist].  With a Coherence cluster every
    [connect] goes to the admin endpoint, and when the server being
    stopped is the admin server ([ADMIN_NAME] equals [SERVER_NAME]) every
    [shutdown] carries the force flag 'true', whatever [SHUTDOWN_TYPE_ARG]
    says.  Without a cluster every [connect] goes to the local server
    endpoint and every [shutdown] carries the configured force flag: 'true'
    when [SHUTDOWN_TYPE_ARG] is 'forced' in any letter case, 'false'
    otherwise. *)
Theorem target_and_force_follow_topology
    (fuel : nat) (s s1 : State) (l1 : list event) (cohExists : bool) :
  first_unset (environ (world s)) = None ->
  let cfg := config_of (environ (world s)) in
  decode_user_key s = mkRun (Ret tt) s1 l1 ->
  out (doesCoherenceExist (domain_path cfg) s1) = Ret cohExists ->
  let r := main fuel s in
  (cohExists = true ->
   (forall url domainName domainDir,
      In (Connect url domainName domainDir) (log r) ->
      url = local_admin_protocol cfg +++ "://" +++ admin_host cfg +++ ":"
            +++ admin_port cfg) /\
   (admin_name cfg = server_name cfg ->
    forall args, In (Shutdown args) (log r) -> sd_force args = "true")) /\
  (cohExists = false ->
   (forall url domainName domainDir,
      In (Connect url domainName domainDir) (log r) ->
      url = local_admin_protocol cfg +++ "://" +++ service_name cfg +++ ":"
            +++ local_admin_port cfg) /\
   (forall args, In (Shutdown args) (log r) ->
      sd_force args =
      if String.eqb (PyStr.lower (shutdown_type cfg)) "forced"
      then "true" else "false")).
Proof.
  intros Henv cfg Hd Hc r.
  pose proof (main_aims fuel s s1 l1 cohExists Henv Hd Hc) as Haims.
  fold cfg r in Haims. rewrite Forall_forall in Haims.
  split; intros ->; (split; [ intros url dn dd Hin; apply (Haims _ Hin) | ]).
  - intros Hadmin args Hin. apply Haims in Hin. cbn in Hin.
    unfold force_in_use in Hin. cbn [andb] in Hin.
    rewrite (proj2 (String.eqb_eq _ _) Hadmin) in Hin. exact Hin.
  - intros args Hin. apply (Haims _ Hin).
Qed.

(* ===================================================================== *)
(** ** Exceptions during the safety wait *)
(* ===================================================================== *)

Lemma poll_never_enumerates (objectName : string) (fuel : nat) (s : State) :
  existsb is_query (log (waitUntilServiceSafeToShutdown fuel objectName s)) = false.
Proof.
  rewrite waitUntilServiceSafeToShutdown_run, log_prepend. cbn [app existsb is_query orb].
  revert s. induction fuel as [|fuel IH]; intros s; [reflexivity|].
  destruct (getAttribute_replies (world s)) as [|r rest] eqn:H.
  - rewrite (poll_killed _ _ _ H). reflexivity.
  - destruct (keeps_waiting r) eqn:Hr.
    + rewrite (poll_again _ _ _ _ _ H Hr), log_prepend, existsb_app, IH.
      destruct r as [[status|]|msg]; cbn; try reflexivity.
      destruct (String.eqb status "ENDANGERED"); reflexivity.
    + destruct r as [status|msg]; [|discriminate].
      rewrite (poll_released _ _ _ _ _ H)
        by (unfold safe_status; rewrite Hr; reflexivity).
      destruct status as [status|]; cbn; try reflexivity.
      destruct (String.eqb status "ENDANGERED"); reflexivity.
Qed.

Lemma enumerate_again (fuel inner : nat) (s : State) (msg : string)
    (rest : list (reply (list ObjectInstance))) :
  done s = false ->
  queryMBeans_replies (world s) = Raises msg :: rest ->
  enumerate (S fuel) inner s =
  prepend (unavailable_log (Raises msg) (warnSleep s))
    (enumerate fuel inner (with_queries rest s)).
Proof.
  intros Hdone Hq. rewrite (enumerate_S _ _ _ Hdone).
  rewrite (coherenceSafe_body_unavailable _ _ _ _ Hq eq_refl). reflexivity.
Qed.

(** C3, as the script has it.  An exception raised by the health query of a
    service is logged and followed by a sleep of 10, after which the same
    service is queried again: the poll of a service never enumerates.  It
    is an exception raised by the enumeration itself that is logged,
    followed by a sleep of 10, and then by a new enumeration of all
    services. *)
Theorem health_failure_retries_service_enumeration_failure_reenumerates :
  (forall fuel objectName s msg rest,
     getAttribute_replies (world s) = Raises msg :: rest ->
     poll (S fuel) objectName s =
     prepend
       [ GetAttribute objectName "HAStatus"; Raised msg;
         Print "Shutdown: An exception occurred getting Coherence MBeans, staying in loop checking for safe";
         PrintExc; DumpStack; Sleep 10 ]
       (poll fuel objectName (with_attributes rest s))) /\
  (forall fuel objectName s,
     existsb is_query (log (waitUntilServiceSafeToShutdown fuel objectName s)) = false) /\
  (forall fuel inner s msg rest,
     done s = false ->
     queryMBeans_replies (world s) = Raises msg :: rest ->
     enumerate (S fuel) inner s =
     prepend
       [ QueryMBeans query; Raised msg;
         Print "Shutdown: Exception checking a service Coherence HAStatus, retrying...";
         PrintExc; DumpStack; Sleep 10 ]
       (enumerate fuel inner (with_queries rest s))).
Proof.
  split; [ | split ].
  - intros fuel objectName s msg rest H.
    apply (poll_again fuel objectName s (Raises msg) rest H eq_refl).
  - intros fuel objectName s. apply poll_never_enumerates.
  - intros fuel inner s msg rest Hdone Hq.
    apply (enumerate_again fuel inner s msg rest Hdone Hq).
Qed.

(** C3 as stated fails: in this run a health query raises, and the next
    JMX call is the health query of the same service; the run makes one
    enumeration in all, and returns. *)
Lemma health_failure_does_not_reenumerate :
  let r := waitUntilCoherenceSafe 3 Sample.health_query_fails in
  out r = Ret tt /\
  List.length (filter is_query (log r)) = 1 /\
  reenumerates_after_health_failure (log r) = false.
Proof. vm_compute. repeat split. Qed.

(* ===================================================================== *)
(** ** The topology detector *)
(* ===================================================================== *)

(** C7.  Whatever goes wrong while the configuration is read or scanned,
    the detector answers that a Coherence cluster exists, and the
    exception goes no further: when config.xml cannot be opened or read,
    and when the scan of its content raises, [doesCoherenceExist] returns
    [True]; so does [checkCoherenceClusterExist] when its scan raises. *)
Theorem detector_fails_safe
    (engine : string -> reply (option (nat * nat))) (domain_path : string)
    (s : State) :
  (files (world s) (domain_path +++ "/config/config.xml") = None ->
   out (doesCoherenceExist_with engine domain_path s) = Ret true) /\
  (forall configData msg,
     engine (PyStr.join "" (PyStr.split configData)) = Raises msg ->
     out (checkCoherenceClusterExist_with engine configData s) = Ret true /\
     (files (world s) (domain_path +++ "/config/config.xml") = Some configData ->
      out (doesCoherenceExist_with engine domain_path s) = Ret true)).
Proof.
  split.
  - intros H. unfold doesCoherenceExist_with, read_file. unfold_m.
    rewrite H. reflexivity.
  - intros configData msg He. split.
    + unfold checkCoherenceClusterExist_with. unfold_m. rewrite He. reflexivity.
    + intros H. unfold doesCoherenceExist_with, checkCoherenceClusterExist_with,
        read_file. unfold_m. rewrite H. cbn beta iota. rewrite He. reflexivity.
Qed.

Lemma join_cons_char (c : ascii) (w : string) (ws : list string) :
  PyStr.join "" (String c w :: ws) = String c (PyStr.join "" (w :: ws)).
Proof. destruct ws; reflexivity. Qed.

(** [''.join(configData.split())] removes the blanks and nothing else. *)
Lemma spaceless_removes_blanks (configData : string) :
  spaceless configData = remove_blanks configData.
Proof.
  unfold spaceless. induction configData as [|c s IH]; [reflexivity|].
  cbn [PyStr.split remove_blanks].
  destruct (PyStr.is_space c); [exact IH|].
  rewrite <- IH. clear IH. destruct s as [|d s]; [reflexivity|].
  destruct (PyStr.is_space d).
  - destruct (PyStr.split (String d s)); reflexivity.
  - destruct (PyStr.split (String d s)) as [|w ws]; [reflexivity|].
    apply join_cons_char.
Qed.

Lemma prefix_split (p s : string) :
  String.prefix p s = true -> exists rest, s = p +++ rest.
Proof.
  revert s. induction p as [|c p IH]; intros s H.
  - exists s. reflexivity.
  - destruct s as [|d s]; [discriminate|]. cbn [String.prefix] in H.
    destruct (Ascii.ascii_dec c d) as [->|]; [|discriminate].
    destruct (IH s H) as [rest ->]. exists rest. reflexivity.
Qed.

Lemma prefix_append (p rest : string) : String.prefix p (p +++ rest) = true.
Proof.
  induction p as [|c p IH]; [destruct rest; reflexivity|].
  cbn [String.append String.prefix].
  destruct (Ascii.ascii_dec c c); [exact IH | contradiction].
Qed.

Lemma drop_append (p rest : string) : PyStr.drop (String.length p) (p +++ rest) = rest.
Proof.
  induction p as [|c p IH]; [destruct rest; reflexivity | exact IH].
Qed.

Lemma append_assoc (a b c : string) : (a +++ b) +++ c = a +++ b +++ c.
Proof. induction a as [|x a IH]; [reflexivity|]. cbn. rewrite IH. reflexivity. Qed.

Lemma length_append (a b : string) :
  String.length (a +++ b) = String.length a + String.length b.
Proof. induction a as [|x a IH]; [reflexivity|]. cbn. rewrite IH. reflexivity. Qed.

Lemma lazy_any_then_here (lit s : string) :
  String.prefix lit s = true -> Re.lazy_any_then lit s = Some (String.length lit).
Proof. intros H. destruct s; cbn [Re.lazy_any_then]; rewrite H; reflexivity. Qed.

(** The lazy star stops at the first occurrence of the literal. *)
Lemma lazy_any_then_first (lit : string) :
  forall content rest,
    (forall a b, content +++ lit +++ rest = a +++ lit +++ b ->
                 String.length content <= String.length a) ->
    Re.lazy_any_then lit (content +++ lit +++ rest) =
    Some (String.length content + String.length lit).
Proof.
  induction content as [|c content IH]; intros rest Hfirst.
  - cbn [String.append String.length Nat.add].
    apply lazy_any_then_here. apply prefix_append.
  - cbn [String.append Re.lazy_any_then].
    destruct (String.prefix lit (String c (content +++ lit +++ rest))) eqn:Hp.
    + apply prefix_split in Hp. destruct Hp as [b Hb].
      specialize (Hfirst EmptyString b Hb). cbn in Hfirst. lia.
    + rewrite IH; [reflexivity|].
      intros a b Hab. specialize (Hfirst (String c a) b).
      cbn [String.append String.length] in Hfirst.
      rewrite Hab in Hfirst. specialize (Hfirst eq_refl). lia.
Qed.

Lemma lazy_any_then_found (lit : string) :
  forall s n,
    Re.lazy_any_then lit s = Some n ->
    exists content rest,
      s = content +++ lit +++ rest /\
      n = String.length content + String.length lit.
Proof.
  induction s as [|c s IH]; intros n H; cbn [Re.lazy_any_then] in H.
  - destruct (String.prefix lit EmptyString) eqn:Hp; [|discriminate].
    injection H as <-. apply prefix_split in Hp. destruct Hp as [rest Hrest].
    exists EmptyString, rest. split; [exact Hrest | reflexivity].
  - destruct (String.prefix lit (String c s)) eqn:Hp.
    + injection H as <-. apply prefix_split in Hp. destruct Hp as [rest Hrest].
      exists EmptyString, rest. split; [exact Hrest | reflexivity].
    + destruct (Re.lazy_any_then lit s) as [m|] eqn:Hm; [|discriminate].
      injection H as <-. destruct (IH m eq_refl) as (content & rest & -> & ->).
      exists (String c content), rest. split; reflexivity.
Qed.

(** [re.search] finds the first element. *)
Lemma search_first (content after_ : string) :
  (forall a b, content +++ Re.CLOSE_TAG +++ after_ = a +++ Re.CLOSE_TAG +++ b ->
               String.length content <= String.length a) ->
  forall before,
    (forall a b,
       before +++ Re.OPEN_TAG +++ content +++ Re.CLOSE_TAG +++ after_ =
       a +++ Re.OPEN_TAG +++ b ->
       String.length before <= String.length a) ->
    Re.search (before +++ Re.OPEN_TAG +++ content +++ Re.CLOSE_TAG +++ after_) =
    Some (String.length before,
          String.length before + String.length Re.OPEN_TAG +
          String.length content + String.length Re.CLOSE_TAG).
Proof.
  intros Hclose.
  assert (Hhere : Re.match_here (Re.OPEN_TAG +++ content +++ Re.CLOSE_TAG +++ after_) =
                  Some (String.length Re.OPEN_TAG + (String.length content +
                        String.length Re.CLOSE_TAG))).
  { unfold Re.match_here. rewrite prefix_append, drop_append.
    rewrite (lazy_any_then_first _ _ _ Hclose). reflexivity. }
  induction before as [|c before IH]; intros Hopen.
  - cbn [String.append].
    assert (Hs : Re.search (Re.OPEN_TAG +++ content +++ Re.CLOSE_TAG +++ after_) =
                 Some (0, String.length Re.OPEN_TAG + (String.length content +
                          String.length Re.CLOSE_TAG))).
    { destruct (Re.OPEN_TAG +++ content +++ Re.CLOSE_TAG +++ after_);
        cbn [Re.search]; rewrite Hhere; reflexivity. }
    rewrite Hs. cbn [String.length]. do 2 f_equal; try lia.
  - cbn [String.append Re.search].
    assert (Hno : Re.match_here
                    (String c (before +++ Re.OPEN_TAG +++ content +++
                               Re.CLOSE_TAG +++ after_)) = None).
    { unfold Re.match_here.
      destruct (String.prefix Re.OPEN_TAG _) eqn:Hp; [|reflexivity].
      apply prefix_split in Hp. destruct Hp as [b Hb].
      specialize (Hopen EmptyString b Hb). cbn in Hopen. lia. }
    rewrite Hno, IH.
    + cbn [option_map fst snd String.length]. f_equal.
    + intros a b Hab. specialize (Hopen (String c a) b).
      cbn [String.append String.length] in Hopen. rewrite Hab in Hopen.
      specialize (Hopen eq_refl). lia.
Qed.

Lemma match_here_found (s : string) (n : nat) :
  Re.match_here s = Some n ->
  exists content rest,
    s = Re.OPEN_TAG +++ content +++ Re.CLOSE_TAG +++ rest /\
    n = String.length Re.OPEN_TAG + (String.length content +
                                     String.length Re.CLOSE_TAG).
Proof.
  unfold Re.match_here. intros H.
  destruct (String.prefix Re.OPEN_TAG s) eqn:Hp; [|discriminate].
  apply prefix_split in Hp. destruct Hp as [tail ->].
  rewrite drop_append in H.
  destruct (Re.lazy_any_then Re.CLOSE_TAG tail) as [m|] eqn:Hm; [|discriminate].
  injection H as <-.
  destruct (lazy_any_then_found _ _ _ Hm) as (content & rest & -> & ->).
  exists content, rest. split; reflexivity.
Qed.

Lemma search_found :
  forall s first last,
    Re.search s = Some (first, last) ->
    exists before content after_,
      holds_element s before content after_ /\
      String.length before = first /\
      last = first + String.length Re.OPEN_TAG + String.length content +
             String.length Re.CLOSE_TAG.
Proof.
  unfold holds_element.
  induction s as [|c s IH]; intros first last H; cbn [Re.search] in H.
  - destruct (Re.match_here EmptyString) as [n|] eqn:Hm; [|discriminate].
    injection H as <- <-.
    destruct (match_here_found _ _ Hm) as (content & rest & Hs & ->).
    exists EmptyString, content, rest. repeat split; trivial; try lia.
  - destruct (Re.match_here (String c s)) as [n|] eqn:Hm.
    + injection H as <- <-.
      destruct (match_here_found _ _ Hm) as (content & rest & Hs & ->).
      exists EmptyString, content, rest. repeat split; trivial; try lia.
    + destruct (Re.search s) as [[f l]|] eqn:Hs; [|discriminate].
      injection H as <- <-.
      destruct (IH f l eq_refl) as (before & content & rest & -> & <- & ->).
      exists (String c before), content, rest. repeat split; cbn; try lia.
Qed.

(** What the detector does with every configuration: it answers by the
    first element of the text without blanks, [True] when that element has
    content and [False] when it is empty; it answers [False] when the text
    holds no such element. *)
Lemma detector_reads_first_element (configData : string) :
  (forall before content after_,
     first_element (spaceless configData) before content after_ ->
     coherence_cluster_in configData = negb (String.eqb content "")) /\
  ((forall before content after_,
      ~ holds_element (spaceless configData) before content after_) ->
   coherence_cluster_in configData = false) /\
  (coherence_cluster_in configData = true ->
   exists before content after_,
     holds_element (spaceless configData) before content after_ /\
     content <> "").
Proof.
  unfold coherence_cluster_in. fold (spaceless configData).
  split; [ | split ].
  - intros before content after_ (Hholds & Hopen & Hclose).
    unfold holds_element in Hholds. rewrite Hholds in *.
    rewrite (search_first content after_ Hclose before Hopen).
    change (String.length Re.OPEN_TAG) with 35.
    change (String.length Re.CLOSE_TAG) with 36.
    change (String.length Re.ELEMENT_NAME) with 33.
    destruct content as [|c content]; cbn [String.eqb negb String.length].
    + rewrite Z.gtb_ltb. apply Z.ltb_ge. lia.
    + rewrite Z.gtb_ltb. apply Z.ltb_lt. lia.
  - intros Hnone.
    destruct (Re.search (spaceless configData)) as [[first last]|] eqn:Hs;
      [|reflexivity].
    destruct (search_found _ _ _ Hs) as (before & content & after_ & Hh & _).
    destruct (Hnone _ _ _ Hh).
  - intros Htrue.
    destruct (Re.search (spaceless configData)) as [[first last]|] eqn:Hs;
      [|discriminate].
    destruct (search_found _ _ _ Hs) as (before & content & after_ & Hh & <- & ->).
    exists before, content, after_. split; [exact Hh|].
    intros ->. revert Htrue.
    change (String.length Re.OPEN_TAG) with 35.
    change (String.length Re.CLOSE_TAG) with 36.
    change (String.length Re.ELEMENT_NAME) with 33.
    cbn [String.length]. rewrite Z.gtb_ltb. intros Htrue.
    apply Z.ltb_lt in Htrue. lia.
Qed.

(** C6 fails on the script: this configuration declares an empty
    coherence-cluster-system-resource before the one that is in use, and
    the detector, which looks at the first match of its pattern only,
    answers that the domain has no Coherence cluster. *)
Theorem empty_resource_hides_cluster (s : State) :
  (exists before after_,
     holds_element (spaceless Sample.empty_then_cluster)
       before "<name>cluster-1</name>" after_) /\
  checkCoherenceClusterExist Sample.empty_then_cluster s = mkRun (Ret false) s [].
Proof.
  split.
  - exists ("<domain>" +++ Re.OPEN_TAG +++ Re.CLOSE_TAG), "</domain>".
    vm_compute. reflexivity.
  - rewrite checkCoherenceClusterExist_run. vm_compute. reflexivity.
Qed.

(* ===================================================================== *)
(** ** The theorems at work on sample runs *)
(* ===================================================================== *)

Lemma unset_variable_exits_1_witness :
  In "SHUTDOWN_TIMEOUT_ARG" required_vars /\
  environ (world Sample.timeout_unset) "SHUTDOWN_TIMEOUT_ARG" = None /\
  exists first,
    In first required_vars /\
    environ (world Sample.timeout_unset) first = None /\
    first_unset (environ (world Sample.timeout_unset)) = Some first /\
    ((forall u, In u required_vars -> u <> "SHUTDOWN_TIMEOUT_ARG" ->
                environ (world Sample.timeout_unset) u <> None) ->
     first = "SHUTDOWN_TIMEOUT_ARG") /\
    main 5 Sample.timeout_unset =
    mkRun (Exit 1%Z) Sample.timeout_unset
      [Print "Shutdown: main script"; Print (env_error first)].
Proof.
  assert (Hin : In "SHUTDOWN_TIMEOUT_ARG" required_vars)
    by (unfold required_vars; simpl; tauto).
  split; [exact Hin|]. split; [reflexivity|].
  apply (unset_variable_exits_1 5 Sample.timeout_unset "SHUTDOWN_TIMEOUT_ARG" Hin).
  reflexivity.
Defined.

(** C10 as stated fails when a variable read earlier is missing too: with
    no variable set, [ADMIN_NAME] is unset and the script exits with
    status 1, but the only error it prints names [DOMAIN_UID]. *)
Lemma later_unset_variable_is_not_named :
  let r := main 5 Sample.nothing_set in
  In "ADMIN_NAME" required_vars /\
  environ (world Sample.nothing_set) "ADMIN_NAME" = None /\
  out r = Exit 1%Z /\
  ~ In (Print (env_error "ADMIN_NAME")) (log r) /\
  log r = [Print "Shutdown: main script"; Print (env_error "DOMAIN_UID")].
Proof.
  cbv zeta. split; [unfold required_vars; simpl; tauto|].
  split; [reflexivity|]. split; [reflexivity|]. split; [|reflexivity].
  vm_compute. intros [H|[H|[]]]; discriminate H.
Qed.

Lemma wait_returns_exactly_after_first_settled_pass_witness :
  let s := Sample.rolling_restart in
  let fails := [Raises "bean not found"; Ok []] in
  let beans := [Sample.cache; Sample.sessions] in
  let obs := [ ([Ok (Some "ENDANGERED"); Raises "timed out"], Some "NODE-SAFE");
               ([], None) ] in
  settled_pass s [] fails beans [] obs [] /\
  in_time 5 fails obs /\
  let r := waitUntilCoherenceSafe 5 s in
  out r = Ret tt /\
  queryMBeans_replies (world (after r)) = [] /\
  getAttribute_replies (world (after r)) = [] /\
  log r = wait_log fails beans obs.
Proof.
  intros s fails beans obs.
  assert (Hpass : settled_pass s [] fails beans [] obs [])
    by (constructor; try reflexivity; discriminate).
  assert (Htime : in_time 5 fails obs).
  { split; [simpl; lia|]. intros o [<-|[<-|[]]]; simpl; lia. }
  split; [exact Hpass|]. split; [exact Htime|].
  exact (proj1 wait_returns_exactly_after_first_settled_pass
           5 s [] fails beans [] obs [] Hpass Htime).
Defined.

Lemma health_failure_retries_service_enumeration_failure_reenumerates_witness :
  let s := Sample.health_query_fails in
  let name := getObjectName Sample.cache in
  getAttribute_replies (world s) = [Raises "timed out"; Ok (Some "NODE-SAFE")] /\
  poll 2 name s =
  prepend
    [ GetAttribute name "HAStatus"; Raised "timed out";
      Print "Shutdown: An exception occurred getting Coherence MBeans, staying in loop checking for safe";
      PrintExc; DumpStack; Sleep 10 ]
    (poll 1 name (with_attributes [Ok (Some "NODE-SAFE")] s)).
Proof.
  intros s name. split; [reflexivity|].
  exact (proj1 health_failure_retries_service_enumeration_failure_reenumerates
           1 name s "timed out" [Ok (Some "NODE-SAFE")] eq_refl).
Defined.

Lemma no_fallback_before_safety_confirmed_witness :
  let s := Sample.contended in
  let fs := [ConnectFailed "connection refused";
             DomainRuntimeFailed "no domain runtime"] in
  let cfg := config_of Sample.managed in
  connect_replies (world s) = map connect_reply_of fs /\
  domainRuntime_replies (world s) = flat_map domainRuntime_replies_of fs ++ [] /\
  2 < 5 /\
  let r := connect_loop 5 cfg true (admin_endpoint cfg) "false" s in
  out r = Killed /\
  log r = flat_map (contention_log cfg (admin_endpoint cfg)) fs ++
          connecting cfg (admin_endpoint cfg) /\
  List.length (filter (is_sleep 10) (log r)) = 2 /\
  existsb is_nm_call (log r) = false.
Proof.
  intros s fs cfg.
  split; [reflexivity|]. split; [reflexivity|]. split; [lia|].
  apply (proj1 no_fallback_before_safety_confirmed cfg (admin_endpoint cfg)
           "false" fs 5 s []); [reflexivity | reflexivity | simpl; lia].
Defined.

Lemma detector_fails_safe_witness :
  files (world Sample.config_missing)
    ("/shared/domains/base_domain" +++ "/config/config.xml") = None /\
  out (doesCoherenceExist "/shared/domains/base_domain" Sample.config_missing) =
  Ret true.
Proof.
  split; [reflexivity|].
  apply (proj1 (detector_fails_safe re_search "/shared/domains/base_domain"
                  Sample.config_missing)).
  reflexivity.
Defined.

Lemma target_and_force_follow_topology_witness :
  let s := Sample.admin_server in
  let s1 := after (decode_user_key s) in
  let l1 := log (decode_user_key s) in
  let cfg := config_of (environ (world s)) in
  first_unset (environ (world s)) = None /\
  decode_user_key s = mkRun (Ret tt) s1 l1 /\
  out (doesCoherenceExist (domain_path cfg) s1) = Ret true /\
  admin_name cfg = server_name cfg /\
  In (Shutdown (shutdown_args cfg "true" 30)) (log (main 5 s)) /\
  sd_force (shutdown_args cfg "true" 30) = "true".
Proof.
  intros s s1 l1 cfg.
  assert (Henv : first_unset (environ (world s)) = None) by reflexivity.
  assert (Hd : decode_user_key s = mkRun (Ret tt) s1 l1) by reflexivity.
  assert (Hc : out (doesCoherenceExist (domain_path cfg) s1) = Ret true)
    by (vm_compute; reflexivity).
  assert (Hin : In (Shutdown (shutdown_args cfg "true" 30)) (log (main 5 s)))
    by (vm_compute; tauto).
  split; [exact Henv|]. split; [exact Hd|]. split; [exact Hc|].
  split; [reflexivity|]. split; [exact Hin|].
  exact (proj2 (proj1 (target_and_force_follow_topology 5 s s1 l1 true Henv Hd Hc)
                  eq_refl) eq_refl _ Hin).
Defined.

Lemma exit_status_tells_whether_server_stopped_witness :
  (node_manager_killed (log (main 5 Sample.killed_by_node_manager)) = true /\
   out (main 5 Sample.killed_by_node_manager) = Exit 0%Z) /\
  (node_manager_failed (log (main 5 Sample.node_manager_down)) = true /\
   out (main 5 Sample.node_manager_down) = Exit 2%Z) /\
  (server_shut_down (log (main 5 Sample.graceful)) = true /\
   out (main 5 Sample.graceful) = Exit 0%Z).
Proof.
  assert (H1 : node_manager_killed (log (main 5 Sample.killed_by_node_manager)) = true)
    by (vm_compute; reflexivity).
  assert (H2 : node_manager_failed (log (main 5 Sample.node_manager_down)) = true)
    by (vm_compute; reflexivity).
  assert (H3 : server_shut_down (log (main 5 Sample.graceful)) = true)
    by (vm_compute; reflexivity).
  split; [ split; [exact H1|] | split; [ split; [exact H2|] | split; [exact H3|] ] ].
  - exact (proj1 (exit_status_tells_whether_server_stopped 5
                    Sample.killed_by_node_manager) H1).
  - exact (proj1 (proj2 (exit_status_tells_whether_server_stopped 5
                           Sample.node_manager_down)) H2).
  - exact (proj2 (proj2 (exit_status_tells_whether_server_stopped 5
                           Sample.graceful)) H3).
Defined.

(** The properties of logs are not empty words: a graceful stop without a
    confirmation is rejected, and the sample runs do stop the server. *)
Example unguarded_shutdown_rejected :
  shutdown_guarded false
    [ Connect "t3://domain1-admin-server:7001" "base_domain" "/shared/domains/base_domain";
      Completed;
      Shutdown (shutdown_args (config_of Sample.managed) "false" 30) ] = false.
Proof. reflexivity. Qed.

Example rolling_restart_stops_gracefully :
  let r := main 5 Sample.rolling_restart in
  out r = Exit 0%Z /\
  server_shut_down (log r) = true /\
  List.length (filter is_confirmation (log r)) = 1 /\
  existsb is_nm_call (log r) = false.
Proof. vm_compute. repeat split. Qed.

Example endangered_service_keeps_script_waiting :
  let r := waitUntilCoherenceSafe 10 Sample.endangered in
  out r = Killed /\ List.length (filter (is_sleep 5) (log r)) = 3.
Proof. vm_compute. repeat split. Qed.

(* ===================================================================== *)
(** ** The pace of the polls *)
(* ===================================================================== *)

Lemma paced_app (c : event -> bool) (n : nat) (l l' : list event) :
  forall b,
    paced c n b (l ++ l') = paced c n b l && paced c n (rested_after c n b l) l'.
Proof.
  induction l as [|e l IH]; intros b; [reflexivity|].
  cbn [app paced rested_after]. destruct (c e).
  - rewrite IH, andb_assoc. reflexivity.
  - apply IH.
Qed.

Lemma rested_after_app (c : event -> bool) (n : nat) (l l' : list event) :
  forall b,
    rested_after c n b (l ++ l') = rested_after c n (rested_after c n b l) l'.
Proof.
  induction l as [|e l IH]; intros b; [reflexivity|].
  cbn [app rested_after]. destruct (c e); apply IH.
Qed.

Lemma paced_free (c : event -> bool) (n : nat) (l : list event) :
  existsb c l = false -> forall b, paced c n b l = true.
Proof.
  induction l as [|e l IH]; intros H b; [reflexivity|].
  cbn [existsb] in H. apply orb_false_iff in H. destruct H as [He Hl].
  cbn [paced]. rewrite He. apply IH, Hl.
Qed.

Lemma rested_after_free (c : event -> bool) (n : nat) (l : list event) :
  existsb c l = false -> rested_after c n true l = true.
Proof.
  assert (H : forall l b, existsb c l = false -> b = true ->
                          rested_after c n b l = true).
  { clear l. induction l as [|e l IH]; intros b H Hb; [exact Hb|].
    cbn [existsb] in H. apply orb_false_iff in H. destruct H as [He Hl].
    cbn [rested_after]. rewrite He. apply IH; [exact Hl|]. subst b. reflexivity. }
  intros Hl. apply H; trivial.
Qed.

(** A reply that keeps the poll going leaves a sleep of 5 or 10 seconds
    behind. *)
Lemma poll_log_rests (objectName : string) (r : reply (option string)) (b : bool) :
  keeps_waiting r = true ->
  rested_after is_health_query 5 b (poll_log objectName r) = true.
Proof.
  destruct r as [[status|]|msg]; cbn [keeps_waiting]; intros H;
    try discriminate; unfold poll_log; rewrite ?H; destruct b; reflexivity.
Qed.

Lemma poll_log_paced (objectName : string) (r : reply (option string)) :
  paced is_health_query 5 true (poll_log objectName r) = true.
Proof.
  destruct r as [[status|]|msg]; unfold poll_log; try reflexivity.
  destruct (String.eqb status "ENDANGERED"); reflexivity.
Qed.

Lemma poll_paced (objectName : string) :
  forall (fuel : nat) (s : State),
    paced is_health_query 5 true (log (poll fuel objectName s)) = true.
Proof.
  induction fuel as [|fuel IH]; intros s; [reflexivity|].
  destruct (getAttribute_replies (world s)) as [|r rest] eqn:H.
  - rewrite (poll_killed _ _ _ H). reflexivity.
  - destruct (keeps_waiting r) eqn:Hr.
    + rewrite (poll_again _ _ _ _ _ H Hr), log_prepend, paced_app.
      rewrite poll_log_paced, (poll_log_rests _ _ _ Hr). apply IH.
    + destruct r as [status|msg]; [|discriminate].
      rewrite (poll_released _ _ _ _ _ H)
        by (unfold safe_status; rewrite Hr; reflexivity).
      apply poll_log_paced.
Qed.

(** X1.  [waitUntilServiceSafeToShutdown] never asks for the HAStatus of
    its service twice in a row: whatever the replies and however long it
    runs, between two [getAttribute] calls it has slept, 5 seconds after
    an ENDANGERED status and 10 seconds after an exception. *)
Theorem service_poll_sleeps_between_health_queries
    (fuel : nat) (objectName : string) (s : State) :
  paced is_health_query 5 true
    (log (waitUntilServiceSafeToShutdown fuel objectName s)) = true.
Proof.
  rewrite waitUntilServiceSafeToShutdown_run, log_prepend.
  cbn [app paced is_health_query rests orb]. apply poll_paced.
Qed.

(* ===================================================================== *)
(** ** The shape of the enumeration loop's log *)
(* ===================================================================== *)

Lemma log_bind {A B} (m : M A) (f : A -> M B) (s : State) :
  log (bind m f s) =
  log (m s) ++ match out (m s) with
               | Ret a => log (f a (after (m s)))
               | _ => []
               end.
Proof.
  unfold bind. destruct (m s) as [[a| | |] s' l]; cbn [out after log];
    rewrite ?app_nil_r; try reflexivity.
  apply log_prepend.
Qed.

Lemma for_each_free {A} (c : event -> bool) (body : A -> M unit) :
  (forall x s, existsb c (log (body x s)) = false) ->
  forall xs s, existsb c (log (for_each xs body s)) = false.
Proof.
  intros Hbody. induction xs as [|x xs IH]; intros s; [reflexivity|].
  cbn [for_each]. rewrite log_bind, existsb_app, Hbody.
  destruct (out (body x s)); [apply IH | reflexivity ..].
Qed.

Lemma pass_never_enumerates (inner : nat) (beans : list ObjectInstance) (s : State) :
  existsb is_query (log (pass inner beans s)) = false.
Proof.
  unfold pass. apply for_each_free. intros b s'. apply poll_never_enumerates.
Qed.

(** The log of the enumeration loop: the enumerations that start no pass,
    then at most one pass. *)
Lemma enumerate_shape (inner : nat) :
  forall (fuel : nat) (s : State),
    done s = false ->
    exists fails tail,
      log (enumerate fuel inner s) = unavailable_logs fails (warnSleep s) ++ tail /\
      wait_tail inner tail.
Proof.
  induction fuel as [|fuel IH]; intros s Hdone.
  - rewrite enumerate_0 by trivial. exists [], []. split; [reflexivity|constructor].
  - rewrite (enumerate_S _ _ _ Hdone).
    destruct (queryMBeans_replies (world s)) as [|r rest] eqn:Hq.
    + rewrite (coherenceSafe_body_killed _ _ Hq).
      exists [], [QueryMBeans query]. split; [reflexivity|constructor].
    + destruct (unavailable r) eqn:Hr.
      * rewrite (coherenceSafe_body_unavailable _ _ _ _ Hq Hr). cbn [iterate].
        destruct (after_unavailable_facts r rest s Hr) as (_ & _ & Hd & Hw & _).
        destruct (IH (after_unavailable r rest s)) as (fails & tail & Hlog & Ht);
          [congruence|].
        exists (r :: fails), tail. split; [|exact Ht].
        rewrite log_prepend, Hlog, Hw. cbn [unavailable_logs].
        rewrite <- app_assoc. reflexivity.
      * destruct r as [beans|msg]; [|discriminate].
        rewrite (coherenceSafe_body_pass _ _ _ _ Hq Hr).
        destruct (pass_quiet inner beans (with_queries rest s)) as (_ & _ & Ho).
        pose proof (proj1 (unavailable_nonempty beans) Hr) as Hbeans.
        exists []. cbn [unavailable_logs app].
        destruct (pass inner beans (with_queries rest s)) as [o s' l] eqn:Hp.
        cbn [out] in Ho. destruct Ho as [-> | ->]; cbn [iterate].
        -- rewrite enumerate_done by reflexivity. cbn [prepend log].
           rewrite app_nil_r.
           exists (pass_head beans ++ l ++
                   [Print "Shutdown: It is safe to shutdown Coherence"]).
           split; [reflexivity|].
           replace l with (log (pass inner beans (with_queries rest s)))
             by (rewrite Hp; reflexivity).
           apply tail_pass_done; [exact Hbeans | rewrite Hp; reflexivity].
        -- exists (pass_head beans ++ l). split; [reflexivity|].
           replace l with (log (pass inner beans (with_queries rest s)))
             by (rewrite Hp; reflexivity).
           apply tail_pass_pending; [exact Hbeans | rewrite Hp; reflexivity].
Qed.

(** The log of [waitUntilCoherenceSafe]: its first two lines, then, when
    [domainRuntime] answers, the log of the enumeration loop, closed by
    the return mark when the function returns. *)
Lemma waitUntilCoherenceSafe_shape (fuel : nat) (s : State) :
  let t := log (waitUntilCoherenceSafe fuel s) in
  t = wait_head \/
  (exists msg, t = wait_head ++ [Raised msg]) \/
  exists fails tail closing,
    t = wait_head ++ [Completed] ++ unavailable_logs fails true ++ tail ++ closing /\
    wait_tail fuel tail /\
    (closing = [] \/ closing = [Returned "waitUntilCoherenceSafe"]).
Proof.
  intros t. subst t.
  destruct (domainRuntime_replies (world s)) as [|[[]|msg] rest] eqn:H.
  - left. rewrite (waitUntilCoherenceSafe_killed _ _ H). reflexivity.
  - right. right. rewrite (waitUntilCoherenceSafe_enumerates _ _ _ _ H).
    destruct (enumerate_shape fuel fuel (wait_start rest s) eq_refl)
      as (fails & tail & Hlog & Ht).
    exists fails, tail.
    destruct (enumerate fuel fuel (wait_start rest s)) as [[[]| | |] s' l];
      cbn [log] in *; subst l;
      [ exists [Returned "waitUntilCoherenceSafe"] | exists [] ..];
      (split; [ rewrite <- ?app_assoc, ?app_nil_r; reflexivity | split; auto ]).
  - right. left. exists msg. rewrite (waitUntilCoherenceSafe_raises _ _ _ _ H).
    reflexivity.
Qed.

Lemma unavailable_logs_paced (fails : list (reply (list ObjectInstance))) :
  forall warn,
    paced is_query 1 true (unavailable_logs fails warn) = true /\
    rested_after is_query 1 true (unavailable_logs fails warn) = true.
Proof.
  induction fails as [|r fails IH]; intros warn; [split; reflexivity|].
  cbn [unavailable_logs]. rewrite paced_app, rested_after_app.
  assert (Hr : paced is_query 1 true (unavailable_log r warn) = true /\
               rested_after is_query 1 true (unavailable_log r warn) = true)
    by (destruct r as [beans|msg], warn; split; reflexivity).
  destruct Hr as [-> ->]. apply IH.
Qed.

Lemma wait_tail_paced (inner : nat) (tail : list event) :
  wait_tail inner tail -> paced is_query 1 true tail = true.
Proof.
  intros H. destruct H as [| |beans s Hb Ho|beans s Hb Ho]; try reflexivity;
    unfold pass_head; cbn [app paced is_query andb rests orb];
    apply paced_free; rewrite ?existsb_app, pass_never_enumerates; reflexivity.
Qed.

(** X2.  [waitUntilCoherenceSafe] never enumerates the Coherence MBeans
    twice in a row: between two [queryMBeans] calls it has slept, 1 second
    after an empty enumeration and 10 seconds after an exception. *)
Theorem safety_wait_sleeps_between_enumerations (fuel : nat) (s : State) :
  paced is_query 1 true (log (waitUntilCoherenceSafe fuel s)) = true.
Proof.
  destruct (waitUntilCoherenceSafe_shape fuel s)
    as [-> | [(msg & ->) | (fails & tail & closing & -> & Ht & Hc)]];
    try reflexivity.
  cbn [wait_head app paced is_query rests orb].
  destruct (unavailable_logs_paced fails true) as [Hp Hr].
  rewrite paced_app, Hp, Hr, paced_app, (wait_tail_paced _ _ Ht).
  apply paced_free. destruct Hc as [-> | ->]; reflexivity.
Qed.

Lemma poll_log_no_warning (objectName : string) (r : reply (option string)) :
  existsb is_warning (poll_log objectName r) = false.
Proof.
  destruct r as [[status|]|msg]; unfold poll_log; try reflexivity.
  destruct (String.eqb status "ENDANGERED"); reflexivity.
Qed.

Lemma poll_no_warning (objectName : string) :
  forall (fuel : nat) (s : State),
    existsb is_warning (log (poll fuel objectName s)) = false.
Proof.
  induction fuel as [|fuel IH]; intros s; [reflexivity|].
  destruct (getAttribute_replies (world s)) as [|r rest] eqn:H.
  - rewrite (poll_killed _ _ _ H). reflexivity.
  - destruct (keeps_waiting r) eqn:Hr.
    + rewrite (poll_again _ _ _ _ _ H Hr), log_prepend, existsb_app.
      rewrite poll_log_no_warning. apply IH.
    + destruct r as [status|msg]; [|discriminate].
      rewrite (poll_released _ _ _ _ _ H)
        by (unfold safe_status; rewrite Hr; reflexivity).
      apply poll_log_no_warning.
Qed.

Lemma pass_no_warning (inner : nat) (beans : list ObjectInstance) (s : State) :
  existsb is_warning (log (pass inner beans s)) = false.
Proof.
  unfold pass. apply for_each_free. intros b s'.
  rewrite waitUntilServiceSafeToShutdown_run, log_prepend, existsb_app.
  rewrite poll_no_warning. reflexivity.
Qed.

Lemma count_app (c : event -> bool) (l l' : list event) :
  count c (l ++ l') = count c l + count c l'.
Proof. unfold count. rewrite filter_app. apply length_app. Qed.

Lemma count_free (c : event -> bool) (l : list event) :
  existsb c l = false -> count c l = 0.
Proof.
  unfold count. induction l as [|e l IH]; intros H; [reflexivity|].
  cbn [existsb] in H. apply orb_false_iff in H. destruct H as [He Hl].
  cbn [filter]. rewrite He. auto.
Qed.

Lemma unavailable_logs_warn_once (fails : list (reply (list ObjectInstance))) :
  forall warn,
    count is_warning (unavailable_logs fails warn) <= (if warn then 1 else 0).
Proof.
  induction fails as [|r fails IH]; intros warn;
    [cbn; destruct warn; lia|].
  cbn [unavailable_logs]. rewrite count_app.
  destruct r as [beans|msg].
  - specialize (IH false). cbn [Nat.add] in IH.
    destruct warn; cbn in *; lia.
  - specialize (IH warn). change (count is_warning (unavailable_log (Raises msg) warn)) with 0.
    exact IH.
Qed.

Lemma wait_tail_no_warning (inner : nat) (tail : list event) :
  wait_tail inner tail -> count is_warning tail = 0.
Proof.
  intros H. apply count_free.
  destruct H as [| |beans s Hb Ho|beans s Hb Ho]; try reflexivity;
    unfold pass_head; rewrite ?existsb_app, pass_no_warning; reflexivity.
Qed.

(** X3.  In one call of [waitUntilCoherenceSafe] the notice that the
    Coherence MBeans are awaited is printed at most once, however many
    enumerations come back empty. *)
Theorem awaited_beans_notice_is_printed_once (fuel : nat) (s : State) :
  count is_warning (log (waitUntilCoherenceSafe fuel s)) <= 1.
Proof.
  destruct (waitUntilCoherenceSafe_shape fuel s)
    as [-> | [(msg & ->) | (fails & tail & closing & -> & Ht & Hc)]];
    try (cbn; lia).
  rewrite !count_app, (wait_tail_no_warning _ _ Ht).
  pose proof (unavailable_logs_warn_once fails true) as Hw. cbn beta iota in Hw.
  assert (Hcl : count is_warning closing = 0)
    by (destruct Hc as [-> | ->]; reflexivity).
  rewrite Hcl. change (count is_warning wait_head) with 0.
  change (count is_warning [Completed]) with 0. lia.
Qed.

(* ===================================================================== *)
(** ** The events of the connect loop *)
(* ===================================================================== *)

Lemma free_Forall (c : event -> bool) (l : list event) :
  existsb c l = false <-> Forall (fun e => c e = false) l.
Proof.
  induction l as [|e l IH]; cbn [existsb]; split; intros H.
  - constructor.
  - reflexivity.
  - apply orb_false_iff in H. constructor; [apply H | apply IH, H].
  - inversion H as [|? ? He Hl]; subst. rewrite He. apply IH, Hl.
Qed.

Lemma polling_Forall (P : event -> Prop) (l : list event) :
  (forall e, polling_event e = true -> P e) ->
  forallb polling_event l = true -> Forall P l.
Proof.
  intros HP H. rewrite forallb_forall in H. apply Forall_forall.
  intros e He. apply HP, H, He.
Qed.

Section Alphabet.

Variables (cfg : Config) (cohExists : bool) (connect_url force : string).
Variable P : event -> Prop.

Hypothesis reports : forall e, reporting_event e = true -> P e.
Hypothesis nm_connects : P (NmConnect (domain_name cfg) (domain_path cfg)).
Hypothesis nm_kills : P (NmKill (server_name cfg)).

Ltac listed :=
  repeat first
    [ assumption
    | apply Forall_nil
    | apply Forall_cons; [ first [ assumption | apply reports; reflexivity ] | ]
    | apply Forall_app; split ].

(** The last resort prints, and calls the NodeManager for the configured
    domain and server. *)
Lemma fallback_path_Forall (e : ending) (l : list event) :
  fallback_path cfg e l -> Forall P l.
Proof.
  intros H. destruct H; unfold nm_killing, nm_connecting, nm_failed, nm_killed;
    listed.
Qed.

Hypothesis shuts_down :
  forall timeOut, PyStr.int (timeout cfg) = Some timeOut ->
                  P (Shutdown (shutdown_args cfg force timeOut)).

Lemma stop_path_Forall (e : ending) (l : list event) :
  stop_path cfg force e l -> Forall P l.
Proof.
  intros H. destruct H as [e l Hint Hf|t Hint|t msg e l Hint Hf|t Hint];
    try pose proof (fallback_path_Forall _ _ Hf);
    try pose proof (shuts_down _ Hint);
    unfold calling, failure_head; listed.
Qed.

Hypothesis connects : P (Connect connect_url (domain_name cfg) (domain_path cfg)).
Hypothesis polls : cohExists = true -> forall e, polling_event e = true -> P e.
Hypothesis confirms : cohExists = true -> P (Returned "waitUntilCoherenceSafe").

Lemma attempt_path_Forall (e : ending) (l : list event) :
  attempt_path cfg cohExists connect_url force e l -> Forall P l.
Proof.
  intros H. destruct H as
    [|msg Hc|msg e l0 Hc Hf|l0 Hc Hl|msg l0 Hc Hl|l0 e l1 Hc Hl Hs|e l1 Hc Hs];
    try pose proof (fallback_path_Forall _ _ Hf);
    try pose proof (stop_path_Forall _ _ Hs);
    try pose proof (polling_Forall P _ (polls Hc) Hl);
    try pose proof (confirms Hc);
    try pose proof (polls Hc (Sleep 10) eq_refl);
    unfold connected, connecting, confirmed, failure_head, retry_tail; listed.
Qed.

(** Every event of the connect loop is one of: a line of output or the
    outcome of a call; the [connect] to the target; the calls of the
    graceful stop and of the last resort; and, with a Coherence cluster
    only, the events of the safety wait, its return, and the sleeps. *)
Lemma loop_path_Forall (o : outcome unit) (l : list event) :
  loop_path cfg cohExists connect_url force o l -> Forall P l.
Proof.
  intros H. induction H as [|l o l' Ha Hl IH|l Ha|code l Ha|l Ha];
    try (apply (attempt_path_Forall _ _ Ha)).
  - constructor.
  - apply Forall_app. split; [apply (attempt_path_Forall _ _ Ha) | exact IH].
Qed.

End Alphabet.

(* ===================================================================== *)
(** ** The main script as a whole *)
(* ===================================================================== *)

Lemma log_finish (pre : list event) (r : run unit) :
  log (finish pre r) = pre ++ log r.
Proof. destruct r as [[[]| | |] s l]; reflexivity. Qed.

Lemma after_finish (pre : list event) (r : run unit) :
  after (finish pre r) = after r.
Proof. destruct r as [[[]| | |] s l]; reflexivity. Qed.

Lemma out_finish (pre : list event) (r : run unit) :
  out (finish pre r) = match out r with Ret _ => Exit 0%Z | o => o end.
Proof. destruct r as [[[]| | |] s l]; reflexivity. Qed.

(** The log of the main script: the events of its set-up, then, when the
    set-up succeeds, the log of the connect loop. *)
Lemma main_shape (fuel : nat) (s : State) :
  let cfg := config_of (environ (world s)) in
  exists pre l,
    log (main fuel s) = pre ++ l /\
    forallb setup_event pre = true /\
    (l = [] \/
     exists cohExists o,
       loop_path cfg cohExists (target_url cfg cohExists)
         (force_in_use cfg cohExists) o l).
Proof.
  intros cfg.
  destruct (first_unset (environ (world s))) as [var|] eqn:Henv.
  - rewrite (main_unset fuel s var Henv).
    exists [Print "Shutdown: main script"; Print (env_error var)], [].
    repeat split. left. reflexivity.
  - destruct (main_run fuel s Henv) as
      [(msg & s1 & l1 & Hd & ->)|(s1 & l1 & coh & l2 & Hd & Hc & Hl & ->)].
    + destruct (decode_user_key_cases s) as (o & s' & l & Hd' & Hl & _).
      rewrite Hd in Hd'. injection Hd' as _ _ <-.
      exists (Print "Shutdown: main script" :: l1), []. rewrite app_nil_r.
      repeat split; [exact Hl | left; reflexivity].
    + fold cfg. rewrite log_finish.
      exists (Print "Shutdown: main script" :: l1 ++ l2 ++ [Print (announcement coh)]),
        (log (connect_loop fuel cfg coh (target_url cfg coh) (force_in_use cfg coh) s1)).
      split; [reflexivity|]. split.
      * cbn [forallb setup_event andb]. rewrite app_assoc, forallb_app, Hl.
        reflexivity.
      * right. exists coh, (out (connect_loop fuel cfg coh (target_url cfg coh)
                                   (force_in_use cfg coh) s1)).
        apply connect_loop_sound.
Qed.

Lemma setup_Forall (P : event -> Prop) (l : list event) :
  (forall e, setup_event e = true -> P e) ->
  forallb setup_event l = true -> Forall P l.
Proof.
  intros HP H. rewrite forallb_forall in H. apply Forall_forall.
  intros e He. apply HP, H, He.
Qed.

(** X4.  Every call the script makes is made for the server and the
    domain of its environment: [connect] and [nmConnect] name DOMAIN_NAME
    and DOMAIN_HOME, [nmKill] names SERVER_NAME, and [shutdown] names
    SERVER_NAME as a 'Server', blocks, and carries the integer value of
    SHUTDOWN_TIMEOUT_ARG and the two session flags as they are set. *)
Theorem calls_name_the_configured_server (fuel : nat) (s : State) :
  Forall (addressed (config_of (environ (world s)))) (log (main fuel s)).
Proof.
  destruct (main_shape fuel s) as (pre & l & -> & Hpre & Hl).
  apply Forall_app. split.
  - revert Hpre. apply setup_Forall. intros [] H; try discriminate H; exact I.
  - destruct Hl as [-> | (coh & o & Hp)]; [constructor|].
    revert Hp. apply loop_path_Forall.
    + intros [] H; try discriminate H; exact I.
    + split; reflexivity.
    + reflexivity.
    + intros timeOut Hint. repeat split. exact Hint.
    + split; reflexivity.
    + intros _ [] H; try discriminate H; exact I.
    + intros _. exact I.
Qed.

(* ===================================================================== *)
(** ** The pace and the number of the connection attempts *)
(* ===================================================================== *)

Lemma fallback_path_free (c : event -> bool) (cfg : Config) (e : ending)
    (l : list event) :
  (forall e, reporting_event e = true -> c e = false) ->
  c (NmConnect (domain_name cfg) (domain_path cfg)) = false ->
  c (NmKill (server_name cfg)) = false ->
  fallback_path cfg e l -> existsb c l = false.
Proof.
  intros H1 H2 H3 H. apply free_Forall.
  apply (fallback_path_Forall cfg _ H1 H2 H3 _ _ H).
Qed.

Lemma stop_path_free (c : event -> bool) (cfg : Config) (force : string)
    (e : ending) (l : list event) :
  (forall e, reporting_event e = true -> c e = false) ->
  c (NmConnect (domain_name cfg) (domain_path cfg)) = false ->
  c (NmKill (server_name cfg)) = false ->
  (forall timeOut, PyStr.int (timeout cfg) = Some timeOut ->
                   c (Shutdown (shutdown_args cfg force timeOut)) = false) ->
  stop_path cfg force e l -> existsb c l = false.
Proof.
  intros H1 H2 H3 H4 H. apply free_Forall.
  apply (stop_path_Forall cfg force _ H1 H2 H3 H4 _ _ H).
Qed.

Lemma reporting_no_connect (e : event) :
  reporting_event e = true -> is_connect e = false.
Proof. destruct e; cbn; congruence. Qed.

Lemma polling_no_connect (l : list event) :
  forallb polling_event l = true -> existsb is_connect l = false.
Proof. apply polling_not. intros []; cbn; congruence. Qed.

(** An iteration of the connect loop connects once, at its start; one
    that is retried ends on the sleep of 10 seconds. *)
Lemma attempt_path_connects_once (cfg : Config) (cohExists : bool)
    (url force : string) (e : ending) (l : list event) :
  attempt_path cfg cohExists url force e l ->
  exists rest,
    l = connecting cfg url ++ rest /\
    existsb is_connect rest = false /\
    (e = Retry -> exists rest', rest = rest' ++ retry_tail).
Proof.
  intros H. destruct H as
    [|msg Hc|msg e l0 Hc Hf|l0 Hc Hl|msg l0 Hc Hl|l0 e l1 Hc Hl Hs|e l1 Hc Hs];
    try pose proof (fallback_path_free is_connect _ _ _ reporting_no_connect
                      eq_refl eq_refl Hf) as Hfree;
    try pose proof (stop_path_free is_connect _ _ _ _ reporting_no_connect
                      eq_refl eq_refl (fun _ _ => eq_refl) Hs) as Hfree;
    try pose proof (polling_no_connect _ Hl) as Hpoll;
    unfold connected; rewrite <- ?app_assoc;
    eexists; (split; [reflexivity|]);
    (split; [ split_exists; rewrite ?Hfree, ?Hpoll; reflexivity | ]);
    intros He; try discriminate He;
    try (subst e; not_retry Hs); try (subst e; not_retry Hf).
  - exists ([Raised msg] ++ failure_head msg). rewrite <- !app_assoc. reflexivity.
  - exists ([Completed; Print "Shutdown: Successfully connected to server"] ++ l0 ++
            [Raised msg] ++ failure_head msg).
    rewrite <- !app_assoc. reflexivity.
Qed.

Lemma attempt_path_paced (cfg : Config) (cohExists : bool) (url force : string)
    (e : ending) (l : list event) :
  attempt_path cfg cohExists url force e l ->
  paced is_connect 10 true l = true /\
  (e = Retry -> rested_after is_connect 10 true l = true).
Proof.
  intros H.
  destruct (attempt_path_connects_once _ _ _ _ _ _ H) as (rest & -> & Hfree & Hre).
  split.
  - unfold connecting. cbn [app paced is_connect rests orb andb].
    apply paced_free, Hfree.
  - intros He. destruct (Hre He) as (rest' & ->).
    rewrite app_assoc, rested_after_app. unfold retry_tail.
    cbn [rested_after is_connect rests Nat.leb]. apply orb_true_r.
Qed.

Lemma loop_path_paced (cfg : Config) (cohExists : bool) (url force : string)
    (o : outcome unit) (l : list event) :
  loop_path cfg cohExists url force o l -> paced is_connect 10 true l = true.
Proof.
  intros H. induction H as [|l o l' Ha Hl IH|l Ha|code l Ha|l Ha];
    try (apply (attempt_path_paced _ _ _ _ _ _ Ha)).
  - reflexivity.
  - destruct (attempt_path_paced _ _ _ _ _ _ Ha) as [Hp Hr].
    rewrite paced_app, Hp, (Hr eq_refl). exact IH.
Qed.

Lemma setup_no_connect (l : list event) :
  forallb setup_event l = true -> existsb is_connect l = false.
Proof. intros H. apply (setup_free _ H). Qed.

(** X5.  The script never reconnects at once: in every run, between two
    [connect] calls it has slept at least 10 seconds. *)
Theorem reconnects_after_ten_seconds (fuel : nat) (s : State) :
  paced is_connect 10 true (log (main fuel s)) = true.
Proof.
  destruct (main_shape fuel s) as (pre & l & -> & Hpre & Hl).
  rewrite paced_app, (paced_free _ _ _ (setup_no_connect _ Hpre)).
  rewrite (rested_after_free _ _ _ (setup_no_connect _ Hpre)).
  destruct Hl as [-> | (coh & o & Hp)]; [reflexivity|].
  apply (loop_path_paced _ _ _ _ _ _ Hp).
Qed.

Lemma reporting_quiet (e : event) :
  reporting_event e = true -> is_any_sleep e = false /\ is_jmx e = false.
Proof. destruct e; cbn; split; congruence. Qed.

Lemma loop_path_single (cfg : Config) (url force : string) (o : outcome unit)
    (l : list event) :
  loop_path cfg false url force o l -> count is_connect l <= 1.
Proof.
  intros H. destruct H as [|l o l' Ha Hl|l Ha|code l Ha|l Ha];
    try (destruct (attempt_path_connects_once _ _ _ _ _ _ Ha) as (rest & -> & Hfree & _);
         rewrite count_app, (count_free _ _ Hfree); cbn; lia).
  - cbn. lia.
  - destruct (attempt_retry_quiet _ _ _ _ _ Ha) as (Hc & _). discriminate Hc.
Qed.

(** X6.  Without a Coherence cluster the connect loop is a single
    attempt: it connects at most once, never sleeps, and calls neither
    the domain runtime nor its MBean server. *)
Theorem without_cluster_single_attempt
    (fuel : nat) (cfg : Config) (connect_url force : string) (s : State) :
  let t := log (connect_loop fuel cfg false connect_url force s) in
  count is_connect t <= 1 /\
  existsb is_any_sleep t = false /\
  existsb is_jmx t = false.
Proof.
  intros t. subst t.
  pose proof (connect_loop_sound cfg connect_url force false fuel s) as Hp.
  cbn zeta in Hp. split; [apply (loop_path_single _ _ _ _ _ Hp)|].
  assert (H : Forall (fun e => is_any_sleep e = false /\ is_jmx e = false)
                (log (connect_loop fuel cfg false connect_url force s))).
  { revert Hp. apply loop_path_Forall; try (split; reflexivity);
      try discriminate. apply reporting_quiet. }
  split; apply free_Forall; revert H; apply Forall_impl; intros e He; apply He.
Qed.

(* ===================================================================== *)
(** ** The graceful stop and the last resort *)
(* ===================================================================== *)

Lemma followed_by_exists (c d : event -> bool) (l : list event) :
  followed_by c d l = true -> existsb c l = true.
Proof.
  induction l as [|e l IH]; intros H; [discriminate|].
  cbn [followed_by] in H. cbn [existsb].
  apply orb_true_iff in H. destruct H as [H|H].
  - apply andb_true_iff in H. rewrite (proj1 H). reflexivity.
  - rewrite (IH H). apply orb_true_r.
Qed.

Lemma reporting_no_shutdown (e : event) :
  reporting_event e = true -> is_shutdown e = false.
Proof. destruct e; cbn; congruence. Qed.

Lemma setup_no_shutdown (l : list event) :
  forallb setup_event l = true -> existsb is_shutdown l = false.
Proof. intros H. apply (setup_free _ H). Qed.

(** X7.  When SHUTDOWN_TIMEOUT_ARG is not an integer, [int(timeout)]
    raises before [shutdown] can be called: the script never calls
    [shutdown], and it exits with status 0 only after [nmKill] has
    completed. *)
Theorem timeout_not_an_integer_never_shuts_down (fuel : nat) (s : State) :
  PyStr.int (timeout (config_of (environ (world s)))) = None ->
  let r := main fuel s in
  existsb is_shutdown (log r) = false /\
  (out r = Exit 0%Z -> node_manager_killed (log r) = true).
Proof.
  intros Hint r.
  assert (Hnone : existsb is_shutdown (log r) = false).
  { subst r. destruct (main_shape fuel s) as (pre & l & -> & Hpre & Hl).
    rewrite existsb_app, (setup_no_shutdown _ Hpre).
    destruct Hl as [-> | (coh & o & Hp)]; [reflexivity|].
    apply free_Forall. revert Hp.
    apply loop_path_Forall; try reflexivity.
    - apply reporting_no_shutdown.
    - intros timeOut H. rewrite Hint in H. discriminate H.
    - intros _ [] H; try discriminate H; reflexivity. }
  split; [exact Hnone|]. intros Hout.
  destruct (main_verdicts fuel s) as [[[H|(msg & H)] _]|(o & Ho & Hv & Ho')];
    fold r in H || fold r in Hv, Ho'.
  - rewrite Hout in H. discriminate H.
  - rewrite Hout in H. discriminate H.
  - unfold verdicts in Hv.
    destruct Ho as [ -> | [ -> | [ -> | -> ] ] ]; cbn [verdicts_of Z.eqb] in Hv;
      injection Hv as H1 H2 H3; rewrite Hout in Ho'; try discriminate Ho'.
    + apply followed_by_exists in H3. rewrite Hnone in H3. discriminate H3.
    + exact H1.
Qed.

Lemma timeout_not_an_integer_never_shuts_down_witness :
  let s := Scenario.timeout_not_a_number in
  PyStr.int (timeout (config_of (environ (world s)))) = None /\
  out (main 5 s) = Exit 0%Z /\
  existsb is_shutdown (log (main 5 s)) = false /\
  node_manager_killed (log (main 5 s)) = true.
Proof.
  intros s.
  assert (Hint : PyStr.int (timeout (config_of (environ (world s)))) = None)
    by reflexivity.
  assert (Hout : out (main 5 s) = Exit 0%Z) by (vm_compute; reflexivity).
  split; [exact Hint|]. split; [exact Hout|].
  split.
  - exact (proj1 (timeout_not_an_integer_never_shuts_down 5 s Hint)).
  - exact (proj2 (timeout_not_an_integer_never_shuts_down 5 s Hint) Hout).
Defined.

Lemma nm_call_kill (l : list event) :
  existsb is_nm_call l = false -> existsb is_nm_kill l = false.
Proof.
  induction l as [|e l IH]; intros H; [reflexivity|].
  cbn [existsb] in H. apply orb_false_iff in H. destruct H as [He Hl].
  unfold is_nm_call in He. apply orb_false_iff in He.
  cbn [existsb]. rewrite (proj2 He), (IH Hl). reflexivity.
Qed.

Lemma fallback_path_counts (cfg : Config) (e : ending) (l : list event) :
  fallback_path cfg e l ->
  count is_shutdown l = 0 /\ count is_nm_kill l <= 1 /\ e <> Stopped.
Proof. intros H. destruct H; cbn; repeat split; try lia; discriminate. Qed.

Lemma stop_path_counts (cfg : Config) (force : string) (e : ending)
    (l : list event) :
  stop_path cfg force e l ->
  count is_shutdown l <= 1 /\ count is_nm_kill l <= 1 /\
  (e = Stopped -> existsb is_nm_call l = false).
Proof.
  intros H. destruct H as [e l Hint Hf|t Hint|t msg e l Hint Hf|t Hint];
    try (destruct (fallback_path_counts _ _ _ Hf) as (H1 & H2 & H3));
    unfold calling, failure_head; rewrite ?count_app; cbn [app];
    repeat split; try (intros He; try discriminate He; try reflexivity; contradiction);
    unfold count in *; cbn in *; lia.
Qed.

Lemma polling_counts (l : list event) :
  forallb polling_event l = true ->
  count is_shutdown l = 0 /\ count is_nm_kill l = 0.
Proof.
  intros H. split; apply count_free.
  - apply (polling_no_shutdown _ H).
  - apply nm_call_kill, (polling_no_nm_call _ H).
Qed.

Lemma attempt_path_counts (cfg : Config) (cohExists : bool) (url force : string)
    (e : ending) (l : list event) :
  attempt_path cfg cohExists url force e l ->
  count is_shutdown l <= 1 /\ count is_nm_kill l <= 1 /\
  (e = Stopped -> existsb is_nm_call l = false).
Proof.
  intros H. destruct H as
    [|msg Hc|msg e l0 Hc Hf|l0 Hc Hl|msg l0 Hc Hl|l0 e l1 Hc Hl Hs|e l1 Hc Hs];
    try (destruct (fallback_path_counts _ _ _ Hf) as (H1 & H2 & H3));
    try (destruct (stop_path_counts _ _ _ _ Hs) as (H1 & H2 & H3));
    try (destruct (polling_counts _ Hl) as (H4 & H5));
    try pose proof (polling_no_nm_call _ Hl) as H6;
    unfold connected, connecting, confirmed, failure_head, retry_tail;
    rewrite ?count_app; rewrite ?H4, ?H5;
    (split; [ unfold count in *; cbn in *; lia | ]);
    (split; [ unfold count in *; cbn in *; lia | ]);
    intros He; try discriminate He; try contradiction;
    split_exists; rewrite ?H6; cbn [orb]; auto.
Qed.

Lemma loop_path_counts (cfg : Config) (cohExists : bool) (url force : string)
    (o : outcome unit) (l : list event) :
  loop_path cfg cohExists url force o l ->
  count is_shutdown l <= 1 /\ count is_nm_kill l <= 1 /\
  (o = Ret tt -> existsb is_nm_call l = false).
Proof.
  intros H. induction H as [|l o l' Ha Hl IH|l Ha|code l Ha|l Ha];
    try (destruct (attempt_path_counts _ _ _ _ _ _ Ha) as (H1 & H2 & H3);
         repeat split; trivial; try discriminate; intros _; apply H3; reflexivity).
  - cbn. repeat split; lia.
  - destruct IH as (H1 & H2 & H3).
    destruct (attempt_retry_quiet _ _ _ _ _ Ha) as (_ & _ & Hnm).
    pose proof (attempt_retry_no_shutdown _ _ _ _ _ Ha) as Hsd.
    rewrite !count_app, (count_free _ _ Hsd), (count_free _ _ (nm_call_kill _ Hnm)).
    repeat split; trivial.
    intros Ho. rewrite existsb_app, Hnm. apply H3, Ho.
Qed.

Lemma setup_counts (l : list event) :
  forallb setup_event l = true ->
  count is_shutdown l = 0 /\ count is_nm_kill l = 0 /\
  existsb is_nm_call l = false.
Proof.
  intros H. destruct (setup_free _ H) as (H1 & H2 & _).
  repeat split; trivial; apply count_free; trivial. apply nm_call_kill, H1.
Qed.

(** X8.  The script stops the server once and in one way: [shutdown] is
    called at most once, [nmKill] is called at most once, and in a run in
    which [shutdown] completed the NodeManager is never called. *)
Theorem server_is_stopped_once_and_one_way (fuel : nat) (s : State) :
  let t := log (main fuel s) in
  count is_shutdown t <= 1 /\
  count is_nm_kill t <= 1 /\
  (server_shut_down t = true -> existsb is_nm_call t = false).
Proof.
  intros t. subst t.
  destruct (main_shape fuel s) as (pre & l & -> & Hpre & Hl).
  destruct (setup_counts _ Hpre) as (P1 & P2 & P3).
  rewrite !count_app, P1, P2, existsb_app, P3. cbn [Nat.add orb].
  destruct Hl as [-> | (coh & o & Hp)]; [cbn; repeat split; lia|].
  destruct (loop_path_counts _ _ _ _ _ _ Hp) as (H1 & H2 & H3).
  repeat split; trivial. intros Hsd. apply H3.
  pose proof (loop_path_verdicts _ _ _ _ _ _ Hp) as Hv.
  unfold verdicts, server_shut_down in Hv, Hsd.
  rewrite followed_by_free in Hsd by (apply (setup_no_shutdown _ Hpre)).
  destruct (loop_path_outcome _ _ _ _ _ _ Hp) as [ -> | [ -> | [ -> | -> ] ] ];
    cbn [verdicts_of Z.eqb] in Hv; injection Hv as _ _ H;
    rewrite H in Hsd; try discriminate Hsd; reflexivity.
Qed.

Lemma server_is_stopped_once_and_one_way_witness :
  let t := log (main 5 Sample.graceful) in
  server_shut_down t = true /\ existsb is_nm_call t = false.
Proof.
  intros t.
  assert (H : server_shut_down t = true) by (vm_compute; reflexivity).
  split; [exact H|].
  exact (proj2 (proj2 (server_is_stopped_once_and_one_way 5 Sample.graceful)) H).
Defined.

(* ===================================================================== *)
(** ** How the script ends *)
(* ===================================================================== *)

(** Lines 206-214, case by case. *)
Lemma decode_user_key_run (s : State) :
  decode_user_key s =
  match files (world s) user_key_path with
  | None => mkRun (Raise "IOError") s [ReadFile user_key_path; Raised "IOError"]
  | Some contents =>
      match decodestring (world s) contents with
      | None =>
          mkRun (Raise "binascii.Error") s
            [ReadFile user_key_path; Decode; Raised "binascii.Error"]
      | Some decoded =>
          if writable (world s) binary_key_path
          then mkRun (Ret tt)
                 (set_world
                    (set_files (fun p => if String.eqb p binary_key_path
                                         then Some decoded else files (world s) p)
                       (world s)) s)
                 [ReadFile user_key_path; Decode; WriteFile binary_key_path]
          else mkRun (Raise "IOError") s
                 [ReadFile user_key_path; Decode; WriteFile binary_key_path;
                  Raised "IOError"]
      end
  end.
Proof.
  unfold decode_user_key, read_file, base64_decodestring, write_file,
    user_key_path, binary_key_path.
  unfold_m. destruct (files (world s) _) as [contents|]; [|reflexivity].
  cbn beta iota. destruct (decodestring (world s) contents) as [decoded|];
    [|reflexivity].
  cbn beta iota. destruct (writable (world s) _); reflexivity.
Qed.

Lemma decode_user_key_outcome (s : State) :
  match binary_key (world s) with
  | Some _ => out (decode_user_key s) = Ret tt
  | None => exists msg, decode_user_key s =
                        mkRun (Raise msg) s (log (decode_user_key s))
  end.
Proof.
  rewrite decode_user_key_run. unfold binary_key.
  destruct (files (world s) user_key_path) as [contents|];
    [|exists "IOError"; reflexivity].
  destruct (decodestring (world s) contents) as [decoded|];
    [|exists "binascii.Error"; reflexivity].
  destruct (writable (world s) binary_key_path);
    [reflexivity | exists "IOError"; reflexivity].
Qed.

Lemma first_unset_some (env : string -> option string) (var : string) :
  first_unset env = Some var -> In var required_vars /\ env var = None.
Proof.
  unfold first_unset. intros H. apply find_some in H. destruct H as [Hin Hu].
  split; [exact Hin|]. unfold unset in Hu. destruct (env var); [discriminate|reflexivity].
Qed.

(** X9.  The five ways the script ends.  It leaves by [sys.exit(1)]
    exactly when a required variable is unset; an exception escapes it
    exactly when every variable is set and the binary user key cannot be
    produced (the key file cannot be read or decoded, or the binary file
    cannot be written); in every other run it leaves by [exit()] with
    status 0 or by [exit(2)], or it is killed from outside.  The script
    never runs off its end. *)
Theorem script_ends_in_one_of_five_ways (fuel : nat) (s : State) :
  let r := main fuel s in
  let env := environ (world s) in
  (out r = Exit 1%Z <-> exists var, In var required_vars /\ env var = None) /\
  ((exists msg, out r = Raise msg) <->
   first_unset env = None /\ binary_key (world s) = None) /\
  (first_unset env = None -> binary_key (world s) <> None ->
   out r = Exit 0%Z \/ out r = Exit 2%Z \/ out r = Killed) /\
  out r <> Ret tt.
Proof.
  intros r env. subst r env.
  destruct (first_unset (environ (world s))) as [var|] eqn:Henv.
  - rewrite (main_unset fuel s var Henv). cbn [out].
    destruct (first_unset_some _ _ Henv) as [Hin Hvar].
    split; [ split; [ intros _; exists var; split; assumption | reflexivity ] | ].
    split; [ split; [ intros (msg & H); discriminate H | intros (H & _); discriminate H ] | ].
    split; [ intros H; discriminate H | discriminate ].
  - assert (Hset : ~ exists var, In var required_vars /\ environ (world s) var = None).
    { intros (var & Hin & Hvar).
      destruct (first_unset_exists _ _ Hin Hvar) as (first & H & _).
      rewrite Henv in H. discriminate H. }
    pose proof (decode_user_key_outcome s) as Hkey.
    destruct (main_run fuel s Henv) as
      [(msg & s1 & l1 & Hd & ->)|(s1 & l1 & coh & l2 & Hd & Hc & Hl & ->)].
    + cbn [out].
      destruct (binary_key (world s)) as [key|];
        [rewrite Hd in Hkey; discriminate Hkey|].
      split; [ split; [ intros H; discriminate H | intros H; destruct (Hset H) ] | ].
      split; [ split; [ intros _; split; reflexivity | intros _; exists msg; reflexivity ] | ].
      split; [ intros _ H; destruct (H eq_refl) | discriminate ].
    + destruct (binary_key (world s)) as [key|];
        [ | destruct Hkey as (msg & Hkey); rewrite Hd in Hkey; discriminate Hkey ].
      rewrite out_finish.
      pose proof (connect_loop_sound (config_of (environ (world s)))
                    (target_url (config_of (environ (world s))) coh)
                    (force_in_use (config_of (environ (world s))) coh)
                    coh fuel s1) as Hp.
      cbn zeta in Hp. apply loop_path_outcome in Hp.
      destruct Hp as [ -> | [ -> | [ -> | -> ] ] ];
        (split; [ split; [ intros H; discriminate H | intros H; destruct (Hset H) ] | ]);
        (split; [ split; [ intros (msg & H); discriminate H
                         | intros (_ & H); discriminate H ] | ]);
        (split; [ intros _ _; auto | discriminate ]).
Qed.

Lemma script_ends_in_one_of_five_ways_witness :
  let s := Scenario.no_user_key in
  first_unset (environ (world s)) = None /\
  binary_key (world s) = None /\
  exists msg, out (main 5 s) = Raise msg.
Proof.
  intros s.
  assert (H : first_unset (environ (world s)) = None /\ binary_key (world s) = None)
    by (split; reflexivity).
  split; [apply H|]. split; [apply H|].
  exact (proj2 (proj1 (proj2 (script_ends_in_one_of_five_ways 5 s))) H).
Defined.

Lemma setup_no_remote (l : list event) :
  forallb setup_event l = true -> existsb is_remote l = false.
Proof.
  induction l as [|e l IH]; intros H; [reflexivity|].
  cbn [forallb] in H. apply andb_true_iff in H. destruct H as [He Hl].
  cbn [existsb]. rewrite (IH Hl). destruct e; try discriminate; reflexivity.
Qed.



(* ===================================================================== *)
(** ** What the script leaves untouched *)
(* ===================================================================== *)

Section Keeps.

Variable I : State -> Prop.

Lemma keeps_ret {A} (a : A) : keeps I (ret a).
Proof. intros s H. exact H. Qed.

Lemma keeps_emit (e : event) : keeps I (emit e).
Proof. intros s H. exact H. Qed.

Lemma keeps_print (line : string) : keeps I (print line).
Proof. intros s H. exact H. Qed.

Lemma keeps_sleep (n : nat) : keeps I (sleep n).
Proof. intros s H. exact H. Qed.

Lemma keeps_throw {A} (msg : string) : keeps I (@throw A msg).
Proof. intros s H. exact H. Qed.

Lemma keeps_exit {A} (code : Z) : keeps I (@exit_ A code).
Proof. intros s H. exact H. Qed.

Lemma keeps_killed {A} : keeps I (@killed A).
Proof. intros s H. exact H. Qed.

Lemma keeps_get {A} (field : State -> A) : keeps I (get field).
Proof. intros s H. exact H. Qed.

Lemma keeps_modify (f : State -> State) :
  (forall s, I s -> I (f s)) -> keeps I (modify f).
Proof. intros Hf s H. apply Hf, H. Qed.

Lemma keeps_call {A} (e : event) (answer : A -> event)
    (replies : World -> list (reply A))
    (rest : list (reply A) -> World -> World) :
  (forall s l, I s -> I (set_world (rest l (world s)) s)) ->
  keeps I (call e answer replies rest).
Proof.
  intros Hrest s H. unfold call.
  destruct (replies (world s)) as [|[a|msg] l]; cbn [after];
    [exact H | apply Hrest, H ..].
Qed.

Lemma keeps_bind {A B} (m : M A) (f : A -> M B) :
  keeps I m -> (forall a, keeps I (f a)) -> keeps I (bind m f).
Proof.
  intros Hm Hf s H. specialize (Hm s H). unfold bind.
  destruct (m s) as [[a| | |] s' l]; cbn [after] in *; trivial.
  rewrite after_prepend. apply Hf, Hm.
Qed.

Lemma keeps_try_except {A} (body : M A) (handler : string -> M A) :
  keeps I body -> (forall msg, keeps I (handler msg)) ->
  keeps I (try_except body handler).
Proof.
  intros Hm Hh s H. specialize (Hm s H). unfold try_except.
  destruct (body s) as [[a| | |] s' l]; cbn [after] in *; trivial.
  rewrite after_prepend. apply Hh, Hm.
Qed.

Lemma keeps_while (cond : M bool) (body : M ctl) :
  keeps I cond -> keeps I body -> forall fuel, keeps I (while fuel cond body).
Proof.
  intros Hc Hb. induction fuel as [|fuel IH]; cbn [while];
    (apply keeps_bind; [exact Hc|]); intros [|];
    try apply keeps_ret; try apply keeps_killed.
  apply keeps_bind; [exact Hb|]. intros [|]; [exact IH | apply keeps_ret].
Qed.

Lemma keeps_for_each {A} (body : A -> M unit) :
  (forall x, keeps I (body x)) -> forall xs, keeps I (for_each xs body).
Proof.
  intros Hb. induction xs as [|x xs IH]; cbn [for_each];
    [apply keeps_ret|].
  apply keeps_bind; [apply Hb | intros _; exact IH].
Qed.

End Keeps.

(** One step of a proof that a command keeps an invariant which the
    assignments to the script's variables and the consumption of a reply
    do not touch. *)
Ltac keeps_step :=
  first
    [ apply keeps_ret | apply keeps_print | apply keeps_sleep | apply keeps_emit
    | apply keeps_throw | apply keeps_exit | apply keeps_killed | apply keeps_get
    | apply keeps_modify; intros ? H; exact H
    | apply keeps_call; intros ? ? H; exact H
    | apply keeps_bind; [ | intros ? ]
    | apply keeps_try_except; [ | intros ? ]
    | apply keeps_while
    | apply keeps_for_each; intros ?
    | match goal with
      | |- keeps _ (if ?b then _ else _) => destruct b
      | |- keeps _ (match ?x with _ => _ end) => destruct x
      end ].

(** The environment, the files and the libraries are as they were. *)
Lemma connect_loop_local (lw : (string -> option string) * (string -> option string)
                               * (string -> bool) * (string -> option string))
    (fuel : nat) (cfg : Config) (cohExists : bool) (connect_url force : string) :
  keeps (fun s => local_world (world s) = lw)
    (connect_loop fuel cfg cohExists connect_url force).
Proof.
  unfold connect_loop, connect_body, on_failure, fallback, graceful_stop,
    shutdownUsingNodeManager, waitUntilCoherenceSafe, coherenceSafe_body,
    waitUntilServiceSafeToShutdown, serviceSafe_body, int, connect, domainRuntime,
    queryMBeans, getAttribute, shutdown, nmConnect, nmKill.
  repeat keeps_step.
Qed.

(** X11.  The only file the script writes is the binary user key.  In
    every run the environment is left as it was and so is every file but
    /tmp/userKeyNodeManager.secure.bin; and in a run that makes a remote
    call, that file holds the decoded content of the introspector's key
    file. *)
Theorem only_the_binary_key_is_written (fuel : nat) (s : State) :
  let r := main fuel s in
  environ (world (after r)) = environ (world s) /\
  (forall path, path <> binary_key_path ->
                files (world (after r)) path = files (world s) path) /\
  (existsb is_remote (log r) = true ->
   exists key, binary_key (world s) = Some key /\
               files (world (after r)) binary_key_path = Some key).
Proof.
  intros r. subst r.
  destruct (first_unset (environ (world s))) as [var|] eqn:Henv.
  { rewrite (main_unset fuel s var Henv). cbn [after log].
    repeat split. intros H. discriminate H. }
  destruct (main_run fuel s Henv) as
    [(msg & s1 & l1 & Hd & ->)|(s1 & l1 & coh & l2 & Hd & Hc & Hl & ->)].
  - destruct (decode_user_key_cases s) as (o & s' & l & Hd' & Hl & _).
    pose proof (decode_user_key_outcome s) as Hkey.
    destruct (binary_key (world s)) as [key|];
      [rewrite Hd in Hkey; discriminate Hkey|].
    destruct Hkey as (msg' & Hkey). rewrite Hd in Hkey.
    injection Hkey as _ ->. rewrite Hd in Hd'. injection Hd' as _ _ <-.
    cbn [after log]. repeat split. intros H.
    change (Print "Shutdown: main script" :: l1)
      with ([Print "Shutdown: main script"] ++ l1) in H.
    rewrite existsb_app, (setup_no_remote _ Hl) in H. discriminate H.
  - rewrite after_finish.
    pose proof (connect_loop_local (local_world (world s1)) fuel
                  (config_of (environ (world s))) coh
                  (target_url (config_of (environ (world s))) coh)
                  (force_in_use (config_of (environ (world s))) coh) s1 eq_refl)
      as Hlocal.
    cbn beta in Hlocal. unfold local_world in Hlocal.
    injection Hlocal as Henviron Hfiles _ _.
    rewrite Henviron, Hfiles. clear Henviron Hfiles.
    rewrite decode_user_key_run in Hd. unfold binary_key.
    destruct (files (world s) user_key_path) as [contents|]; [|discriminate Hd].
    destruct (decodestring (world s) contents) as [decoded|]; [|discriminate Hd].
    destruct (writable (world s) binary_key_path); [|discriminate Hd].
    injection Hd as <- _. cbn [world set_world environ files set_files].
    split; [reflexivity|]. split.
    + intros path Hpath. apply String.eqb_neq in Hpath. rewrite Hpath. reflexivity.
    + intros _. exists decoded. split; [reflexivity|].
      rewrite String.eqb_refl. reflexivity.
Qed.

Lemma only_the_binary_key_is_written_witness :
  let r := main 5 Sample.graceful in
  existsb is_remote (log r) = true /\
  exists key, binary_key (world Sample.graceful) = Some key /\
              files (world (after r)) binary_key_path = Some key.
Proof.
  intros r.
  assert (H : existsb is_remote (log r) = true) by (vm_compute; reflexivity).
  split; [exact H|].
  exact (proj2 (proj2 (only_the_binary_key_is_written 5 Sample.graceful)) H).
Defined.

(* ===================================================================== *)
(** ** When the safety wait is skipped *)
(* ===================================================================== *)

Lemma shutdown_guarded_setup (b : bool) (l l' : list event) :
  forallb setup_event l = true ->
  shutdown_guarded b (l ++ l') = shutdown_guarded b l'.
Proof.
  induction l as [|e l IH]; intros H; [reflexivity|].
  cbn [forallb] in H. apply andb_true_iff in H. destruct H as [He Hl].
  cbn [app shutdown_guarded]. destruct e; try discriminate; cbn; auto.
Qed.

Lemma last_char_config (domain_path : string) :
  last_char (domain_path +++ "/config/config.xml") = Some "l"%char.
Proof.
  induction domain_path as [|c p IH]; [reflexivity|].
  cbn [String.append last_char]. rewrite IH.
  destruct (p +++ "/config/config.xml") eqn:E; [|reflexivity].
  destruct p; discriminate E.
Qed.

Lemma config_is_not_the_binary_key (domain_path : string) :
  domain_path +++ "/config/config.xml" <> binary_key_path.
Proof.
  intros H. apply (f_equal last_char) in H. rewrite last_char_config in H.
  discriminate H.
Qed.

(** X12.  The script calls [shutdown] without having waited for the
    Coherence cluster to be safe only when it has read config.xml under
    DOMAIN_HOME and found no cluster in it: a run whose log has a
    [shutdown] call not preceded, since the last [connect], by a return
    of [waitUntilCoherenceSafe], started with a readable config.xml on
    which the detector answers [False]. *)
Theorem unguarded_shutdown_only_after_negative_detection
    (fuel : nat) (s : State) :
  let cfg := config_of (environ (world s)) in
  shutdown_guarded false (log (main fuel s)) = false ->
  exists configData,
    files (world s) (domain_path cfg +++ "/config/config.xml") = Some configData /\
    coherence_cluster_in configData = false.
Proof.
  intros cfg Hlog.
  destruct (first_unset (environ (world s))) as [var|] eqn:Henv;
    [rewrite (main_unset fuel s var Henv) in Hlog; discriminate Hlog|].
  destruct (main_run fuel s Henv) as
    [(msg & s1 & l1 & Hd & Hmain)|(s1 & l1 & coh & l2 & Hd & Hc & Hl & Hmain)];
    rewrite Hmain in Hlog; clear Hmain.
  - destruct (decode_user_key_cases s) as (o & s' & l & Hd' & Hl & _).
    rewrite Hd in Hd'. injection Hd' as _ _ <-. cbn [log] in Hlog.
    rewrite <- (app_nil_r (Print "Shutdown: main script" :: l1)) in Hlog.
    rewrite shutdown_guarded_setup in Hlog by exact Hl. discriminate Hlog.
  - fold cfg in Hc, Hlog. rewrite log_finish in Hlog.
    rewrite shutdown_guarded_setup in Hlog
      by (cbn [forallb setup_event andb]; rewrite app_assoc, forallb_app, Hl;
          reflexivity).
    destruct coh.
    + rewrite (loop_path_guarded cfg (target_url cfg true) (force_in_use cfg true)
                 _ _ (connect_loop_sound cfg _ _ true fuel s1)) in Hlog.
      discriminate Hlog.
    + rewrite doesCoherenceExist_run in Hc.
      destruct (files (world s1) (domain_path cfg +++ "/config/config.xml"))
        as [configData|] eqn:Hfile; [|discriminate Hc].
      injection Hc as Hverdict _. exists configData. split; [|exact Hverdict].
      rewrite <- Hfile. rewrite decode_user_key_run in Hd.
      destruct (files (world s) user_key_path) as [contents|]; [|discriminate Hd].
      destruct (decodestring (world s) contents) as [decoded|]; [|discriminate Hd].
      destruct (writable (world s) binary_key_path); [|discriminate Hd].
      injection Hd as <- _. cbn [world set_world files set_files].
      rewrite (proj2 (String.eqb_neq _ _) (config_is_not_the_binary_key _)).
      reflexivity.
Qed.

Lemma unguarded_shutdown_only_after_negative_detection_witness :
  let s := Sample.graceful in
  shutdown_guarded false (log (main 5 s)) = false /\
  exists configData,
    files (world s) ("/shared/domains/base_domain" +++ "/config/config.xml") =
      Some configData /\
    coherence_cluster_in configData = false.
Proof.
  intros s.
  assert (H : shutdown_guarded false (log (main 5 s)) = false)
    by (vm_compute; reflexivity).
  split; [exact H|].
  exact (unguarded_shutdown_only_after_negative_detection 5 s H).
Defined.

(* ===================================================================== *)
(** ** What the detector looks at *)
(* ===================================================================== *)

(** X13.  [checkCoherenceClusterExist] looks at the characters of
    config.xml that are not blanks, and at nothing else: two
    configurations that differ only in blanks, line breaks and
    indentation get the same answer. *)
Theorem detector_ignores_blanks (a b : string) (s : State) :
  remove_blanks a = remove_blanks b ->
  checkCoherenceClusterExist a s = checkCoherenceClusterExist b s.
Proof.
  intros H. rewrite !checkCoherenceClusterExist_run. unfold coherence_cluster_in.
  fold (spaceless a) (spaceless b).
  rewrite !spaceless_removes_blanks, H. reflexivity.
Qed.

Lemma detector_ignores_blanks_witness :
  remove_blanks Scenario.cluster_indented =
    remove_blanks Scenario.cluster_on_one_line /\
  checkCoherenceClusterExist Scenario.cluster_indented Sample.graceful =
  checkCoherenceClusterExist Scenario.cluster_on_one_line Sample.graceful.
Proof.
  assert (H : remove_blanks Scenario.cluster_indented =
              remove_blanks Scenario.cluster_on_one_line)
    by (vm_compute; reflexivity).
  split; [exact H|].
  exact (detector_ignores_blanks _ _ Sample.graceful H).
Defined.

(** X14.  [checkCoherenceClusterExist] answers by the first
    coherence-cluster-system-resource element of the text without blanks:
    [True] when that element has content, [False] when it is empty.  The
    test [(last-first-5) > 2*len(ELEMENT_NAME)] is the test that the match
    is longer than its two tags.  It prints nothing and raises nothing. *)
Theorem detector_answers_by_first_element
    (configData before content after_ : string) (s : State) :
  first_element (spaceless configData) before content after_ ->
  checkCoherenceClusterExist configData s =
  mkRun (Ret (negb (String.eqb content ""))) s [].
Proof.
  intros H. rewrite checkCoherenceClusterExist_run.
  rewrite (proj1 (detector_reads_first_element configData) _ _ _ H).
  reflexivity.
Qed.

Lemma detector_answers_by_first_element_witness :
  first_element (spaceless Scenario.cluster_indented)
    "<domain>" "<name>cluster-1</name>" "</domain>" /\
  checkCoherenceClusterExist Scenario.cluster_indented Sample.graceful =
  mkRun (Ret true) Sample.graceful [].
Proof.
  assert (H : first_element (spaceless Scenario.cluster_indented)
                "<domain>" "<name>cluster-1</name>" "</domain>").
  { assert (E : spaceless Scenario.cluster_indented = Scenario.cluster_on_one_line)
      by (vm_compute; reflexivity).
    rewrite E. split; [reflexivity|]. split.
    - intros a b H.
      unfold Scenario.cluster_on_one_line, Re.OPEN_TAG in H.
      do 8 (destruct a as [|? a];
            [cbn in H; discriminate H | cbn in H; injection H as _ H]).
      cbn. lia.
    - intros a b H. unfold Re.CLOSE_TAG in H.
      do 22 (destruct a as [|? a];
             [cbn in H; discriminate H | cbn in H; injection H as _ H]).
      cbn. lia. }
  split; [exact H|].
  exact (detector_answers_by_first_element _ _ _ _ Sample.graceful H).
Defined.

(** X15.  [checkCoherenceClusterExist] invents no cluster: when it
    answers [True], the text without blanks holds a
    coherence-cluster-system-resource element with content; and on a text
    that holds no such element it answers [False]. *)
Theorem detector_invents_no_cluster (configData : string) (s : State) :
  (out (checkCoherenceClusterExist configData s) = Ret true ->
   exists before content after_,
     holds_element (spaceless configData) before content after_ /\
     content <> "") /\
  ((forall before content after_,
      ~ holds_element (spaceless configData) before content after_) ->
   out (checkCoherenceClusterExist configData s) = Ret false).
Proof.
  rewrite checkCoherenceClusterExist_run. cbn [out].
  destruct (detector_reads_first_element configData) as (_ & Hnone & Hsome).
  split.
  - intros H. injection H as H. apply Hsome, H.
  - intros H. rewrite (Hnone H). reflexivity.
Qed.

Lemma detector_invents_no_cluster_witness :
  (forall before content after_,
     ~ holds_element (spaceless Sample.without_cluster) before content after_) /\
  out (checkCoherenceClusterExist Sample.without_cluster Sample.graceful) = Ret false.
Proof.
  assert (H : forall before content after_,
              ~ holds_element (spaceless Sample.without_cluster)
                  before content after_).
  { intros before content after_ H. unfold holds_element in H.
    apply (f_equal String.length) in H. rewrite !length_append in H.
    assert (E : String.length (spaceless Sample.without_cluster) = 41)
      by (vm_compute; reflexivity).
    rewrite E in H. change (String.length Re.OPEN_TAG) with 35 in H.
    change (String.length Re.CLOSE_TAG) with 36 in H. lia. }
  split; [exact H|].
  exact (proj2 (detector_invents_no_cluster Sample.without_cluster Sample.graceful) H).
Defined.

(* ===================================================================== *)
(** ** [shutdownUsingNodeManager] *)
(* ===================================================================== *)

(** X16.  [shutdownUsingNodeManager] returns exactly when [nmKill] has
    completed.  When [nmConnect] or [nmKill] raises, it prints the
    traceback and that the kill failed, and raises the same exception
    again; it never ends the process itself; and it calls [nmKill] only
    once [nmConnect] has completed. *)
Theorem node_manager_shutdown_reports_failure
    (server_name domainName domainDir : string) (s : State) :
  let r := shutdownUsingNodeManager server_name domainName domainDir s in
  (out r = Ret tt <-> node_manager_killed (log r) = true) /\
  (forall msg,
     out r = Raise msg ->
     node_manager_failed (log r) = true /\
     exists l,
       log r = l ++ [ Raised msg; PrintExc;
                      Print "Shutdown: Failed to kill server using NodeManager";
                      Raised msg ]) /\
  (forall code, out r <> Exit code) /\
  (existsb is_nm_kill (log r) = true ->
   followed_by is_nm_connect is_completed (log r) = true).
Proof.
  intros r. subst r. unfold shutdownUsingNodeManager, nmConnect, nmKill.
  unfold_m.
  destruct (nmConnect_replies (world s)) as [|[[]|cmsg] nrest];
    cbn beta iota zeta delta [app out after log world set_world];
    [ | destruct (nmKill_replies _) as [|[[]|kmsg] krest];
        cbn beta iota zeta delta [app out after log world set_world] | ];
    (split; [ split; intros H; try discriminate H; reflexivity | ]);
    (split; [ intros msg H; try discriminate H
            | split; [ intros code H; discriminate H
                     | intros H; try discriminate H; reflexivity ] ]);
    injection H as <-; (split; [reflexivity|]).
  - exists [ Print "Shutdown: Attempting shutdown using NodeManager";
             NmConnect domainName domainDir; Completed;
             Print "Shutdown: Successfully connected to NodeManager";
             NmKill server_name ].
    reflexivity.
  - exists [ Print "Shutdown: Attempting shutdown using NodeManager";
             NmConnect domainName domainDir ].
    reflexivity.
Qed.

Lemma node_manager_shutdown_reports_failure_witness :
  let r := shutdownUsingNodeManager "managed-server1" "base_domain"
             "/shared/domains/base_domain" Scenario.kill_refused in
  out r = Raise "kill refused" /\
  node_manager_failed (log r) = true /\
  exists l,
    log r = l ++ [ Raised "kill refused"; PrintExc;
                   Print "Shutdown: Failed to kill server using NodeManager";
                   Raised "kill refused" ].
Proof.
  intros r.
  assert (H : out r = Raise "kill refused") by reflexivity.
  split; [exact H|].
  exact (proj1 (proj2 (node_manager_shutdown_reports_failure "managed-server1"
                         "base_domain" "/shared/domains/base_domain"
                         Scenario.kill_refused)) "kill refused" H).
Defined.
